(** * Quant monitor dashboard: the browser client (app.js, app_fixed.js)

    The two scripts under static/js are modelled as state-passing functions
    over the fields of [QuantMonitorApp].  Values that arrive over the
    socket or from [fetch] are JSON values; an event handler returns the new
    instance state together with an outcome that says whether the handler
    ran to its end or stopped on a [TypeError].

    Conventions of the model:
    - a JavaScript number is an IEEE binary64 [float];
    - a string is a [string]; the model agrees with the scripts on ASCII
      text (a [string] counts bytes where JavaScript counts UTF-16 units);
    - objects used as dictionaries ([this.stocks], [this.chartData], the
      name table of the cards) are finite maps over their own properties; a
      lookup that finds no own property finds the members inherited from
      [Object.prototype], which the page is taken not to have extended, and
      an assignment to [__proto__] replaces the prototype of [this.stocks];
    - the conversions that depend on the browser (locale time formatting,
      string to number, [trim], [toUpperCase], the source text of a
      built-in function) are operations of a [Host];
    - markup written to [innerHTML] is kept as the tree of tags that the
      template literal spells out, each interpolated value being a [Raw]
      leaf that holds its string conversion. *)

From Stdlib Require Import ZArith Ascii Floats DecimalString.
From stdpp Require Import base option list gmap strings.

Set Warnings "-register-all".
Local Open Scope Z_scope.

(** ** JavaScript values and conversions *)

Module JS.

Inductive jsval : Type :=
  | JUndefined
  | JNull
  | JBool (b : bool)
  | JNum (x : float)
  | JStr (s : string)
  | JArr (items : list jsval)
  | JObj (fields : gmap string jsval).

(** Outcome of running a handler: [Threw] is an uncaught [TypeError]. *)
Inductive outcome : Type := Done | Threw.

(** ToBoolean. *)
Definition truthy (v : jsval) : bool :=
  match v with
  | JUndefined | JNull => false
  | JBool b => b
  | JNum x => negb (PrimFloat.is_zero x || PrimFloat.is_nan x)
  | JStr s => negb (String.eqb s "")
  | JArr _ | JObj _ => true
  end.

(** [a || b] *)
Definition or_else (a b : jsval) : jsval := if truthy a then a else b.

Definition nullish (v : jsval) : bool :=
  match v with JUndefined | JNull => true | _ => false end.

(** *** Decimal digits *)

Definition digits (n : Z) : string := NilZero.string_of_uint (N.to_uint (Z.to_N n)).

Fixpoint zeros (n : nat) : string :=
  match n with O => "" | S n' => String "0"%char (zeros n') end.

Definition str_take (n : nat) (s : string) : string := String.substring 0 n s.
Definition str_drop (n : nat) (s : string) : string :=
  String.substring n (String.length s - n)%nat s.

(** *** Number::toString (radix 10)

    A finite non-zero double [m * 2^e] is printed with the fewest
    significant digits [s] that still read back as the same double; the
    reals that round to it lie between the midpoints to its two
    neighbours, both taken in units of [2^(e-2)]. *)

Definition binade_start (m e : Z) : bool := (m =? 2 ^ 52) && (-1074 <? e).

(** Scaling [num / den] of one unit [2^(e-2)] expressed in units of [10^p]. *)
Definition unit_scale (e p : Z) : Z * Z :=
  (2 ^ Z.max (e - 2) 0 * 10 ^ Z.max (- p) 0,
   2 ^ Z.max (2 - e) 0 * 10 ^ Z.max p 0).

(** The integers [s] such that [s * 10^p] rounds to [m * 2^e]. *)
Definition candidates (m e p : Z) : Z * Z :=
  let '(num, den) := unit_scale e p in
  let lo := (4 * m - (if binade_start m e then 1 else 2)) * num in
  let hi := (4 * m + 2) * num in
  let closed := Z.even m in
  let smin := if closed then (lo + den - 1) / den else lo / den + 1 in
  let smax := if closed then hi / den else (hi + den - 1) / den - 1 in
  (smin, smax).

(** The candidate nearest to the double, the even one on a tie. *)
Definition nearest (m e p smin smax : Z) : Z :=
  let '(num, den) := unit_scale e p in
  let x2 := 2 * (4 * m * num) in
  let f := x2 / (2 * den) in
  let r := x2 - f * (2 * den) in
  let s := if r <? den then f
           else if den <? r then f + 1
           else if Z.even f then f else f + 1 in
  Z.max smin (Z.min smax s).

Fixpoint shortest (fuel : nat) (m e p : Z) : Z * Z :=
  match fuel with
  | O => (m, e)
  | S fuel' =>
      let '(smin, smax) := candidates m e p in
      if (smin <=? smax) && (1 <=? smax)
      then (nearest m e p (Z.max 1 smin) smax, p)
      else shortest fuel' m e (p - 1)
  end.

(** [(s, n)] with [k] the number of digits of [s]: the double prints as the
    digits of [s] scaled by [10^(n-k)]. *)
Definition shortest_decimal (m e : Z) : string * Z :=
  let b := Z.log2 m + e + 1 in
  let '(s, p) := shortest 60 m e (b * 30103 / 100000 + 2) in
  let ds := digits s in
  (ds, p + Z.of_nat (String.length ds)).

Definition exponent_suffix (n : Z) : string :=
  "e" +:+ (if 0 <=? n - 1 then "+" else "-") +:+ digits (Z.abs (n - 1)).

Definition layout (ds : string) (n : Z) : string :=
  let k := Z.of_nat (String.length ds) in
  if (k <=? n) && (n <=? 21) then ds +:+ zeros (Z.to_nat (n - k))
  else if (0 <? n) && (n <=? 21)
       then str_take (Z.to_nat n) ds +:+ "." +:+ str_drop (Z.to_nat n) ds
  else if (-6 <? n) && (n <=? 0) then "0." +:+ zeros (Z.to_nat (- n)) +:+ ds
  else if k =? 1 then ds +:+ exponent_suffix n
  else str_take 1 ds +:+ "." +:+ str_drop 1 ds +:+ exponent_suffix n.

Definition number_to_string (x : float) : string :=
  match Prim2SF x with
  | S754_nan => "NaN"
  | S754_zero _ => "0"
  | S754_infinity sign => if sign then "-Infinity" else "Infinity"
  | S754_finite sign m e =>
      let '(ds, n) := shortest_decimal (Z.pos m) e in
      (if sign then "-" else "") +:+ layout ds n
  end.

(** *** Number.prototype.toFixed *)

(** The integer [n] nearest to [m * 2^e * 10^f], the larger one on a tie. *)
Definition fixed_round (m e : Z) (f : nat) : Z :=
  let num := 2 * m * 10 ^ Z.of_nat f * 2 ^ Z.max e 0 in
  let den := 2 ^ Z.max (- e) 0 in
  (num + den) / (2 * den).

Definition fixed_layout (n : Z) (f : nat) : string :=
  let ds := digits n in
  let k := String.length ds in
  let ds := if (k <=? f)%nat then zeros (f + 1 - k)%nat +:+ ds else ds in
  let k := String.length ds in
  match f with
  | O => ds
  | _ => str_take (k - f)%nat ds +:+ "." +:+ str_drop (k - f)%nat ds
  end.

Definition toFixed (f : nat) (x : float) : string :=
  match Prim2SF x with
  | S754_finite sign m e =>
      if (1e21 <=? PrimFloat.abs x)%float then number_to_string x
      else (if sign then "-" else "") +:+ fixed_layout (fixed_round (Z.pos m) e f) f
  | S754_zero _ => fixed_layout 0 f
  | _ => number_to_string x
  end.

(** *** Conversions of values *)

(** The browser's part of the conversions: StringToNumber,
    [new Date(p).toLocaleTimeString()] for a primitive [p], and the two
    string methods of [addStock]. *)
Class Host : Type := {
  string_to_number : string -> float;
  toLocaleTimeString : jsval -> string;
  trim : string -> string;
  toUpperCase : string -> string;
  function_text : string -> string
}.

(** The names of the members of [Object.prototype]. *)
Definition prototype_members : list string :=
  [ "constructor"; "__defineGetter__"; "__defineSetter__"; "hasOwnProperty";
    "__lookupGetter__"; "__lookupSetter__"; "isPrototypeOf"; "propertyIsEnumerable";
    "toString"; "valueOf"; "__proto__"; "toLocaleString" ].

(** [key] names a member that every object inherits. *)
Definition inherited (key : string) : bool :=
  bool_decide (key ∈ prototype_members).

(** [obj[key]] finds no own property of [obj] but an inherited member: a
    function, or through [__proto__] the prototype object, truthy in either
    case. *)
Definition finds_inherited {A : Type} (own : gmap string A) (key : string) : bool :=
  match own !! key with
  | Some _ => false
  | None => inherited key
  end.

Definition has_own (o : gmap string jsval) (k : string) : bool :=
  bool_decide (is_Some (o !! k)).

(** A parsed JSON object has no callable member: with an own [toString]
    neither [toString] nor [valueOf] yields a primitive. *)
Definition object_to_string (o : gmap string jsval) : option string :=
  if has_own o "toString" then None else Some "[object Object]".

(** ToString; [None] is a [TypeError]. *)
Fixpoint to_string (v : jsval) : option string :=
  match v with
  | JUndefined => Some "undefined"
  | JNull => Some "null"
  | JBool b => Some (if b then "true" else "false")
  | JNum x => Some (number_to_string x)
  | JStr s => Some s
  | JObj o => object_to_string o
  | JArr items =>
      (fix join (l : list jsval) : option string :=
         match l with
         | [] => Some ""
         | x :: l' =>
             e ← (if nullish x then Some "" else to_string x);
             match l' with
             | [] => Some e
             | _ => r ← join l'; Some (e +:+ "," +:+ r)
             end
         end) items
  end.

(** ToPrimitive (an array converts through [join]). *)
Definition to_primitive (v : jsval) : option jsval :=
  match v with
  | JObj _ | JArr _ => JStr <$> to_string v
  | _ => Some v
  end.

Definition of_nat (n : nat) : float := PrimFloat.of_uint63 (Uint63.of_Z (Z.of_nat n)).

Section WithHost.
Context `{Host}.

(** ToNumber. *)
Definition to_number (v : jsval) : option float :=
  p ← to_primitive v;
  Some (match p with
        | JNull => 0%float
        | JBool b => if b then 1%float else 0%float
        | JNum x => x
        | JStr s => string_to_number s
        | _ => nan
        end).

(** [new Date(v).toLocaleTimeString()] *)
Definition date_time (v : jsval) : option string :=
  toLocaleTimeString <$> to_primitive v.

(** The string conversion of an inherited member: the source text of the
    built-in function ([constructor] is the function [Object]), and
    [[object Object]] for the prototype object that [__proto__] reads. *)
Definition inherited_text (key : string) : string :=
  if String.eqb key "__proto__" then "[object Object]"
  else function_text (if String.eqb key "constructor" then "Object" else key).

(** [`${names[key]}`] when [names[key]] is truthy: the own name, or the
    text of the inherited member. *)
Definition name_text (names : gmap string string) (key : string) : option string :=
  match names !! key with
  | Some name => Some name
  | None => if inherited key then Some (inherited_text key) else None
  end.

End WithHost.

(** [v.k] for a member name [k] of the scripts. *)
Definition get (v : jsval) (k : string) : option jsval :=
  match v with
  | JUndefined | JNull => None
  | JObj o => Some (default JUndefined (o !! k))
  | JArr items =>
      Some (if String.eqb k "length" then JNum (of_nat (length items)) else JUndefined)
  | JStr s =>
      Some (if String.eqb k "length" then JNum (of_nat (String.length s)) else JUndefined)
  | _ => Some JUndefined
  end.

(** [o.k] on an object of the instance. *)
Definition field (o : gmap string jsval) (k : string) : jsval :=
  default JUndefined (o !! k).

(** [v?.k] *)
Definition get_opt (v : jsval) (k : string) : jsval :=
  if nullish v then JUndefined else default JUndefined (get v k).

(** [v.toFixed(f)]: only a number has the method. *)
Definition call_toFixed (f : nat) (v : jsval) : option string :=
  match v with JNum x => Some (toFixed f x) | _ => None end.

(** [v?.toFixed(2) || 'N/A'] *)
Definition fixed_or_na (v : jsval) : option string :=
  if nullish v then Some "N/A" else call_toFixed 2 v.

(** [v.toString()] *)
Definition call_toString (v : jsval) : option string :=
  if nullish v then None else to_string v.

Definition index_key (i : nat) : string := digits (Z.of_nat i).

(** The own enumerable properties copied by [{...v}]. *)
Definition spread (v : jsval) : gmap string jsval :=
  match v with
  | JObj o => o
  | JArr items => list_to_map (imap (fun i x => (index_key i, x)) items)
  | JStr s =>
      list_to_map (imap (fun i c => (index_key i, JStr (String c "")))
                        (String.list_ascii_of_string s))
  | _ => ∅
  end.

(** [a === b] against a string literal. *)
Definition is_string (v : jsval) (s : string) : bool :=
  match v with JStr t => String.eqb t s | _ => false end.

(** Markup assigned to [innerHTML]. *)
Inductive markup : Type :=
  | Tag (name cls : string) (body : list markup)
  | Raw (text : string).

(** The most recent [n] elements of a list. *)
Definition lastn {A} (n : nat) (l : list A) : list A := drop (length l - n)%nat l.

End JS.

(** ** app.js *)

Module App.
Import JS.

(** An entry of [this.chartData]: three parallel arrays. *)
Record series : Type := {
  prices : list jsval;
  volumes : list jsval;
  timestamps : list string
}.

Definition empty_series : series :=
  {| prices := []; volumes := []; timestamps := [] |}.

(** The instance fields, and the page elements the methods write.
    [stocks] holds the own properties of [this.stocks] and [stocksProto]
    its prototype when that is no longer [Object.prototype];
    [chartSymbol] names the entry whose arrays the chart's labels and
    datasets currently reference. *)
Record state : Type := {
  isConnected : bool;
  isMonitoring : bool;
  stocks : gmap string (gmap string jsval);
  stocksProto : option (gmap string jsval);
  alerts : list jsval;
  chartData : gmap string series;
  chartSymbol : option string;
  statusText : string;
  statusType : string;
  systemInfo : list markup;
  alertsContainer : list markup;
  marketOverview : list markup
}.

(** The instance after the constructor; the page elements start empty. *)
Definition initial : state :=
  {| isConnected := false; isMonitoring := false; stocks := ∅; stocksProto := None; alerts := [];
     chartData := ∅; chartSymbol := None; statusText := ""; statusType := "";
     systemInfo := []; alertsContainer := []; marketOverview := [] |}.

Definition set_stocks (st : state) (v : gmap string (gmap string jsval)) : state :=
  {| isConnected := isConnected st; isMonitoring := isMonitoring st; stocks := v;
     stocksProto := stocksProto st;
     alerts := alerts st; chartData := chartData st; chartSymbol := chartSymbol st;
     statusText := statusText st; statusType := statusType st;
     systemInfo := systemInfo st; alertsContainer := alertsContainer st;
     marketOverview := marketOverview st |}.

Definition set_stocksProto (st : state) (v : option (gmap string jsval)) : state :=
  {| isConnected := isConnected st; isMonitoring := isMonitoring st; stocks := stocks st;
     stocksProto := v;
     alerts := alerts st; chartData := chartData st; chartSymbol := chartSymbol st;
     statusText := statusText st; statusType := statusType st;
     systemInfo := systemInfo st; alertsContainer := alertsContainer st;
     marketOverview := marketOverview st |}.

(** [this.stocks] or its prototype has an own property [__proto__], which
    hides the accessor of [Object.prototype]. *)
Definition shadows_proto (st : state) : bool :=
  match stocks st !! "__proto__", stocksProto st with
  | Some _, _ => true
  | None, Some parent => bool_decide (is_Some (parent !! "__proto__"))
  | None, None => false
  end.

(** [this.stocks[key] = entry]: an own property is written, except that
    the key [__proto__] reaches the inherited setter, which makes [entry]
    the prototype of [this.stocks] and writes no property. *)
Definition store_stock (st : state) (key : string) (entry : gmap string jsval) : state :=
  if String.eqb key "__proto__" && negb (shadows_proto st)
  then set_stocksProto st (Some entry)
  else set_stocks st (<[key := entry]> (stocks st)).

Definition set_alerts (st : state) (v : list jsval) : state :=
  {| isConnected := isConnected st; isMonitoring := isMonitoring st; stocks := stocks st;
     stocksProto := stocksProto st;
     alerts := v; chartData := chartData st; chartSymbol := chartSymbol st;
     statusText := statusText st; statusType := statusType st;
     systemInfo := systemInfo st; alertsContainer := alertsContainer st;
     marketOverview := marketOverview st |}.

Definition set_chart (st : state) (v : gmap string series) (shown : option string) : state :=
  {| isConnected := isConnected st; isMonitoring := isMonitoring st; stocks := stocks st;
     stocksProto := stocksProto st;
     alerts := alerts st; chartData := v; chartSymbol := shown;
     statusText := statusText st; statusType := statusType st;
     systemInfo := systemInfo st; alertsContainer := alertsContainer st;
     marketOverview := marketOverview st |}.

Definition set_isMonitoring (st : state) (v : bool) : state :=
  {| isConnected := isConnected st; isMonitoring := v; stocks := stocks st;
     stocksProto := stocksProto st;
     alerts := alerts st; chartData := chartData st; chartSymbol := chartSymbol st;
     statusText := statusText st; statusType := statusType st;
     systemInfo := systemInfo st; alertsContainer := alertsContainer st;
     marketOverview := marketOverview st |}.

Definition set_systemInfo (st : state) (v : list markup) : state :=
  {| isConnected := isConnected st; isMonitoring := isMonitoring st; stocks := stocks st;
     stocksProto := stocksProto st;
     alerts := alerts st; chartData := chartData st; chartSymbol := chartSymbol st;
     statusText := statusText st; statusType := statusType st;
     systemInfo := v; alertsContainer := alertsContainer st;
     marketOverview := marketOverview st |}.

Definition set_alertsContainer (st : state) (v : list markup) : state :=
  {| isConnected := isConnected st; isMonitoring := isMonitoring st; stocks := stocks st;
     stocksProto := stocksProto st;
     alerts := alerts st; chartData := chartData st; chartSymbol := chartSymbol st;
     statusText := statusText st; statusType := statusType st;
     systemInfo := systemInfo st; alertsContainer := v;
     marketOverview := marketOverview st |}.

Definition set_marketOverview (st : state) (v : list markup) : state :=
  {| isConnected := isConnected st; isMonitoring := isMonitoring st; stocks := stocks st;
     stocksProto := stocksProto st;
     alerts := alerts st; chartData := chartData st; chartSymbol := chartSymbol st;
     statusText := statusText st; statusType := statusType st;
     systemInfo := systemInfo st; alertsContainer := alertsContainer st;
     marketOverview := v |}.

(** [updateStatus(status, type)] *)
Definition updateStatus (st : state) (status type : string) : state :=
  {| isConnected := isConnected st; isMonitoring := isMonitoring st; stocks := stocks st;
     stocksProto := stocksProto st;
     alerts := alerts st; chartData := chartData st; chartSymbol := chartSymbol st;
     statusText := status; statusType := type;
     systemInfo := systemInfo st; alertsContainer := alertsContainer st;
     marketOverview := marketOverview st |}.

Definition info_item (label value : string) : markup :=
  Tag "div" "info-item"
    [Tag "span" "info-label" [Raw label]; Tag "span" "info-value" [Raw value]].

Section WithHost.
Context `{Host}.

(** [formatVolume(volume)] *)
Definition formatVolume (volume : jsval) : option string :=
  if negb (truthy volume) then Some "N/A" else
  n ← to_number volume;
  if (1e9 <=? n)%float then Some (toFixed 2 (n / 1e9)%float +:+ "B")
  else if (1e6 <=? n)%float then Some (toFixed 2 (n / 1e6)%float +:+ "M")
  else if (1e3 <=? n)%float then Some (toFixed 2 (n / 1e3)%float +:+ "K")
  else call_toString volume.

(** [formatMarketCap(marketCap)] *)
Definition formatMarketCap (marketCap : jsval) : option string :=
  if negb (truthy marketCap) then Some "N/A" else
  n ← to_number marketCap;
  if (1e12 <=? n)%float then Some ("$" +:+ toFixed 2 (n / 1e12)%float +:+ "T")
  else if (1e9 <=? n)%float then Some ("$" +:+ toFixed 2 (n / 1e9)%float +:+ "B")
  else if (1e6 <=? n)%float then Some ("$" +:+ toFixed 2 (n / 1e6)%float +:+ "M")
  else s ← call_toString marketCap; Some ("$" +:+ s).

(** [updateSystemInfo(data)]: the six rows of the system panel. *)
Definition updateSystemInfo (data : jsval) : option (list markup) :=
  status ← get data "status";
  monitored ← get data "monitored_symbols";
  active ← get data "active_alerts";
  last_update ← get data "last_update";
  last ← (if truthy last_update then date_time last_update else Some "无");
  uptime ← get data "uptime";
  server_time ← get data "server_time";
  server ← date_time server_time;
  count ← to_string (or_else (get_opt monitored "length") (JNum 0));
  active_s ← to_string (or_else active (JNum 0));
  uptime_s ← to_string (or_else uptime (JStr "未运行"));
  Some [ info_item "系统状态" (if is_string status "running" then "运行中" else "已停止");
         info_item "监控股票" count;
         info_item "活跃告警" active_s;
         info_item "最后更新" last;
         info_item "运行时间" uptime_s;
         info_item "服务器时间" server ].

(** [loadSystemStatus()]; [response] is the body of [/api/status], [None]
    when the request or its decoding is rejected.  Every exception is caught
    by the method. *)
Definition loadSystemStatus (st : state) (response : option jsval) : state :=
  match response with
  | None => st
  | Some data =>
      match updateSystemInfo data with
      | None => st
      | Some rows =>
          let st := set_systemInfo st rows in
          let running := is_string (default JUndefined (get data "status")) "running" in
          let st := set_isMonitoring st running in
          if running then updateStatus st "监控中" "monitoring"
          else if isConnected st then updateStatus st "已连接" "connected"
          else st
      end
  end.

(** The fallback names of [createStockCard]. *)
Definition stockNames : gmap string string :=
  list_to_map [ ("9988.HK", "阿里巴巴 (港股)"); ("1810.HK", "小米集团");
                ("AAPL", "苹果公司"); ("NVDA", "英伟达"); ("XPEV", "小鹏汽车");
                ("BABA", "阿里巴巴 (美股)"); ("MI", "小米 (美股)") ].

(** [createStockCard(stock)] *)
Definition createStockCard (stock : gmap string jsval) : option markup :=
  let change := or_else (field stock "change") (JNum 0) in
  let changePercent := or_else (field stock "changePercent") (JNum 0) in
  c ← to_number change;
  let changeClass := if (0 <=? c)%float then "positive" else "negative" in
  let changeSign := if (0 <=? c)%float then "+" else "" in
  symbol ← to_string (field stock "symbol");
  let stockName := default symbol (name_text stockNames symbol) in
  change_s ← call_toFixed 2 change;
  percent_s ← call_toFixed 2 changePercent;
  price ← fixed_or_na (field stock "price");
  high ← fixed_or_na (field stock "high");
  low ← fixed_or_na (field stock "low");
  volume ← formatVolume (field stock "volume");
  cap ← formatMarketCap (field stock "marketCap");
  updated ← date_time (field stock "lastUpdate");
  Some (Tag "div" "stock-card"
    [ Tag "div" "stock-header"
        [ Tag "div" "" [ Tag "div" "stock-symbol" [Raw symbol];
                         Tag "div" "stock-name" [Raw stockName] ];
          Tag "div" ("stock-change " +:+ changeClass)
            [Raw (changeSign +:+ change_s +:+ " (" +:+ changeSign +:+ percent_s +:+ "%)")] ];
      Tag "div" "stock-price" [Raw ("$" +:+ price)];
      Tag "div" "stock-info"
        [ Tag "div" "" [ Tag "div" "" [Raw ("最高: $" +:+ high)];
                         Tag "div" "" [Raw ("最低: $" +:+ low)] ];
          Tag "div" "" [ Tag "div" "" [Raw ("成交量: " +:+ volume)];
                         Tag "div" "" [Raw ("市值: " +:+ cap)] ] ];
      Tag "div" "stock-info" [ Tag "div" "" [Raw ("更新时间: " +:+ updated)] ] ]).

(** [updateStockDisplay()]: a card is rendered for every entry of
    [this.stocks]; the layout order of the cards is not kept, only whether
    the rendering completes. *)
Definition updateStockDisplay (st : state) : outcome :=
  if decide (map_Forall (fun _ stock => is_Some (createStockCard stock)) (stocks st))
  then Done else Threw.

(** [updateChartData(symbol, stockData)]; [now] is the label
    [new Date().toLocaleTimeString()] of the call.  For a symbol that names
    an inherited member, [this.chartData[symbol]] is that member: no entry
    is created, and [data.prices.push] is a call on [undefined]. *)
Definition updateChartData (st : state) (symbol stockData : jsval) (now : string)
  : state * outcome :=
  match to_string symbol with
  | None => (st, Threw)
  | Some key =>
      if finds_inherited (chartData st) key then (st, Threw) else
      let entries :=
        match chartData st !! key with
        | Some _ => chartData st
        | None => <[key := empty_series]> (chartData st)
        end in
      let data := default empty_series (entries !! key) in
      match get stockData "price" with
      | None => (set_chart st entries (chartSymbol st), Threw)
      | Some price =>
          let volume := default JUndefined (get stockData "volume") in
          let pushed :=
            {| prices := prices data ++ [or_else price (JNum 0)];
               volumes := volumes data ++ [or_else volume (JNum 0)];
               timestamps := timestamps data ++ [now] |} in
          let kept :=
            if (20 <? length (prices pushed))%nat
            then {| prices := tail (prices pushed);
                    volumes := tail (volumes pushed);
                    timestamps := tail (timestamps pushed) |}
            else pushed in
          (set_chart st (<[key := kept]> entries) (Some key), Done)
      end
  end.

(** [handleStockUpdate(data)] *)
Definition handleStockUpdate (st : state) (data : jsval) (now : string)
  : state * outcome :=
  match get data "symbol", get data "data", get data "timestamp" with
  | Some symbol, Some stockData, Some timestamp =>
      match to_string symbol with
      | None => (st, Threw)
      | Some key =>
          let entry := <["lastUpdate" := timestamp]> (spread stockData) in
          let st := store_stock st key entry in
          match updateStockDisplay st with
          | Threw => (st, Threw)
          | Done => updateChartData st symbol stockData now
          end
      end
  | _, _, _ => (st, Threw)
  end.

(** One alert of [updateAlertsDisplay]. *)
Definition alert_item (alert : jsval) : option markup :=
  type ← get alert "type";
  cls ← to_string (or_else type (JStr "warning"));
  symbol ← get alert "symbol" ≫= to_string;
  time ← get alert "timestamp" ≫= date_time;
  message ← get alert "message" ≫= to_string;
  Some (Tag "div" ("alert-item " +:+ cls)
    [ Tag "div" "alert-header"
        [ Tag "span" "alert-symbol" [Raw symbol]; Tag "span" "alert-time" [Raw time] ];
      Tag "div" "alert-message" [Raw message] ]).

(** [updateAlertsDisplay()] *)
Definition updateAlertsDisplay (st : state) : state * outcome :=
  match alerts st with
  | [] => (set_alertsContainer st
             [Tag "div" "loading" [Tag "i" "fas fa-bell" []; Tag "p" "" [Raw "暂无告警"]]],
           Done)
  | _ =>
      match mapM alert_item (alerts st) with
      | Some items => (set_alertsContainer st items, Done)
      | None => (st, Threw)
      end
  end.

(** [handleAlert(alert)]; the desktop notification is not part of the
    model. *)
Definition handleAlert (st : state) (alert : jsval) : state * outcome :=
  let unshifted := alert :: alerts st in
  let kept := if (20 <? length unshifted)%nat then removelast unshifted else unshifted in
  updateAlertsDisplay (set_alerts st kept).

(** [updateMarketOverview(data)] *)
Definition updateMarketOverview (st : state) (data : jsval) : state * outcome :=
  let rendered :=
    stocks_count ← get data "stocks_count" ≫= to_string;
    alerts_count ← get data "alerts_count" ≫= to_string;
    last_update ← get data "last_update" ≫= date_time;
    Some [ Tag "div" "system-info"
             [ info_item "监控股票数" stocks_count;
               info_item "今日告警" alerts_count;
               info_item "最后更新" last_update;
               info_item "数据延迟" "< 1秒" ] ] in
  match rendered with
  | Some html => (set_marketOverview st html, Done)
  | None => (st, Threw)
  end.

End WithHost.
End App.

(** ** app_fixed.js

    The page is taken to contain the elements the methods look up
    ([systemStatus], [alertsContainer], [marketOverview], [stocksContainer]);
    only the symbol input of [addStock] may be missing. *)

Module AppFixed.
Import JS.

Record point : Type := { x : string; y : jsval }.

(** An entry of [this.chartData]: a Chart.js dataset. *)
Record dataset : Type := {
  label : jsval;
  data : list point;
  borderColor : string;
  fill : bool
}.

(** What one handler run reads from the clock and from [Math.random]. *)
Record reading : Type := {
  locale_time : string;
  iso_time : string;
  random_index : nat
}.

(** [symbolInput] is the text of the [stockSymbol] input, [None] when the
    page has no such element; [emitted] and [dialogs] log the calls of
    [socket.emit] and [alert], oldest first. *)
Record state : Type := {
  isConnected : bool;
  isMonitoring : bool;
  stocks : gmap string (gmap string jsval);
  stocksProto : option (gmap string jsval);
  alerts : list jsval;
  chartData : gmap string dataset;
  statusText : string;
  statusClass : string;
  alertsContainer : list markup;
  marketOverview : list markup;
  symbolInput : option string;
  emitted : list (string * jsval);
  dialogs : list string
}.

Definition initial : state :=
  {| isConnected := false; isMonitoring := false; stocks := ∅; stocksProto := None; alerts := [];
     chartData := ∅; statusText := ""; statusClass := "";
     alertsContainer := []; marketOverview := []; symbolInput := Some "";
     emitted := []; dialogs := [] |}.

Definition set_stocks (st : state) (v : gmap string (gmap string jsval)) : state :=
  {| isConnected := isConnected st; isMonitoring := isMonitoring st; stocks := v;
     stocksProto := stocksProto st;
     alerts := alerts st; chartData := chartData st; statusText := statusText st;
     statusClass := statusClass st; alertsContainer := alertsContainer st;
     marketOverview := marketOverview st; symbolInput := symbolInput st;
     emitted := emitted st; dialogs := dialogs st |}.

Definition set_stocksProto (st : state) (v : option (gmap string jsval)) : state :=
  {| isConnected := isConnected st; isMonitoring := isMonitoring st; stocks := stocks st;
     stocksProto := v;
     alerts := alerts st; chartData := chartData st; statusText := statusText st;
     statusClass := statusClass st; alertsContainer := alertsContainer st;
     marketOverview := marketOverview st; symbolInput := symbolInput st;
     emitted := emitted st; dialogs := dialogs st |}.

(** [this.stocks] or its prototype has an own property [__proto__], which
    hides the accessor of [Object.prototype]. *)
Definition shadows_proto (st : state) : bool :=
  match stocks st !! "__proto__", stocksProto st with
  | Some _, _ => true
  | None, Some parent => bool_decide (is_Some (parent !! "__proto__"))
  | None, None => false
  end.

(** [this.stocks[key] = entry]: an own property is written, except that
    the key [__proto__] reaches the inherited setter, which makes [entry]
    the prototype of [this.stocks] and writes no property. *)
Definition store_stock (st : state) (key : string) (entry : gmap string jsval) : state :=
  if String.eqb key "__proto__" && negb (shadows_proto st)
  then set_stocksProto st (Some entry)
  else set_stocks st (<[key := entry]> (stocks st)).

(** [this.stocks[key]] is truthy: an own entry, else a truthy member of
    the prototype entry, else an inherited member. *)
Definition stored (st : state) (key : string) : bool :=
  match stocks st !! key with
  | Some _ => true
  | None =>
      match stocksProto st ≫= (fun parent => parent !! key) with
      | Some v => truthy v
      | None => inherited key
      end
  end.

Definition set_alerts (st : state) (v : list jsval) : state :=
  {| isConnected := isConnected st; isMonitoring := isMonitoring st; stocks := stocks st;
     stocksProto := stocksProto st;
     alerts := v; chartData := chartData st; statusText := statusText st;
     statusClass := statusClass st; alertsContainer := alertsContainer st;
     marketOverview := marketOverview st; symbolInput := symbolInput st;
     emitted := emitted st; dialogs := dialogs st |}.

Definition set_chartData (st : state) (v : gmap string dataset) : state :=
  {| isConnected := isConnected st; isMonitoring := isMonitoring st; stocks := stocks st;
     stocksProto := stocksProto st;
     alerts := alerts st; chartData := v; statusText := statusText st;
     statusClass := statusClass st; alertsContainer := alertsContainer st;
     marketOverview := marketOverview st; symbolInput := symbolInput st;
     emitted := emitted st; dialogs := dialogs st |}.

Definition set_alertsContainer (st : state) (v : list markup) : state :=
  {| isConnected := isConnected st; isMonitoring := isMonitoring st; stocks := stocks st;
     stocksProto := stocksProto st;
     alerts := alerts st; chartData := chartData st; statusText := statusText st;
     statusClass := statusClass st; alertsContainer := v;
     marketOverview := marketOverview st; symbolInput := symbolInput st;
     emitted := emitted st; dialogs := dialogs st |}.

Definition set_marketOverview (st : state) (v : list markup) : state :=
  {| isConnected := isConnected st; isMonitoring := isMonitoring st; stocks := stocks st;
     stocksProto := stocksProto st;
     alerts := alerts st; chartData := chartData st; statusText := statusText st;
     statusClass := statusClass st; alertsContainer := alertsContainer st;
     marketOverview := v; symbolInput := symbolInput st;
     emitted := emitted st; dialogs := dialogs st |}.

(** [alert(text)] *)
Definition show_dialog (st : state) (text : string) : state :=
  {| isConnected := isConnected st; isMonitoring := isMonitoring st; stocks := stocks st;
     stocksProto := stocksProto st;
     alerts := alerts st; chartData := chartData st; statusText := statusText st;
     statusClass := statusClass st; alertsContainer := alertsContainer st;
     marketOverview := marketOverview st; symbolInput := symbolInput st;
     emitted := emitted st; dialogs := dialogs st ++ [text] |}.

(** [this.socket.emit(event, payload)] followed by [symbolInput.value = ''] *)
Definition emit_and_clear (st : state) (event : string) (payload : jsval) : state :=
  {| isConnected := isConnected st; isMonitoring := isMonitoring st; stocks := stocks st;
     stocksProto := stocksProto st;
     alerts := alerts st; chartData := chartData st; statusText := statusText st;
     statusClass := statusClass st; alertsContainer := alertsContainer st;
     marketOverview := marketOverview st; symbolInput := Some "";
     emitted := emitted st ++ [(event, payload)]; dialogs := dialogs st |}.

(** [updateStatus(message, statusClass)] *)
Definition updateStatus (st : state) (message cls : string) : state :=
  {| isConnected := isConnected st; isMonitoring := isMonitoring st; stocks := stocks st;
     stocksProto := stocksProto st;
     alerts := alerts st; chartData := chartData st; statusText := message;
     statusClass := "status " +:+ cls; alertsContainer := alertsContainer st;
     marketOverview := marketOverview st; symbolInput := symbolInput st;
     emitted := emitted st; dialogs := dialogs st |}.

(** [a === b] for two values held in different places: objects and arrays
    are then different references. *)
Definition strict_eq (a b : jsval) : bool :=
  match a, b with
  | JUndefined, JUndefined | JNull, JNull => true
  | JBool p, JBool q => Bool.eqb p q
  | JNum p, JNum q => PrimFloat.eqb p q
  | JStr p, JStr q => String.eqb p q
  | _, _ => false
  end.

(** [a === a] *)
Definition strict_eq_self (a : jsval) : bool :=
  match a with JNum p => PrimFloat.eqb p p | _ => true end.

Definition colors : list string :=
  [ "#4FD1C7"; "#F6AD55"; "#FC8181"; "#68D391";
    "#63B3ED"; "#B794F4"; "#F687B3"; "#81E6D9" ].

(** [getRandomColor()], [r] being [Math.floor(Math.random() * colors.length)] *)
Definition getRandomColor (r : nat) : string :=
  default "" (colors !! (r mod length colors)%nat).

Section WithHost.
Context `{Host}.

(** [loadSystemStatus()]; a rejected request and an exception of the
    handler both reach the [catch] callback. *)
Definition loadSystemStatus (st : state) (response : option jsval) : state :=
  match response ≫= (fun data => get data "status") with
  | None => updateStatus st "系统状态未知" "unknown"
  | Some status =>
      if is_string status "running" then updateStatus st "系统运行中" "running" else st
  end.

(** [formatVolume(volume)]: the small volume is returned as it is. *)
Definition formatVolume (volume : jsval) : option jsval :=
  n ← to_number volume;
  if (1000000 <=? n)%float then Some (JStr (toFixed 1 (n / 1000000)%float +:+ "M"))
  else if (1000 <=? n)%float then Some (JStr (toFixed 1 (n / 1000)%float +:+ "K"))
  else Some volume.

(** [formatMarketCap(marketCap)] *)
Definition formatMarketCap (marketCap : jsval) : option string :=
  n ← to_number marketCap;
  if (1000000000 <=? n)%float then Some ("$" +:+ toFixed 1 (n / 1000000000)%float +:+ "B")
  else if (1000000 <=? n)%float then Some ("$" +:+ toFixed 1 (n / 1000000)%float +:+ "M")
  else s ← to_string marketCap; Some ("$" +:+ s).

Definition stockNames : gmap string string :=
  list_to_map [ ("9988.HK", "阿里巴巴 (港股)"); ("1810.HK", "小米集团");
                ("AAPL", "苹果公司"); ("NVDA", "英伟达"); ("XPEV", "小鹏汽车");
                ("BABA", "阿里巴巴 (美股)"); ("MI", "小米 (美股)");
                ("GOOGL", "谷歌"); ("MSFT", "微软"); ("AMZN", "亚马逊") ].

(** [createStockCard(stock)]; [iso] is [new Date().toISOString()]. *)
Definition createStockCard (iso : string) (stock : gmap string jsval) : option markup :=
  let stockData := or_else (field stock "data") (JObj stock) in
  let read k := default JUndefined (get stockData k) in
  let price := or_else (read "price") (JNum 0) in
  let change := or_else (read "change") (JNum 0) in
  let changePercent :=
    or_else (or_else (read "change_percent") (read "changePercent")) (JNum 0) in
  let high := or_else (read "high") (JNum 0) in
  let low := or_else (read "low") (JNum 0) in
  let volume := or_else (read "volume") (JNum 0) in
  let marketCap := or_else (or_else (read "market_cap") (read "marketCap")) (JNum 0) in
  let lastUpdate :=
    or_else (or_else (field stock "lastUpdate") (field stock "timestamp")) (JStr iso) in
  let symbol := field stock "symbol" in
  let inner := field stock "data" in
  let named :=
    if truthy inner
    then or_else (default JUndefined (get inner "name"))
                 (default JUndefined (get inner "company"))
    else JUndefined in
  let is_symbol := if truthy named then strict_eq named symbol else strict_eq_self symbol in
  let stockName := if truthy named then named else symbol in
  symbol_s ← to_string symbol;
  name_s ← (if is_symbol
            then match name_text stockNames symbol_s with
                 | Some n => Some n
                 | None => to_string stockName
                 end
            else to_string stockName);
  c ← to_number change;
  let changeClass := if (0 <=? c)%float then "positive" else "negative" in
  let changeSign := if (0 <=? c)%float then "+" else "" in
  change_s ← call_toFixed 2 change;
  percent_s ← call_toFixed 2 changePercent;
  price_s ← fixed_or_na price;
  high_s ← fixed_or_na high;
  low_s ← fixed_or_na low;
  volume_s ← formatVolume volume ≫= to_string;
  cap_s ← formatMarketCap marketCap;
  updated ← date_time lastUpdate;
  Some (Tag "div" "stock-card"
    [ Tag "div" "stock-header"
        [ Tag "div" "" [ Tag "div" "stock-symbol" [Raw symbol_s];
                         Tag "div" "stock-name" [Raw name_s] ];
          Tag "div" ("stock-change " +:+ changeClass)
            [Raw (changeSign +:+ change_s +:+ " (" +:+ changeSign +:+ percent_s +:+ "%)")] ];
      Tag "div" "stock-price" [Raw ("$" +:+ price_s)];
      Tag "div" "stock-info"
        [ Tag "div" "" [ Tag "div" "" [Raw ("最高: $" +:+ high_s)];
                         Tag "div" "" [Raw ("最低: $" +:+ low_s)] ];
          Tag "div" "" [ Tag "div" "" [Raw ("成交量: " +:+ volume_s)];
                         Tag "div" "" [Raw ("市值: " +:+ cap_s)] ] ];
      Tag "div" "stock-update" [ Tag "div" "" [Raw ("更新时间: " +:+ updated)] ] ]).

(** [updateStockDisplay()]: whether every card renders; the layout order
    of the cards is not kept. *)
Definition updateStockDisplay (st : state) (iso : string) : outcome :=
  if decide (map_Forall (fun _ stock => is_Some (createStockCard iso stock)) (stocks st))
  then Done else Threw.

(** [updateChartData(symbol, stockData)]; the redraw of [updateChart()]
    touches the Chart.js object only.  For a symbol that names an inherited
    member, [this.chartData[symbol]] is that member: no dataset is created,
    and [.data.push] is a call on [undefined]. *)
Definition updateChartData (st : state) (symbol stockData : jsval) (env : reading)
  : state * outcome :=
  match get stockData "price" with
  | None => (st, Threw)
  | Some price =>
      if negb (truthy price) then (st, Done) else
      match to_string symbol with
      | None => (st, Threw)
      | Some key =>
          if finds_inherited (chartData st) key then (st, Threw) else
          let entry :=
            default {| label := symbol; data := [];
                       borderColor := getRandomColor (random_index env);
                       fill := false |}
                    (chartData st !! key) in
          let pushed := data entry ++ [{| x := locale_time env; y := price |}] in
          let kept := if (20 <? length pushed)%nat then tail pushed else pushed in
          let entry := {| label := label entry; data := kept;
                          borderColor := borderColor entry; fill := fill entry |} in
          (set_chartData st (<[key := entry]> (chartData st)), Done)
      end
  end.

(** [handleStockUpdate(data)] *)
Definition handleStockUpdate (st : state) (msg : jsval) (env : reading)
  : state * outcome :=
  match get msg "symbol", get msg "data", get msg "timestamp" with
  | Some symbol, Some stockData, Some timestamp =>
      match to_string symbol with
      | None => (st, Threw)
      | Some key =>
          let entry :=
            <["lastUpdate" := timestamp]> (<["symbol" := symbol]> (spread stockData)) in
          let st := store_stock st key entry in
          match updateStockDisplay st (iso_time env) with
          | Threw => (st, Threw)
          | Done => updateChartData st symbol stockData env
          end
      end
  | _, _, _ => (st, Threw)
  end.

(** One alert of [updateAlertsDisplay]. *)
Definition alert_item (alert : jsval) : option markup :=
  symbol ← get alert "symbol" ≫= to_string;
  message ← get alert "message" ≫= to_string;
  time ← get alert "timestamp" ≫= date_time;
  Some (Tag "div" "alert"
    [ Tag "div" "alert-symbol" [Raw symbol];
      Tag "div" "alert-message" [Raw message];
      Tag "div" "alert-time" [Raw time] ]).

(** [updateAlertsDisplay()] *)
Definition updateAlertsDisplay (st : state) : state * outcome :=
  match mapM alert_item (alerts st) with
  | Some items => (set_alertsContainer st items, Done)
  | None => (st, Threw)
  end.

(** [handleAlert(data)]; the desktop notification is not part of the
    model. *)
Definition handleAlert (st : state) (alert : jsval) : state * outcome :=
  updateAlertsDisplay (set_alerts st (alerts st ++ [alert])).

(** [clearAlerts()] *)
Definition clearAlerts (st : state) : state * outcome :=
  updateAlertsDisplay (set_alerts st []).

(** [updateMarketOverview(data)] *)
Definition updateMarketOverview (st : state) (summary : jsval) : state * outcome :=
  let rendered :=
    total_stocks ← get summary "total_stocks";
    total_value ← get summary "total_value";
    average_change ← get summary "average_change";
    active_clients ← get summary "active_clients";
    stocks_s ← to_string (or_else total_stocks (JNum 0));
    value_s ← call_toFixed 2 (or_else total_value (JNum 0));
    change_s ← call_toFixed 2 (or_else average_change (JNum 0));
    clients_s ← to_string (or_else active_clients (JNum 0));
    Some [ Tag "div" "" [Raw ("监控股票: " +:+ stocks_s)];
           Tag "div" "" [Raw ("总市值: $" +:+ value_s)];
           Tag "div" "" [Raw ("平均涨跌: " +:+ change_s +:+ "%")];
           Tag "div" "" [Raw ("活跃连接: " +:+ clients_s)] ] in
  match rendered with
  | Some html => (set_marketOverview st html, Done)
  | None => (st, Threw)
  end.

(** [symbolInput?.value.trim().toUpperCase()] *)
Definition entered_symbol (st : state) : option string :=
  (fun text => toUpperCase (trim text)) <$> symbolInput st.

(** [addStock()] *)
Definition addStock (st : state) : state :=
  match entered_symbol st with
  | None => show_dialog st "请输入股票代码"
  | Some symbol =>
      if String.eqb symbol "" then show_dialog st "请输入股票代码"
      else if stored st symbol
      then show_dialog st ("股票 " +:+ symbol +:+ " 已在监控列表中")
      else emit_and_clear st "subscribe_stock" (JObj {["symbol" := JStr symbol]})
  end.

End WithHost.
End AppFixed.

(** ** Runs of handler calls *)

Module Runs.
Import JS.

(** One call [updateChartData(symbol, stockData)] of app.js with the clock
    label read during the call. *)
Record chart_call : Type := {
  call_symbol : jsval;
  call_data : jsval;
  call_now : string
}.

(** One call [updateChartData(symbol, stockData)] of app_fixed.js. *)
Record fixed_call : Type := {
  fixed_symbol : jsval;
  fixed_data : jsval;
  fixed_env : AppFixed.reading
}.

Definition app_charts (st : App.state) (calls : list chart_call) : App.state :=
  foldl (fun st c => (App.updateChartData st (call_symbol c) (call_data c) (call_now c)).1)
        st calls.

Definition fixed_charts (st : AppFixed.state) (calls : list fixed_call) : AppFixed.state :=
  foldl (fun st c =>
           (AppFixed.updateChartData st (fixed_symbol c) (fixed_data c) (fixed_env c)).1)
        st calls.

(** The point a call of app.js pushes on the arrays of [key], if any: none
    for a symbol that names an inherited member, where an instance run from
    its construction has no entry and the call stops before the push. *)
Definition app_pushed (key : string) (c : chart_call) : option (jsval * jsval * string) :=
  k ← to_string (call_symbol c);
  price ← get (call_data c) "price";
  volume ← get (call_data c) "volume";
  if String.eqb k key && negb (inherited k)
  then Some (or_else price (JNum 0), or_else volume (JNum 0), call_now c)
  else None.

(** The point a call of app_fixed.js pushes on the dataset of [key], if
    any: none for a symbol that names an inherited member. *)
Definition fixed_pushed (key : string) (c : fixed_call) : option AppFixed.point :=
  price ← get (fixed_data c) "price";
  if truthy price then
    k ← to_string (fixed_symbol c);
    if String.eqb k key && negb (inherited k)
    then Some {| AppFixed.x := AppFixed.locale_time (fixed_env c); AppFixed.y := price |}
    else None
  else None.

(** The arrays of [key] in app.js, empty before the entry exists. *)
Definition app_buffer (st : App.state) (key : string) : App.series :=
  default App.empty_series (App.chartData st !! key).

(** The points of [key] in app_fixed.js, none before the entry exists. *)
Definition fixed_buffer (st : AppFixed.state) (key : string) : list AppFixed.point :=
  from_option AppFixed.data [] (AppFixed.chartData st !! key).

Section WithHost.
Context `{Host}.

Definition app_alerts (st : App.state) (events : list jsval) : App.state :=
  foldl (fun st a => (App.handleAlert st a).1) st events.

Definition fixed_alerts (st : AppFixed.state) (events : list jsval) : AppFixed.state :=
  foldl (fun st a => (AppFixed.handleAlert st a).1) st events.

End WithHost.

(** The user types [text] into the symbol input. *)
Definition type_symbol (st : AppFixed.state) (text : string) : AppFixed.state :=
  {| AppFixed.isConnected := AppFixed.isConnected st;
     AppFixed.isMonitoring := AppFixed.isMonitoring st;
     AppFixed.stocks := AppFixed.stocks st;
     AppFixed.stocksProto := AppFixed.stocksProto st;
     AppFixed.alerts := AppFixed.alerts st;
     AppFixed.chartData := AppFixed.chartData st;
     AppFixed.statusText := AppFixed.statusText st;
     AppFixed.statusClass := AppFixed.statusClass st;
     AppFixed.alertsContainer := AppFixed.alertsContainer st;
     AppFixed.marketOverview := AppFixed.marketOverview st;
     AppFixed.symbolInput := Some text;
     AppFixed.emitted := AppFixed.emitted st;
     AppFixed.dialogs := AppFixed.dialogs st |}.

End Runs.

(** ** The feeds of the engine *)

Module Feed.
Import JS.

(** Modelled from the spec: the members of a message of the
    instrument-update feed (section 6); the engine that emits it is not
    among the sources. *)
Definition instrument_update_fields : list string :=
  ["symbol"; "tier"; "sample"; "indicatorSnapshot"; "timestamp"].

(** Modelled from the spec: the members of an event of the alert feed, the
    AlertEvent structure (sections 3 and 6). *)
Definition alert_event_fields : list string :=
  ["symbol"; "type"; "severity"; "message"; "data"; "timestamp"].

(** Modelled from the spec: the members of the answer to the status query
    (section 6). *)
Definition status_fields : list string :=
  ["running"; "symbolCount"; "activeAlertCount"; "lastUpdate"].

(** Modelled from the spec: the members of the market summary (section 6). *)
Definition market_summary_fields : list string :=
  ["totalSymbols"; "totalAlertsToday"; "averageChange"; "lastUpdate"].

(** [v] is an object with exactly the fields [names]. *)
Definition carries (names : list string) (v : jsval) : Prop :=
  exists o : gmap string jsval, v = JObj o /\ dom o = list_to_set names.

(** A status object: the fields of [status_fields], [running] a boolean. *)
Definition is_status (v : jsval) : Prop :=
  carries status_fields v /\ exists b, get v "running" = Some (JBool b).

(** Two values agree on the members [names]. *)
Definition agree (names : list string) (a b : jsval) : Prop :=
  Forall (fun k => get a k = get b k) names.

End Feed.

(** ** A host for ASCII text *)

Module AsciiHost.
Import JS.

Definition is_space (c : ascii) : bool :=
  let n := nat_of_ascii c in
  ((9 <=? n) && (n <=? 13) || (n =? 32))%nat.

Fixpoint trim_start (s : string) : string :=
  match s with
  | String c s' => if is_space c then trim_start s' else s
  | EmptyString => EmptyString
  end.

Definition reverse (s : string) : string :=
  String.string_of_list_ascii (rev (String.list_ascii_of_string s)).

Definition trim_ascii (s : string) : string :=
  reverse (trim_start (reverse (trim_start s))).

Definition upper (c : ascii) : ascii :=
  let n := nat_of_ascii c in
  if ((97 <=? n) && (n <=? 122))%nat then ascii_of_nat (n - 32) else c.

Fixpoint upper_ascii (s : string) : string :=
  match s with
  | String c s' => String (upper c) (upper_ascii s')
  | EmptyString => EmptyString
  end.

Definition digit_value (c : ascii) : option Z :=
  let n := Z.of_nat (nat_of_ascii c) in
  if (48 <=? n) && (n <=? 57) then Some (n - 48) else None.

Definition hex_value (c : ascii) : option Z :=
  let n := Z.of_nat (nat_of_ascii c) in
  if (48 <=? n) && (n <=? 57) then Some (n - 48)
  else if (97 <=? n) && (n <=? 102) then Some (n - 87)
  else if (65 <=? n) && (n <=? 70) then Some (n - 55)
  else None.

(** Reads the digits in [base] at the head of [s]: the number they add to
    [acc], how many were read, and the rest of the text. *)
Fixpoint read_run (value : ascii -> option Z) (base acc count : Z) (s : string)
  : Z * Z * string :=
  match s with
  | String c s' =>
      match value c with
      | Some d =>
          if d <? base then read_run value base (base * acc + d) (count + 1) s'
          else (acc, count, s)
      | None => (acc, count, s)
      end
  | EmptyString => (acc, count, s)
  end.

(** The double nearest to [n / d], ties to even, for [0 < n] and [0 < d]. *)
Definition ratio_to_double (negative : bool) (n d : Z) : float :=
  let l0 := Z.log2 n - Z.log2 d in
  let reaches := if 0 <=? l0 then d * 2 ^ l0 <=? n else d <=? n * 2 ^ (- l0) in
  let l := if reaches then l0 else l0 - 1 in
  let e := Z.max (l - 52) (-1074) in
  let num := if 0 <=? e then n else n * 2 ^ (- e) in
  let den := if 0 <=? e then d * 2 ^ e else d in
  let q := num / den in
  let r := num mod den in
  let q := if (den <? 2 * r) || ((den =? 2 * r) && Z.odd q) then q + 1 else q in
  if q =? 0 then (if negative then (-0)%float else 0%float)
  else if (971 <? e) || ((e =? 971) && (q =? 2 ^ 53))
  then (if negative then neg_infinity else infinity)
  else SF2Prim (S754_finite negative (Z.to_pos q) e).

(** The double nearest to [m * 10 ^ e]. *)
Definition decimal_to_double (negative : bool) (m e : Z) : float :=
  if m =? 0 then (if negative then (-0)%float else 0%float)
  else if 400 <? e then (if negative then neg_infinity else infinity)
  else if e + (Z.log2 m + 1) / 3 + 1 <? -330
  then (if negative then (-0)%float else 0%float)
  else if 0 <=? e then ratio_to_double negative (m * 10 ^ e) 1
  else ratio_to_double negative m (10 ^ (- e)).

(** A decimal literal without sign: digits with an optional point and an
    optional exponent, as mantissa and decimal exponent. *)
Definition read_decimal (s : string) : option (Z * Z) :=
  let '(whole, n_whole, rest) := read_run digit_value 10 0 0 s in
  let '(m, n_frac, rest) :=
    match rest with
    | String "."%char rest' => read_run digit_value 10 whole 0 rest'
    | _ => (whole, 0, rest)
    end in
  if n_whole + n_frac =? 0 then None else
  match rest with
  | EmptyString => Some (m, - n_frac)
  | String c rest' =>
      if Ascii.eqb c "e"%char || Ascii.eqb c "E"%char then
        let '(minus, rest'') :=
          match rest' with
          | String "-"%char r => (true, r)
          | String "+"%char r => (false, r)
          | _ => (false, rest')
          end in
        let '(ex, n_ex, tail) := read_run digit_value 10 0 0 rest'' in
        if (n_ex =? 0) || negb (String.eqb tail "") then None
        else Some (m, (if minus then - ex else ex) - n_frac)
      else None
  end.

(** An integer literal in [base] after its prefix. *)
Definition read_integer (value : ascii -> option Z) (base : Z) (s : string) : float :=
  let '(n, count, rest) := read_run value base 0 0 s in
  if (count =? 0) || negb (String.eqb rest "") then nan
  else if n =? 0 then 0%float
  else ratio_to_double false n 1.

Definition signed_decimal (negative : bool) (s : string) : float :=
  if String.eqb s "Infinity" then (if negative then neg_infinity else infinity)
  else match read_decimal s with
       | Some (m, e) => decimal_to_double negative m e
       | None => nan
       end.

(** StringToNumber on ASCII text: white space is trimmed, the empty text
    is 0, and the text must be one numeric literal, decimal with an
    optional sign, or hexadecimal, octal or binary with its prefix. *)
Definition read_number (s : string) : float :=
  match trim_ascii s with
  | EmptyString => 0%float
  | String "-"%char r => signed_decimal true r
  | String "+"%char r => signed_decimal false r
  | String "0"%char (String "x"%char r) | String "0"%char (String "X"%char r) =>
      read_integer hex_value 16 r
  | String "0"%char (String "o"%char r) | String "0"%char (String "O"%char r) =>
      read_integer digit_value 8 r
  | String "0"%char (String "b"%char r) | String "0"%char (String "B"%char r) =>
      read_integer digit_value 2 r
  | t => signed_decimal false t
  end.

Definition is_digit (c : ascii) : bool :=
  let n := nat_of_ascii c in ((48 <=? n) && (n <=? 57))%nat.

Definition two_digits (n : Z) : string :=
  (if n <? 10 then "0" else "") +:+ digits n.

(** The time of day, in UTC, of [ms] milliseconds since the epoch. *)
Definition clock (ms : Z) : string :=
  let secs := (ms / 1000) mod 86400 in
  two_digits (secs / 3600) +:+ ":" +:+ two_digits (secs / 60 mod 60) +:+ ":"
  +:+ two_digits (secs mod 60).

(** The integer part of a double within the range of time values. *)
Definition time_value (x : float) : option Z :=
  match Prim2SF x with
  | S754_zero _ => Some 0
  | S754_finite sign m e =>
      let magnitude := if 0 <=? e then Z.pos m * 2 ^ e else Z.pos m / 2 ^ (- e) in
      if magnitude <=? 8640000000000000
      then Some (if sign then - magnitude else magnitude)
      else None
  | _ => None
  end.

(** Exactly [count] digits at the head of [s]. *)
Definition read_field (count : Z) (s : string) : option (Z * string) :=
  let '(n, read, rest) := read_run digit_value 10 0 0 (String.substring 0 (Z.to_nat count) s) in
  if (read =? count) && String.eqb rest ""
  then Some (n, String.substring (Z.to_nat count) (String.length s) s)
  else None.

Definition expect (c : ascii) (s : string) : option string :=
  match s with
  | String d rest => if Ascii.eqb c d then Some rest else None
  | EmptyString => None
  end.

Definition days_in_month (year month : Z) : Z :=
  if month =? 2 then
    (if ((year mod 4 =? 0) && negb (year mod 100 =? 0)) || (year mod 400 =? 0)
     then 29 else 28)
  else if (month =? 4) || (month =? 6) || (month =? 9) || (month =? 11) then 30
  else 31.

(** The offset at the end of a date-time, in seconds east of UTC: absent,
    [Z], or a sign with hours and minutes. *)
Definition read_offset (s : string) : option Z :=
  match s with
  | EmptyString => Some 0
  | String "Z"%char EmptyString => Some 0
  | String c rest =>
      if Ascii.eqb c "+"%char || Ascii.eqb c "-"%char then
        '(hh, rest) ← read_field 2 rest;
        rest ← expect ":"%char rest;
        '(mm, rest) ← read_field 2 rest;
        if String.eqb rest "" && (hh <=? 23) && (mm <=? 59)
        then Some ((if Ascii.eqb c "-"%char then -1 else 1) * (hh * 3600 + mm * 60))
        else None
      else None
  end.

(** The seconds of the day, in UTC, that a date-time string of the
    ECMAScript format names: a date [YYYY-MM-DD], alone or followed by [T],
    a time [HH:mm] with optional seconds and fraction, and an optional
    offset. *)
Definition read_date_time (s : string) : option Z :=
  '(year, rest) ← read_field 4 s;
  rest ← expect "-"%char rest;
  '(month, rest) ← read_field 2 rest;
  rest ← expect "-"%char rest;
  '(day, rest) ← read_field 2 rest;
  if negb ((1 <=? month) && (month <=? 12) && (1 <=? day)
           && (day <=? days_in_month year month)) then None else
  match rest with
  | EmptyString => Some 0
  | _ =>
      rest ← expect "T"%char rest;
      '(hh, rest) ← read_field 2 rest;
      rest ← expect ":"%char rest;
      '(mm, rest) ← read_field 2 rest;
      let '(ss, rest) :=
        match expect ":"%char rest ≫= read_field 2 with
        | Some (ss, rest') =>
            match expect "."%char rest' with
            | Some fraction =>
                let '(_, read, rest'') := read_run digit_value 10 0 0 fraction in
                if 0 <? read then (ss, rest'') else (ss, rest')
            | None => (ss, rest')
            end
        | None => (0, rest)
        end in
      offset ← read_offset rest;
      if (hh <=? 23) && (mm <=? 59) && (ss <=? 59)
      then Some ((hh * 3600 + mm * 60 + ss - offset) mod 86400)
      else if (hh =? 24) && (mm =? 0) && (ss =? 0) then Some ((- offset) mod 86400)
      else None
  end.

(** [new Date(p).toLocaleTimeString()] in a browser set to UTC and a
    24-hour clock: a number is a time value, a string is read when it is a
    date-time string of the ECMAScript format, and anything else is no
    date (a browser may read further forms of text, which the examples do
    not use). *)
Definition show_time (v : jsval) : string :=
  match v with
  | JStr s => from_option (fun secs => clock (secs * 1000)) "Invalid Date"
                          (read_date_time s)
  | JNum x => from_option clock "Invalid Date" (time_value x)
  | JNull | JBool false => clock 0
  | JBool true => clock 1
  | _ => "Invalid Date"
  end.

Definition host : Host :=
  {| string_to_number := read_number;
     toLocaleTimeString := show_time;
     trim := trim_ascii;
     toUpperCase := upper_ascii;
     function_text := fun name => "function " +:+ name +:+ "() { [native code] }" |}.

End AsciiHost.

(** ** The Series Store of the engine

    The engine of the specification is not among the sources; its Series
    Store is written down from sections 3 and 4.2. *)

Module SeriesStore.

(** Modelled from the spec: the monitoring cadences of the glossary. *)
Inductive tier : Type := Realtime | Minute | Hour | Day.

Definition tier_index (t : tier) : nat :=
  match t with Realtime => 0 | Minute => 1 | Hour => 2 | Day => 3 end.

Definition tier_of_index (n : nat) : option tier :=
  match n with
  | 0%nat => Some Realtime | 1%nat => Some Minute
  | 2%nat => Some Hour | 3%nat => Some Day
  | _ => None
  end.

#[global] Instance tier_eq_dec : EqDecision tier.
Proof. solve_decision. Defined.

#[global] Instance tier_countable : Countable tier.
Proof.
  apply (inj_countable tier_index tier_of_index).
  intros []; reflexivity.
Defined.

(** Modelled from the spec: a Sample of section 3, one observation of an
    instrument. *)
Record sample : Type := {
  symbol : string;
  timestamp : Z;
  price : float;
  volume : float;
  high : option float;
  low : option float;
  marketCap : option float
}.

(** Modelled from the spec: the result of [append]. *)
Inductive AppendResult : Type := Accepted | Stale.

Section Store.

(** The Indicator Engine: the snapshot type, the snapshot of an empty
    series, and the recomputation from the current series and the previous
    snapshot. *)
Variable snapshot : Type.
Variable no_indicators : snapshot.
Variable recompute : list sample -> snapshot -> snapshot.

(** The configured capacity of the series of a tier. *)
Variable capacity : tier -> nat.

(** A series, oldest sample first, with the snapshot attached to it. *)
Record entry : Type := {
  series : list sample;
  indicators : snapshot
}.

(** A message of the instrument-update feed. *)
Record instrument_update : Type := {
  update_symbol : string;
  update_tier : tier;
  update_sample : sample;
  update_indicators : snapshot;
  update_timestamp : Z
}.

Definition empty_entry : entry := {| series := []; indicators := no_indicators |}.

Definition is_stale (e : entry) (s : sample) : bool :=
  match last (series e) with
  | Some newest => timestamp s <=? timestamp newest
  | None => false
  end.

(** Modelled from the spec: [append(symbol, tier, sample)] of section 4.2,
    which is not among the sources.  A sample no newer than the last one of
    the series is rejected with [Stale]; an accepted one is pushed, the
    oldest sample is evicted when the series is over capacity, the snapshot
    is recomputed, and one instrument update is published. *)
Definition append (store : gmap (string * tier) entry) (sym : string) (t : tier)
    (s : sample) : AppendResult * gmap (string * tier) entry * list instrument_update :=
  let e := default empty_entry (store !! (sym, t)) in
  if is_stale e s then (Stale, store, [])
  else
    let pushed := series e ++ [s] in
    let kept := if (capacity t <? length pushed)%nat then tail pushed else pushed in
    let e' := {| series := kept; indicators := recompute kept (indicators e) |} in
    (Accepted, <[(sym, t) := e']> store,
     [{| update_symbol := sym; update_tier := t; update_sample := s;
         update_indicators := indicators e'; update_timestamp := timestamp s |}]).

End Store.

(** An instance of the Indicator Engine for examples: the sum of the
    volumes of the series. *)
Definition volume_sum (l : list sample) (previous : float) : float :=
  foldr (fun s acc => (volume s + acc)%float) 0%float l.

End SeriesStore.

(** ** Statements about runs *)

Module Statements.
Import JS.

(** The three arrays of an entry have one length, at most 20. *)
Definition aligned (s : App.series) : Prop :=
  length (App.volumes s) = length (App.prices s) /\
  length (App.timestamps s) = length (App.prices s) /\
  (length (App.prices s) <= 20)%nat.

(** The entry after a point has been pushed on it. *)
Definition app_push (s : App.series) (pt : jsval * jsval * string) : App.series :=
  {| App.prices := lastn 20 (App.prices s ++ [pt.1.1]);
     App.volumes := lastn 20 (App.volumes s ++ [pt.1.2]);
     App.timestamps := lastn 20 (App.timestamps s ++ [pt.2]) |}.

(** The arrays of an entry are the last 20 of the pushed points. *)
Definition holds_recent (s : App.series) (pts : list (jsval * jsval * string)) : Prop :=
  App.prices s = lastn 20 ((fun pt => pt.1.1) <$> pts) /\
  App.volumes s = lastn 20 ((fun pt => pt.1.2) <$> pts) /\
  App.timestamps s = lastn 20 (snd <$> pts).

(** The points pushed for [key] by a sequence of calls, oldest first. *)
Definition app_points (key : string) (calls : list Runs.chart_call)
  : list (jsval * jsval * string) :=
  omap (Runs.app_pushed key) calls.

(** The points pushed for [key] by a sequence of calls of app_fixed.js. *)
Definition fixed_points (key : string) (calls : list Runs.fixed_call)
  : list AppFixed.point :=
  omap (Runs.fixed_pushed key) calls.

(** The request [addStock] emits for [symbol]. *)
Definition subscription (symbol : string) : string * jsval :=
  ("subscribe_stock", JObj {[ "symbol" := JStr symbol ]}).

Section WithHost.
Context `{Host}.

(** [addStock] finds a symbol to subscribe: the entered text, trimmed and
    upper-cased, is not empty, and [this.stocks[symbol]] is falsy: the
    symbol is not a key of [this.stocks] and no truthy member is found
    under it along the prototype chain. *)
Definition subscribes (st : AppFixed.state) (symbol : string) : Prop :=
  AppFixed.entered_symbol st = Some symbol /\
  symbol <> "" /\
  AppFixed.stocks st !! symbol = None /\
  AppFixed.stored st symbol = false.

End WithHost.

End Statements.

(** ** Inputs of the examples *)

Module Examples.
Import JS.

(** The call of [updateChartData] for the [n]-th quote of AAPL. *)
Definition quote_call (n : nat) : Runs.chart_call :=
  {| Runs.call_symbol := JStr "AAPL";
     Runs.call_data := JObj {[ "price" := JNum (of_nat n) ]};
     Runs.call_now := index_key n |}.

(** The same call in app_fixed.js. *)
Definition fixed_quote_call (n : nat) : Runs.fixed_call :=
  {| Runs.fixed_symbol := JStr "AAPL";
     Runs.fixed_data := JObj {[ "price" := JNum (of_nat (S n)) ]};
     Runs.fixed_env :=
       {| AppFixed.locale_time := index_key n;
          AppFixed.iso_time := index_key n;
          AppFixed.random_index := n |} |}.

(** Two samples of AAPL with one timestamp. *)
Definition first_tick : SeriesStore.sample :=
  {| SeriesStore.symbol := "AAPL"; SeriesStore.timestamp := 1000;
     SeriesStore.price := 100; SeriesStore.volume := 500;
     SeriesStore.high := None; SeriesStore.low := None;
     SeriesStore.marketCap := None |}.

Definition repeated_tick : SeriesStore.sample :=
  {| SeriesStore.symbol := "AAPL"; SeriesStore.timestamp := 1000;
     SeriesStore.price := 106; SeriesStore.volume := 900;
     SeriesStore.high := None; SeriesStore.low := None;
     SeriesStore.marketCap := None |}.

(** The store after [first_tick] has been accepted. *)
Definition one_tick_store : gmap (string * SeriesStore.tier) (SeriesStore.entry float) :=
  (SeriesStore.append float 0%float SeriesStore.volume_sum (fun _ => 20%nat)
     ∅ "AAPL" SeriesStore.Realtime first_tick).1.2.

(** A stock_update message as the scripts expect it, with an extra member. *)
Definition quote_update (extra : jsval) : jsval :=
  JObj (list_to_map
    [ ("symbol", JStr "AAPL");
      ("data", JObj (list_to_map [("price", JNum 189.5); ("volume", JNum 1234567)]));
      ("timestamp", JStr "2026-01-05T10:00:00Z");
      ("tier", extra) ]).

(** An instrument update with the members of section 6. *)
Definition engine_update (tier : string) (price : float) : jsval :=
  JObj (list_to_map
    [ ("symbol", JStr "AAPL");
      ("tier", JStr tier);
      ("sample", JObj (list_to_map [("price", JNum price); ("volume", JNum 1234567)]));
      ("indicatorSnapshot", JObj (list_to_map [("sma20", JNum price)]));
      ("timestamp", JStr "2026-01-05T10:00:00Z") ]).

(** The clock and the random draw of the example runs. *)
Definition ten_o_clock : AppFixed.reading :=
  {| AppFixed.locale_time := "10:00:01";
     AppFixed.iso_time := "2026-01-05T10:00:01.000Z";
     AppFixed.random_index := 3 |}.

(** An alert event with the fields of the AlertEvent structure. *)
Definition price_alert (severity : string) (change : float) : jsval :=
  JObj (list_to_map
    [ ("symbol", JStr "AAPL");
      ("type", JStr "price_abnormal");
      ("severity", JStr severity);
      ("message", JStr "AAPL moved 6%");
      ("data", JObj (list_to_map [("price_change", JNum change)]));
      ("timestamp", JStr "2026-01-05T10:00:00Z") ]).

(** A status object with the members of section 6. *)
Definition engine_status (running : bool) : jsval :=
  JObj (list_to_map
    [ ("running", JBool running);
      ("symbolCount", JNum 6);
      ("activeAlertCount", JNum 2);
      ("lastUpdate", JStr "2026-01-05T10:00:00Z") ]).

(** The body of [/api/status] as the scripts expect it. *)
Definition server_status (status : string) (running : jsval) : jsval :=
  JObj (list_to_map
    [ ("status", JStr status);
      ("monitored_symbols", JArr [JStr "AAPL"; JStr "NVDA"]);
      ("active_alerts", JNum 2);
      ("server_time", JStr "2026-01-05T10:00:00Z");
      ("running", running) ]).

(** A market summary with the members of section 6. *)
Definition engine_summary (symbols alerts : float) (change : float) : jsval :=
  JObj (list_to_map
    [ ("totalSymbols", JNum symbols);
      ("totalAlertsToday", JNum alerts);
      ("averageChange", JNum change);
      ("lastUpdate", JStr "2026-01-05T10:00:00Z") ]).

(** A market summary as the scripts expect it. *)
Definition server_summary (extra : jsval) : jsval :=
  JObj (list_to_map
    [ ("stocks_count", JNum 6); ("alerts_count", JNum 2);
      ("last_update", JStr "2026-01-05T10:00:00Z");
      ("total_stocks", JNum 6); ("total_value", JNum 1234.5);
      ("average_change", JNum 0.75); ("active_clients", JNum 3);
      ("totalSymbols", extra) ]).

(** A stock_update message for [symbol] with the quote [quote]. *)
Definition quote_for (symbol : string) (quote : list (string * jsval)) : jsval :=
  JObj (list_to_map
    [ ("symbol", JStr symbol);
      ("data", JObj (list_to_map quote));
      ("timestamp", JStr "2026-01-05T10:00:00Z") ]).

(** The answer of [/api/start-monitoring] that app.js waits for. *)
Definition started_reply : jsval :=
  JObj (list_to_map
    [ ("status", JStr "started"); ("message", JStr "monitoring 2 symbols") ]).

End Examples.

(** ** The controls and the socket events of app.js *)

Module AppSession.
Import JS.

(** The instance together with what it sends: [emitted] logs the calls of
    [socket.emit], [requests] the POST requests of [fetch] with their JSON
    body, [dialogs] the texts of [alert], each oldest first. *)
Record session : Type := {
  app : App.state;
  emitted : list (string * jsval);
  requests : list (string * jsval);
  dialogs : list string
}.

Definition opened : session :=
  {| app := App.initial; emitted := []; requests := []; dialogs := [] |}.

Definition with_app (ses : session) (st : App.state) : session :=
  {| app := st; emitted := emitted ses; requests := requests ses;
     dialogs := dialogs ses |}.

(** [alert(text)] *)
Definition show_dialog (ses : session) (text : string) : session :=
  {| app := app ses; emitted := emitted ses; requests := requests ses;
     dialogs := dialogs ses ++ [text] |}.

(** [fetch(url, { method: 'POST', body })] *)
Definition post (ses : session) (url : string) (body : jsval) : session :=
  {| app := app ses; emitted := emitted ses;
     requests := requests ses ++ [(url, body)]; dialogs := dialogs ses |}.

(** [this.socket.emit('subscribe_stock', { symbol })] for each symbol. *)
Definition subscribe_each (ses : session) (symbols : list string) : session :=
  {| app := app ses;
     emitted := emitted ses
       ++ ((fun symbol => ("subscribe_stock", JObj {[ "symbol" := JStr symbol ]}))
             <$> symbols);
     requests := requests ses; dialogs := dialogs ses |}.

Definition set_isConnected (st : App.state) (v : bool) : App.state :=
  {| App.isConnected := v; App.isMonitoring := App.isMonitoring st;
     App.stocks := App.stocks st; App.stocksProto := App.stocksProto st; App.alerts := App.alerts st;
     App.chartData := App.chartData st; App.chartSymbol := App.chartSymbol st;
     App.statusText := App.statusText st; App.statusType := App.statusType st;
     App.systemInfo := App.systemInfo st;
     App.alertsContainer := App.alertsContainer st;
     App.marketOverview := App.marketOverview st |}.

(** The handler of the socket's [connect] event. *)
Definition onConnect (st : App.state) : App.state :=
  App.updateStatus (set_isConnected st true) "已连接" "connected".

(** The handler of the socket's [disconnect] event. *)
Definition onDisconnect (st : App.state) : App.state :=
  App.updateStatus (set_isConnected st false) "连接断开" "disconnected".

(** [text.split(',')] *)
Fixpoint split_comma (text : string) : list string :=
  match text with
  | EmptyString => [EmptyString]
  | String c rest =>
      if Ascii.eqb c ","%char then EmptyString :: split_comma rest
      else match split_comma rest with
           | piece :: pieces => String c piece :: pieces
           | [] => [String c EmptyString]
           end
  end.

Section WithHost.
Context `{Host}.

(** [value.split(',').map(s => s.trim()).filter(s => s.length > 0)] *)
Definition entered_symbols (text : string) : list string :=
  filter (fun s => (0 < String.length s)%nat) (trim <$> split_comma text).

(** [startMonitoring()]; [text] is the value of the symbol input and
    [reply] the body of the answer, [None] when the request or its decoding
    is rejected.  The loading notice written to the stock container is not
    kept. *)
Definition startMonitoring (ses : session) (text : string) (reply : option jsval)
  : session :=
  let symbols := entered_symbols text in
  match symbols with
  | [] => show_dialog ses "请输入至少一个股票代码"
  | _ =>
      let ses :=
        post ses "/api/start-monitoring" (JObj {[ "symbols" := JArr (JStr <$> symbols) ]}) in
      let failed ses := show_dialog ses "启动监控失败，请检查服务器连接" in
      match reply ≫= (fun data => get data "status") with
      | None => failed ses
      | Some status =>
          let message := default JUndefined (reply ≫= (fun data => get data "message")) in
          if is_string status "started" then
            let st := App.updateStatus (App.set_isMonitoring (app ses) true)
                        "监控中" "monitoring" in
            let ses := subscribe_each (with_app ses st) symbols in
            match to_string message with
            | Some m => show_dialog ses ("✅ " +:+ m)
            | None => failed ses
            end
          else
            match to_string message with
            | Some m => show_dialog ses ("❌ " +:+ m)
            | None => failed ses
            end
      end
  end.

End WithHost.

(** [stopMonitoring()]; [confirmed] is the answer to [confirm]. *)
Definition stopMonitoring (ses : session) (confirmed : bool) (reply : option jsval)
  : session :=
  if negb confirmed then ses else
  let ses := post ses "/api/stop-monitoring" JUndefined in
  match reply ≫= (fun data => get data "status") with
  | None => show_dialog ses "停止监控失败"
  | Some status =>
      if is_string status "stopped" then
        let st := App.updateStatus (App.set_isMonitoring (app ses) false)
                    "已连接" "connected" in
        show_dialog (with_app ses st) "✅ 监控已停止"
      else ses
  end.

(** What the page delivers to the instance.  A request and the handling of
    its answer are one turn: [Start], [Stop] and [StatusPoll] stand at the
    moment the answer is handled, the text of the input being the one read
    when the request was made. *)
Inductive event : Type :=
  | Connect
  | Disconnect
  | StockUpdate (msg : jsval) (now : string)
  | Alert (alert : jsval)
  | MarketSummary (summary : jsval)
  | StatusPoll (response : option jsval)
  | Start (text : string) (reply : option jsval)
  | Stop (confirmed : bool) (reply : option jsval).

Section WithHost.
Context `{Host}.

(** One turn of the event loop: an exception ends the handler and leaves
    the instance as the handler had it. *)
Definition step (ses : session) (e : event) : session :=
  match e with
  | Connect => with_app ses (onConnect (app ses))
  | Disconnect => with_app ses (onDisconnect (app ses))
  | StockUpdate msg now => with_app ses (App.handleStockUpdate (app ses) msg now).1
  | Alert alert => with_app ses (App.handleAlert (app ses) alert).1
  | MarketSummary summary => with_app ses (App.updateMarketOverview (app ses) summary).1
  | StatusPoll response => with_app ses (App.loadSystemStatus (app ses) response)
  | Start text reply => startMonitoring ses text reply
  | Stop confirmed reply => stopMonitoring ses confirmed reply
  end.

Definition run (ses : session) (events : list event) : session :=
  foldl step ses events.

End WithHost.

End AppSession.

(** ** The controls and the socket events of app_fixed.js *)

Module FixedSession.
Import JS.

(** The instance with the log of its POST requests. *)
Record session : Type := {
  app : AppFixed.state;
  requests : list string
}.

Definition opened : session := {| app := AppFixed.initial; requests := [] |}.

Definition with_app (ses : session) (st : AppFixed.state) : session :=
  {| app := st; requests := requests ses |}.

Definition post (ses : session) (url : string) : session :=
  {| app := app ses; requests := requests ses ++ [url] |}.

Definition set_isConnected (st : AppFixed.state) (v : bool) : AppFixed.state :=
  {| AppFixed.isConnected := v; AppFixed.isMonitoring := AppFixed.isMonitoring st;
     AppFixed.stocks := AppFixed.stocks st;
     AppFixed.stocksProto := AppFixed.stocksProto st; AppFixed.alerts := AppFixed.alerts st;
     AppFixed.chartData := AppFixed.chartData st;
     AppFixed.statusText := AppFixed.statusText st;
     AppFixed.statusClass := AppFixed.statusClass st;
     AppFixed.alertsContainer := AppFixed.alertsContainer st;
     AppFixed.marketOverview := AppFixed.marketOverview st;
     AppFixed.symbolInput := AppFixed.symbolInput st;
     AppFixed.emitted := AppFixed.emitted st; AppFixed.dialogs := AppFixed.dialogs st |}.

Definition set_isMonitoring (st : AppFixed.state) (v : bool) : AppFixed.state :=
  {| AppFixed.isConnected := AppFixed.isConnected st; AppFixed.isMonitoring := v;
     AppFixed.stocks := AppFixed.stocks st;
     AppFixed.stocksProto := AppFixed.stocksProto st; AppFixed.alerts := AppFixed.alerts st;
     AppFixed.chartData := AppFixed.chartData st;
     AppFixed.statusText := AppFixed.statusText st;
     AppFixed.statusClass := AppFixed.statusClass st;
     AppFixed.alertsContainer := AppFixed.alertsContainer st;
     AppFixed.marketOverview := AppFixed.marketOverview st;
     AppFixed.symbolInput := AppFixed.symbolInput st;
     AppFixed.emitted := AppFixed.emitted st; AppFixed.dialogs := AppFixed.dialogs st |}.

(** The handler of the socket's [connect] event. *)
Definition onConnect (st : AppFixed.state) : AppFixed.state :=
  AppFixed.updateStatus (set_isConnected st true) "已连接" "connected".

(** The handler of the socket's [disconnect] event. *)
Definition onDisconnect (st : AppFixed.state) : AppFixed.state :=
  AppFixed.updateStatus (set_isConnected st false) "连接断开" "disconnected".

(** How a request ends: with a decoded body, or rejected with an error
    whose [message] is given. *)
Inductive reply : Type :=
  | Answer (data : jsval)
  | Rejected (message : string).

(** The [status] member of the answer; reading it from [null] or
    [undefined] raises the engine's [TypeError], whose message is
    [type_error]. *)
Definition answered_status (type_error : string) (r : reply) : jsval + string :=
  match r with
  | Answer data =>
      match get data "status" with
      | Some status => inl status
      | None => inr type_error
      end
  | Rejected message => inr message
  end.

(** [startMonitoring()] *)
Definition startMonitoring (ses : session) (r : reply) (type_error : string) : session :=
  if negb (AppFixed.isConnected (app ses))
  then with_app ses (AppFixed.show_dialog (app ses) "请先连接到服务器")
  else
    let ses := post ses "/api/start-monitoring" in
    match answered_status type_error r with
    | inl status =>
        if is_string status "success" then
          let st := AppFixed.updateStatus (set_isMonitoring (app ses) true)
                      "监控已启动" "monitoring" in
          with_app ses (AppFixed.show_dialog st "监控已启动")
        else ses
    | inr message =>
        with_app ses (AppFixed.show_dialog (app ses) ("启动监控失败: " +:+ message))
    end.

(** [stopMonitoring()] *)
Definition stopMonitoring (ses : session) (r : reply) (type_error : string) : session :=
  let ses := post ses "/api/stop-monitoring" in
  match answered_status type_error r with
  | inl status =>
      if is_string status "success" then
        let st := AppFixed.updateStatus (set_isMonitoring (app ses) false)
                    "监控已停止" "stopped" in
        with_app ses (AppFixed.show_dialog st "监控已停止")
      else ses
  | inr message =>
      with_app ses (AppFixed.show_dialog (app ses) ("停止监控失败: " +:+ message))
  end.

(** What the page delivers to the instance.  A request and the handling of
    its answer are one turn, as in app.js; [startMonitoring] tests the
    connection in that turn. *)
Inductive event : Type :=
  | Connect
  | Disconnect
  | StockUpdate (msg : jsval) (env : AppFixed.reading)
  | Alert (alert : jsval)
  | ClearAlerts
  | MarketSummary (summary : jsval)
  | StatusPoll (response : option jsval)
  | Start (r : reply) (type_error : string)
  | Stop (r : reply) (type_error : string)
  | TypeSymbol (text : string)
  | AddStock.

Section WithHost.
Context `{Host}.

(** One turn of the event loop. *)
Definition step (ses : session) (e : event) : session :=
  match e with
  | Connect => with_app ses (onConnect (app ses))
  | Disconnect => with_app ses (onDisconnect (app ses))
  | StockUpdate msg env => with_app ses (AppFixed.handleStockUpdate (app ses) msg env).1
  | Alert alert => with_app ses (AppFixed.handleAlert (app ses) alert).1
  | ClearAlerts => with_app ses (AppFixed.clearAlerts (app ses)).1
  | MarketSummary summary =>
      with_app ses (AppFixed.updateMarketOverview (app ses) summary).1
  | StatusPoll response => with_app ses (AppFixed.loadSystemStatus (app ses) response)
  | Start r type_error => startMonitoring ses r type_error
  | Stop r type_error => stopMonitoring ses r type_error
  | TypeSymbol text => with_app ses (Runs.type_symbol (app ses) text)
  | AddStock => with_app ses (AppFixed.addStock (app ses))
  end.

Definition run (ses : session) (events : list event) : session :=
  foldl step ses events.

End WithHost.

End FixedSession.

(** ** Invariants of the instances *)

Module Invariants.
Import JS Statements.

(** A message of [socket.emit] is a subscription for a symbol that is not
    empty. *)
Definition subscribes_symbol (m : string * jsval) : Prop :=
  exists symbol : string, symbol <> "" /\ m = subscription symbol.

(** A value of the chart buffers of app.js: a truthy one, or the [0]
    pushed in place of a falsy one. *)
Definition charted (v : jsval) : Prop := truthy v = true \/ v = JNum 0.

Definition series_charted (s : App.series) : Prop :=
  Forall charted (App.prices s) /\ Forall charted (App.volumes s).

(** What every reachable instance of app.js satisfies. *)
Definition app_invariant (ses : AppSession.session) : Prop :=
  let st := AppSession.app ses in
  (length (App.alerts st) <= 20)%nat /\
  map_Forall (fun _ s => aligned s /\ series_charted s) (App.chartData st) /\
  (forall key, App.chartSymbol st = Some key -> is_Some (App.chartData st !! key)) /\
  map_Forall (fun _ entry => is_Some (entry !! "lastUpdate")) (App.stocks st) /\
  (forall key, is_Some (App.chartData st !! key) ->
               is_Some (App.stocks st !! key) /\ inherited key = false) /\
  Forall subscribes_symbol (AppSession.emitted ses).

(** A dataset of app_fixed.js holds at most 20 points, each with a truthy
    price, under the key its label converts to; it is drawn unfilled in a
    colour of the palette. *)
Definition dataset_ok (key : string) (d : AppFixed.dataset) : Prop :=
  (length (AppFixed.data d) <= 20)%nat /\
  Forall (fun pt => truthy (AppFixed.y pt) = true) (AppFixed.data d) /\
  to_string (AppFixed.label d) = Some key /\
  AppFixed.borderColor d ∈ AppFixed.colors /\
  AppFixed.fill d = false.

(** An entry of [this.stocks] of app_fixed.js names its own key. *)
Definition entry_ok (key : string) (entry : gmap string jsval) : Prop :=
  (exists symbol, entry !! "symbol" = Some symbol /\ to_string symbol = Some key) /\
  is_Some (entry !! "lastUpdate").

(** What every reachable instance of app_fixed.js satisfies. *)
Definition fixed_invariant (st : AppFixed.state) : Prop :=
  map_Forall dataset_ok (AppFixed.chartData st) /\
  map_Forall entry_ok (AppFixed.stocks st) /\
  (forall key, is_Some (AppFixed.chartData st !! key) ->
               is_Some (AppFixed.stocks st !! key) /\ inherited key = false) /\
  Forall subscribes_symbol (AppFixed.emitted st).

(** The answer of the server carries the status [word]. *)
Definition answers (reply : option jsval) (word : string) : bool :=
  match reply ≫= (fun data => get data "status") with
  | Some status => is_string status word
  | None => false
  end.

(** The parts of the instance of app.js: the quotes and their chart, the
    alerts and their display, the connection and monitoring status. *)
Definition app_quotes (st : App.state) :=
  (App.stocks st, App.chartData st, App.chartSymbol st, App.stocksProto st).

Definition app_alerts_part (st : App.state) :=
  (App.alerts st, App.alertsContainer st).

Definition app_status (st : App.state) :=
  (App.isConnected st, App.isMonitoring st, App.statusText st, App.statusType st,
   App.systemInfo st).

(** The same parts of the instance of app_fixed.js, and what it has sent
    and shown. *)
Definition fixed_quotes (st : AppFixed.state) :=
  (AppFixed.stocks st, AppFixed.chartData st, AppFixed.stocksProto st).

Definition fixed_alerts_part (st : AppFixed.state) :=
  (AppFixed.alerts st, AppFixed.alertsContainer st).

Definition fixed_status (st : AppFixed.state) :=
  (AppFixed.isConnected st, AppFixed.isMonitoring st, AppFixed.statusText st,
   AppFixed.statusClass st).

Definition fixed_outputs (st : AppFixed.state) :=
  (AppFixed.emitted st, AppFixed.dialogs st, AppFixed.symbolInput st).

(** The request of app_fixed.js was answered with status 'success'. *)
Definition succeeded (r : FixedSession.reply) : bool :=
  match r with
  | FixedSession.Answer data => answers (Some data) "success"
  | FixedSession.Rejected _ => false
  end.

(** The request was answered, with another status. *)
Definition declined (r : FixedSession.reply) : bool :=
  match r with
  | FixedSession.Answer data =>
      match get data "status" with
      | Some status => negb (is_string status "success")
      | None => false
      end
  | FixedSession.Rejected _ => false
  end.

(** The symbol and the name in the header of a stock card. *)
Definition card_header (card : markup) : option (string * string) :=
  match card with
  | Tag _ _ (Tag _ _ (Tag _ _ [Tag _ _ [Raw symbol]; Tag _ _ [Raw name]] :: _) :: _) =>
      Some (symbol, name)
  | _ => None
  end.

(** The texts joined with commas. *)
Fixpoint join_comma (pieces : list string) : string :=
  match pieces with
  | [] => ""
  | [piece] => piece
  | piece :: rest => piece +:+ "," +:+ join_comma rest
  end.

(** The text holds no comma. *)
Fixpoint comma_free (text : string) : bool :=
  match text with
  | EmptyString => true
  | String c rest => negb (Ascii.eqb c ","%char) && comma_free rest
  end.

End Invariants.

(** * Properties *)

Import JS Statements Examples.

(** Closes a decidable goal by evaluating its decision procedure. *)
Ltac by_decide :=
  match goal with
  | |- ?P => apply (bool_decide_eq_true_1 P); vm_compute; reflexivity
  end.

(** ** Bounded buffers *)

Section Lastn.
Context {A : Type}.
Implicit Types (l : list A) (n : nat).

Lemma length_lastn n l : length (lastn n l) = (n `min` length l)%nat.
Proof. unfold lastn. rewrite length_drop. lia. Qed.

Lemma lastn_short n l : (length l <= n)%nat -> lastn n l = l.
Proof.
  intros Hl. unfold lastn.
  replace (length l - n)%nat with 0%nat by lia. reflexivity.
Qed.

(** Pushing on a buffer within its bound and shifting once when the bound
    is exceeded keeps the most recent [n] elements. *)
Lemma push_shift n l (p : A) :
  (length l <= n)%nat ->
  (if (n <? length (l ++ [p]))%nat then tail (l ++ [p]) else l ++ [p])
  = lastn n (l ++ [p]).
Proof.
  intros Hl. rewrite length_app. simpl.
  destruct (Nat.ltb_spec n (length l + 1)) as [Hlt | Hge].
  - unfold lastn. rewrite length_app. simpl.
    replace (length l + 1 - n)%nat with 1%nat by lia.
    destruct (l ++ [p]); reflexivity.
  - rewrite lastn_short; [reflexivity | rewrite length_app; simpl; lia].
Qed.

Lemma lastn_push n l (p : A) : lastn n (lastn n l ++ [p]) = lastn n (l ++ [p]).
Proof.
  unfold lastn at 2.
  rewrite <- (drop_app_le l [p]) by lia.
  unfold lastn. rewrite drop_drop. f_equal.
  rewrite length_drop, !length_app. simpl. lia.
Qed.

(** When the buffer is full the element that leaves is its oldest one. *)
Lemma push_full n l (p : A) :
  length l = n -> (0 < n)%nat -> lastn n (l ++ [p]) = tail l ++ [p].
Proof.
  intros Hfull Hn. rewrite <- push_shift by lia.
  rewrite length_app. cbn [length].
  destruct (Nat.ltb_spec n (length l + 1)); [| lia].
  destruct l; [simpl in Hfull; lia | reflexivity].
Qed.

End Lastn.

Lemma get_total v k1 k2 a : get v k1 = Some a -> is_Some (get v k2).
Proof. destruct v; simpl; intros; try discriminate; eauto. Qed.

(** *** app.js *)

Lemma aligned_empty : aligned App.empty_series.
Proof. repeat split; simpl; lia. Qed.

Lemma aligned_push s pt : aligned s -> aligned (app_push s pt).
Proof.
  intros (Hv & Ht & Hp). unfold aligned, app_push. simpl.
  rewrite !length_lastn, !length_app. cbn [length]. lia.
Qed.

(** An instance run from its construction has no entry under the name
    of an inherited member: [updateChartData] creates none. *)
Lemma finds_inherited_absent {A : Type} (own : gmap string A) (key : string) :
  (inherited key = true -> own !! key = None) ->
  finds_inherited own key = inherited key.
Proof.
  intros Habsent. unfold finds_inherited.
  destruct (own !! key) eqn:E; [| reflexivity].
  destruct (inherited key); [| reflexivity].
  specialize (Habsent eq_refl). discriminate.
Qed.

Lemma finds_inherited_false {A : Type} (own : gmap string A) (key : string) :
  finds_inherited own key = false -> is_Some (own !! key) \/ inherited key = false.
Proof.
  unfold finds_inherited. destruct (own !! key); [left; eauto | right; assumption].
Qed.

Lemma app_chart_no_inherited st symbol stockData now key :
  inherited key = true ->
  App.chartData st !! key = None ->
  App.chartData (App.updateChartData st symbol stockData now).1 !! key = None.
Proof.
  intros Hkey Hnone. unfold App.updateChartData.
  destruct (to_string symbol) as [k |]; [| exact Hnone].
  destruct (finds_inherited (App.chartData st) k) eqn:Hfound; [exact Hnone |].
  assert (Hne : k <> key).
  { intros ->. unfold finds_inherited in Hfound. rewrite Hnone, Hkey in Hfound.
    discriminate. }
  destruct (get stockData "price") as [price |]; simpl.
  - rewrite lookup_insert_ne by done.
    destruct (App.chartData st !! k); [exact Hnone |].
    rewrite lookup_insert_ne by done. exact Hnone.
  - destruct (App.chartData st !! k); [exact Hnone |].
    rewrite lookup_insert_ne by done. exact Hnone.
Qed.

Lemma app_chart_step st c key :
  aligned (Runs.app_buffer st key) ->
  (inherited key = true -> App.chartData st !! key = None) ->
  Runs.app_buffer
    (App.updateChartData st (Runs.call_symbol c) (Runs.call_data c) (Runs.call_now c)).1 key
  = match Runs.app_pushed key c with
    | Some pt => app_push (Runs.app_buffer st key) pt
    | None => Runs.app_buffer st key
    end.
Proof.
  intros (Hv & Ht & Hp) Habsent.
  unfold App.updateChartData, Runs.app_pushed, Runs.app_buffer in *.
  destruct (to_string (Runs.call_symbol c)) as [k |]; simpl; [| reflexivity].
  destruct (finds_inherited (App.chartData st) k) eqn:Hfound.
  { destruct (get (Runs.call_data c) "price") as [price |] eqn:Hprice; simpl;
      [| reflexivity].
    destruct (get_total _ _ "volume" _ Hprice) as [volume Hvol]. rewrite Hvol. simpl.
    destruct (String.eqb_spec k key) as [-> | Hne]; [| reflexivity].
    rewrite <- (finds_inherited_absent _ _ Habsent), Hfound. reflexivity. }
  destruct (get (Runs.call_data c) "price") as [price |] eqn:Hprice; simpl.
  - destruct (get_total _ _ "volume" _ Hprice) as [volume Hvol].
    rewrite Hvol. simpl.
    destruct (String.eqb_spec k key) as [-> | Hne].
    + rewrite <- (finds_inherited_absent _ _ Habsent), Hfound. simpl.
      rewrite lookup_insert_eq. simpl.
      assert (Hsame : default App.empty_series
                (match App.chartData st !! key with
                 | Some _ => App.chartData st
                 | None => <[key := App.empty_series]> (App.chartData st)
                 end !! key) = default App.empty_series (App.chartData st !! key)).
      { destruct (App.chartData st !! key) eqn:E; [rewrite E | rewrite lookup_insert_eq];
          reflexivity. }
      rewrite Hsame.
      set (s := default App.empty_series (App.chartData st !! key)) in *.
      unfold app_push. simpl.
      rewrite <- !push_shift by lia.
      rewrite !length_app. simpl. rewrite Hv, Ht.
      destruct (20 <? length (App.prices s) + 1)%nat; reflexivity.
    + simpl. rewrite lookup_insert_ne by done.
      destruct (App.chartData st !! k); [reflexivity |].
      rewrite lookup_insert_ne by done. reflexivity.
  - destruct (App.chartData st !! k) eqn:E; [reflexivity |].
    destruct (decide (k = key)) as [-> | Hne].
    + rewrite lookup_insert_eq, E. reflexivity.
    + rewrite lookup_insert_ne by done. reflexivity.
Qed.

Lemma holds_recent_aligned s pts : holds_recent s pts -> aligned s.
Proof.
  intros (Hp & Hv & Ht). unfold aligned. rewrite Hp, Hv, Ht.
  rewrite !length_lastn, !length_fmap. lia.
Qed.

Lemma holds_recent_push s pts pt :
  holds_recent s pts -> holds_recent (app_push s pt) (pts ++ [pt]).
Proof.
  intros (Hp & Hv & Ht). unfold holds_recent, app_push. simpl.
  rewrite Hp, Hv, Ht, !fmap_app. simpl.
  rewrite !lastn_push. repeat split; reflexivity.
Qed.

Lemma app_points_snoc key calls c :
  app_points key (calls ++ [c])
  = app_points key calls ++ match Runs.app_pushed key c with Some pt => [pt] | None => [] end.
Proof.
  unfold app_points. rewrite omap_app. simpl.
  destruct (Runs.app_pushed key c); reflexivity.
Qed.

Lemma app_charts_snoc st calls c :
  Runs.app_charts st (calls ++ [c])
  = (App.updateChartData (Runs.app_charts st calls)
       (Runs.call_symbol c) (Runs.call_data c) (Runs.call_now c)).1.
Proof. unfold Runs.app_charts. rewrite foldl_app. reflexivity. Qed.

Lemma app_charts_no_inherited calls key :
  inherited key = true ->
  App.chartData (Runs.app_charts App.initial calls) !! key = None.
Proof.
  intros Hkey. induction calls as [| c calls IH] using rev_ind.
  - reflexivity.
  - rewrite app_charts_snoc. apply app_chart_no_inherited; assumption.
Qed.

Lemma app_chart_run calls key :
  holds_recent (Runs.app_buffer (Runs.app_charts App.initial calls) key)
               (app_points key calls).
Proof.
  induction calls as [| c calls IH] using rev_ind.
  - repeat split.
  - rewrite app_charts_snoc, app_points_snoc.
    rewrite app_chart_step
      by (first [eapply holds_recent_aligned; exact IH
                | intros Hkey; apply app_charts_no_inherited, Hkey]).
    destruct (Runs.app_pushed key c) as [pt |].
    + apply holds_recent_push, IH.
    + rewrite app_nil_r. exact IH.
Qed.

(** *** app_fixed.js *)

Lemma fixed_chart_no_inherited st symbol stockData env key :
  inherited key = true ->
  AppFixed.chartData st !! key = None ->
  AppFixed.chartData (AppFixed.updateChartData st symbol stockData env).1 !! key = None.
Proof.
  intros Hkey Hnone. unfold AppFixed.updateChartData.
  destruct (get stockData "price") as [price |]; [| exact Hnone].
  destruct (truthy price); simpl; [| exact Hnone].
  destruct (to_string symbol) as [k |]; [| exact Hnone].
  destruct (finds_inherited (AppFixed.chartData st) k) eqn:Hfound; [exact Hnone |].
  assert (Hne : k <> key).
  { intros ->. unfold finds_inherited in Hfound. rewrite Hnone, Hkey in Hfound.
    discriminate. }
  simpl. rewrite lookup_insert_ne by done. exact Hnone.
Qed.

Lemma fixed_chart_step st c key :
  (length (Runs.fixed_buffer st key) <= 20)%nat ->
  (inherited key = true -> AppFixed.chartData st !! key = None) ->
  Runs.fixed_buffer
    (AppFixed.updateChartData st (Runs.fixed_symbol c) (Runs.fixed_data c)
       (Runs.fixed_env c)).1 key
  = match Runs.fixed_pushed key c with
    | Some pt => lastn 20 (Runs.fixed_buffer st key ++ [pt])
    | None => Runs.fixed_buffer st key
    end.
Proof.
  intros Hlen Habsent.
  unfold AppFixed.updateChartData, Runs.fixed_pushed, Runs.fixed_buffer in *.
  destruct (get (Runs.fixed_data c) "price") as [price |]; simpl; [| reflexivity].
  destruct (truthy price); simpl; [| reflexivity].
  destruct (to_string (Runs.fixed_symbol c)) as [k |]; simpl; [| reflexivity].
  destruct (finds_inherited (AppFixed.chartData st) k) eqn:Hfound.
  { destruct (String.eqb_spec k key) as [-> | Hne]; [| reflexivity].
    rewrite <- (finds_inherited_absent _ _ Habsent), Hfound. reflexivity. }
  destruct (String.eqb_spec k key) as [-> | Hne].
  - rewrite <- (finds_inherited_absent _ _ Habsent), Hfound. simpl.
    rewrite lookup_insert_eq. simpl.
    destruct (AppFixed.chartData st !! key) as [e |]; simpl in *;
      [apply push_shift; lia | reflexivity].
  - simpl. rewrite lookup_insert_ne by done. reflexivity.
Qed.

Lemma fixed_points_snoc key calls c :
  fixed_points key (calls ++ [c])
  = fixed_points key calls
    ++ match Runs.fixed_pushed key c with Some pt => [pt] | None => [] end.
Proof.
  unfold fixed_points. rewrite omap_app. simpl.
  destruct (Runs.fixed_pushed key c); reflexivity.
Qed.

Lemma fixed_charts_snoc st calls c :
  Runs.fixed_charts st (calls ++ [c])
  = (AppFixed.updateChartData (Runs.fixed_charts st calls)
       (Runs.fixed_symbol c) (Runs.fixed_data c) (Runs.fixed_env c)).1.
Proof. unfold Runs.fixed_charts. rewrite foldl_app. reflexivity. Qed.

Lemma fixed_charts_no_inherited calls key :
  inherited key = true ->
  AppFixed.chartData (Runs.fixed_charts AppFixed.initial calls) !! key = None.
Proof.
  intros Hkey. induction calls as [| c calls IH] using rev_ind.
  - reflexivity.
  - rewrite fixed_charts_snoc. apply fixed_chart_no_inherited; assumption.
Qed.

Lemma fixed_chart_run calls key :
  Runs.fixed_buffer (Runs.fixed_charts AppFixed.initial calls) key
  = lastn 20 (fixed_points key calls).
Proof.
  induction calls as [| c calls IH] using rev_ind.
  - reflexivity.
  - rewrite fixed_charts_snoc, fixed_points_snoc.
    rewrite fixed_chart_step
      by (first [rewrite IH, length_lastn; lia
                | intros Hkey; apply fixed_charts_no_inherited, Hkey]).
    rewrite IH.
    destruct (Runs.fixed_pushed key c) as [pt |].
    + apply lastn_push.
    + rewrite app_nil_r. reflexivity.
Qed.

(** C1.  For every sequence of [updateChartData] calls, in app.js and in
    app_fixed.js, the buffer of every symbol holds at most 20 points after
    each call, and holds the most recently pushed points of that symbol (20
    of them once 20 have been pushed) in arrival order; a call that pushes
    on a buffer leaves the last 20 of the old points followed by the new
    one, and a push on a buffer of 20 points removes its oldest point.  A
    call whose symbol names a member inherited from [Object.prototype]
    pushes nothing: it stops on the inherited member, and no entry is ever
    held under such a name. *)
Theorem chart_buffer_holds_20_most_recent :
  (forall (calls : list Runs.chart_call) (key : string),
      let s := Runs.app_buffer (Runs.app_charts App.initial calls) key in
      let pts := app_points key calls in
      App.prices s = lastn 20 ((fun pt => pt.1.1) <$> pts) /\
      App.volumes s = lastn 20 ((fun pt => pt.1.2) <$> pts) /\
      App.timestamps s = lastn 20 (snd <$> pts) /\
      (length (App.prices s) <= 20)%nat /\
      (length (App.volumes s) <= 20)%nat /\
      (length (App.timestamps s) <= 20)%nat) /\
  (forall (calls : list Runs.chart_call) (c : Runs.chart_call) (key : string),
      let old := Runs.app_buffer (Runs.app_charts App.initial calls) key in
      Runs.app_buffer (Runs.app_charts App.initial (calls ++ [c])) key
      = match Runs.app_pushed key c with
        | Some pt =>
            {| App.prices := lastn 20 (App.prices old ++ [pt.1.1]);
               App.volumes := lastn 20 (App.volumes old ++ [pt.1.2]);
               App.timestamps := lastn 20 (App.timestamps old ++ [pt.2]) |}
        | None => old
        end) /\
  (forall (calls : list Runs.fixed_call) (key : string),
      let d := Runs.fixed_buffer (Runs.fixed_charts AppFixed.initial calls) key in
      d = lastn 20 (fixed_points key calls) /\ (length d <= 20)%nat) /\
  (forall (calls : list Runs.fixed_call) (c : Runs.fixed_call) (key : string),
      let old := Runs.fixed_buffer (Runs.fixed_charts AppFixed.initial calls) key in
      Runs.fixed_buffer (Runs.fixed_charts AppFixed.initial (calls ++ [c])) key
      = match Runs.fixed_pushed key c with
        | Some pt => lastn 20 (old ++ [pt])
        | None => old
        end) /\
  (forall (calls : list Runs.chart_call) (c : Runs.chart_call) (key : string)
          (pt : jsval * jsval * string),
      let old := Runs.app_buffer (Runs.app_charts App.initial calls) key in
      Runs.app_pushed key c = Some pt ->
      length (App.prices old) = 20%nat ->
      Runs.app_buffer (Runs.app_charts App.initial (calls ++ [c])) key
      = {| App.prices := tail (App.prices old) ++ [pt.1.1];
           App.volumes := tail (App.volumes old) ++ [pt.1.2];
           App.timestamps := tail (App.timestamps old) ++ [pt.2] |}) /\
  (forall (calls : list Runs.fixed_call) (c : Runs.fixed_call) (key : string)
          (pt : AppFixed.point),
      let old := Runs.fixed_buffer (Runs.fixed_charts AppFixed.initial calls) key in
      Runs.fixed_pushed key c = Some pt ->
      length old = 20%nat ->
      Runs.fixed_buffer (Runs.fixed_charts AppFixed.initial (calls ++ [c])) key
      = tail old ++ [pt]) /\
  (forall (key : string),
      inherited key = true ->
      (forall calls, App.chartData (Runs.app_charts App.initial calls) !! key = None) /\
      (forall calls,
          AppFixed.chartData (Runs.fixed_charts AppFixed.initial calls) !! key = None) /\
      (forall st stockData now,
          App.chartData st !! key = None ->
          App.updateChartData st (JStr key) stockData now = (st, Threw)) /\
      (forall st stockData env price,
          AppFixed.chartData st !! key = None ->
          get stockData "price" = Some price -> truthy price = true ->
          AppFixed.updateChartData st (JStr key) stockData env = (st, Threw))).
Proof.
  split; [| split; [| split; [| split; [| split; [| split]]]]].
  - intros calls key s pts.
    pose proof (app_chart_run calls key) as Hrun.
    destruct (holds_recent_aligned _ _ Hrun) as (Hv & Ht & Hp).
    destruct Hrun as (Hprices & Hvolumes & Htimes).
    subst s pts. repeat split; try assumption; lia.
  - intros calls c key old. subst old.
    rewrite app_charts_snoc.
    rewrite app_chart_step
      by (first [eapply holds_recent_aligned, app_chart_run
                | intros Hkey; apply app_charts_no_inherited, Hkey]).
    reflexivity.
  - intros calls key d. subst d.
    rewrite fixed_chart_run, length_lastn. split; [reflexivity | lia].
  - intros calls c key old. subst old.
    rewrite fixed_charts_snoc.
    rewrite fixed_chart_step
      by (first [rewrite fixed_chart_run, length_lastn; lia
                | intros Hkey; apply fixed_charts_no_inherited, Hkey]).
    reflexivity.
  - intros calls c key pt old Hpt Hlen. subst old.
    rewrite app_charts_snoc.
    rewrite app_chart_step
      by (first [eapply holds_recent_aligned, app_chart_run
                | intros Hkey; apply app_charts_no_inherited, Hkey]).
    rewrite Hpt. unfold app_push.
    destruct (holds_recent_aligned _ _ (app_chart_run calls key)) as (Hv & Ht & _).
    rewrite !push_full by (congruence || lia). reflexivity.
  - intros calls c key pt old Hpt Hlen. subst old.
    rewrite fixed_charts_snoc.
    rewrite fixed_chart_step
      by (first [rewrite fixed_chart_run, length_lastn; lia
                | intros Hkey; apply fixed_charts_no_inherited, Hkey]).
    rewrite Hpt. apply push_full; [exact Hlen | lia].
  - intros key Hkey. split; [| split; [| split]].
    + intros calls. apply app_charts_no_inherited, Hkey.
    + intros calls. apply fixed_charts_no_inherited, Hkey.
    + intros st stockData now Hnone. unfold App.updateChartData, finds_inherited.
      simpl. rewrite Hnone, Hkey. reflexivity.
    + intros st stockData env price Hnone Hprice Htruthy.
      unfold AppFixed.updateChartData, finds_inherited.
      rewrite Hprice, Htruthy. simpl. rewrite Hnone, Hkey. reflexivity.
Qed.

Lemma chart_buffer_holds_20_most_recent_witness :
  App.prices
    (Runs.app_buffer (Runs.app_charts App.initial (quote_call <$> seq 0 21)) "AAPL")
  = (fun n => JNum (of_nat n)) <$> seq 1 20
  /\ AppFixed.y <$>
       Runs.fixed_buffer
         (Runs.fixed_charts AppFixed.initial (fixed_quote_call <$> seq 0 21)) "AAPL"
     = (fun n => JNum (of_nat n)) <$> seq 2 20
  /\ App.updateChartData App.initial (JStr "constructor")
       (JObj {[ "price" := JNum 189.5 ]}) "10:00:01"
     = (App.initial, Threw).
Proof.
  destruct chart_buffer_holds_20_most_recent
    as (_ & _ & _ & _ & Happ & Hfixed & Hinherited).
  split; [| split].
  - change (quote_call <$> seq 0 21)
      with ((quote_call <$> seq 0 20) ++ [quote_call 20]).
    rewrite (Happ (quote_call <$> seq 0 20) (quote_call 20) "AAPL"
               (JNum (of_nat 20), JNum 0, index_key 20));
      [| reflexivity | vm_compute; reflexivity].
    vm_compute. reflexivity.
  - change (fixed_quote_call <$> seq 0 21)
      with ((fixed_quote_call <$> seq 0 20) ++ [fixed_quote_call 20]).
    rewrite (Hfixed (fixed_quote_call <$> seq 0 20) (fixed_quote_call 20) "AAPL"
               {| AppFixed.x := index_key 20; AppFixed.y := JNum (of_nat 21) |});
      [| vm_compute; reflexivity | vm_compute; reflexivity].
    vm_compute. reflexivity.
  - apply (Hinherited "constructor"); reflexivity.
Defined.

(** Twenty-one quotes of one symbol: the first one has left the arrays. *)
Example app_chart_after_21_calls :
  Runs.app_buffer (Runs.app_charts App.initial (quote_call <$> seq 0 21)) "AAPL"
  = {| App.prices := (fun n => JNum (of_nat n)) <$> seq 1 20;
       App.volumes := replicate 20 (JNum 0);
       App.timestamps := index_key <$> seq 1 20 |}.
Proof. vm_compute. reflexivity. Qed.

Lemma series_lookup st key s :
  App.chartData st !! key = Some s -> Runs.app_buffer st key = s.
Proof. unfold Runs.app_buffer. intros ->. reflexivity. Qed.

Lemma aligned_buffer st key :
  map_Forall (fun _ s => aligned s) (App.chartData st) ->
  aligned (Runs.app_buffer st key).
Proof.
  intros Hall. unfold Runs.app_buffer.
  destruct (App.chartData st !! key) as [s |] eqn:E; simpl.
  - exact (Hall key s E).
  - apply aligned_empty.
Qed.

Lemma length_tail {A : Type} (l : list A) : length (tail l) = Nat.pred (length l).
Proof. destruct l; reflexivity. Qed.

Lemma aligned_preserved st symbol stockData now :
  map_Forall (fun _ s => aligned s) (App.chartData st) ->
  map_Forall (fun _ s => aligned s)
             (App.chartData (App.updateChartData st symbol stockData now).1).
Proof.
  intros Hall. unfold App.updateChartData.
  destruct (to_string symbol) as [key |]; [| exact Hall].
  destruct (finds_inherited (App.chartData st) key); [exact Hall |].
  set (entries := match App.chartData st !! key with
                  | Some _ => App.chartData st
                  | None => <[key := App.empty_series]> (App.chartData st)
                  end).
  assert (Hentries : map_Forall (fun _ s => aligned s) entries).
  { subst entries. destruct (App.chartData st !! key); [exact Hall |].
    apply map_Forall_insert_2; [apply aligned_empty | exact Hall]. }
  assert (Hdata : aligned (default App.empty_series (entries !! key))).
  { destruct (entries !! key) as [s |] eqn:Hs; simpl.
    - apply (Hentries key s Hs).
    - apply aligned_empty. }
  destruct (get stockData "price") as [price |]; simpl; [| exact Hentries].
  apply map_Forall_insert_2; [| exact Hentries].
  destruct Hdata as (Hv & Ht & Hp). unfold aligned.
  destruct (Nat.ltb_spec 20
              (length (App.prices (default App.empty_series (entries !! key))
                       ++ [or_else price (JNum 0)]))) as [Hfull | Hroom];
    cbn [App.prices App.volumes App.timestamps];
    rewrite ?length_tail, !length_app in *; cbn [length] in *; lia.
Qed.

(** A call that gets past the lookup and the reading of the price adds
    one point to each array of its symbol, or replaces the oldest one. *)
Lemma app_chart_grows st symbol stockData now key price :
  aligned (Runs.app_buffer st key) ->
  to_string symbol = Some key ->
  get stockData "price" = Some price ->
  finds_inherited (App.chartData st) key = false ->
  let s := Runs.app_buffer st key in
  let s' := Runs.app_buffer (App.updateChartData st symbol stockData now).1 key in
  length (App.prices s') = Nat.min 20 (S (length (App.prices s))) /\
  length (App.volumes s') = length (App.prices s') /\
  length (App.timestamps s') = length (App.prices s') /\
  last (App.prices s') = Some (or_else price (JNum 0)) /\
  last (App.timestamps s') = Some now.
Proof.
  intros (Hv & Ht & Hp) Hkey Hprice Hfound. cbv zeta.
  remember (Nat.min 20 (S (length (App.prices (Runs.app_buffer st key))))) as m eqn:Hm.
  unfold App.updateChartData, Runs.app_buffer in *.
  rewrite Hkey, Hfound, Hprice. simpl. rewrite lookup_insert_eq. simpl.
  assert (Hsame : default App.empty_series
            (match App.chartData st !! key with
             | Some _ => App.chartData st
             | None => <[key := App.empty_series]> (App.chartData st)
             end !! key) = default App.empty_series (App.chartData st !! key)).
  { destruct (App.chartData st !! key) eqn:E; [rewrite E | rewrite lookup_insert_eq];
      reflexivity. }
  rewrite Hsame.
  set (s := default App.empty_series (App.chartData st !! key)) in *.
  destruct (Nat.ltb_spec 20 (length (App.prices s ++ [or_else price (JNum 0)])))
    as [Hfull | Hroom];
    cbn [App.prices App.volumes App.timestamps];
    rewrite length_app in *; cbn [length] in *.
  - split; [| split; [| split; [| split]]].
    + rewrite ?length_tail, ?length_app. cbn [length]. lia.
    + rewrite ?length_tail, ?length_app. cbn [length]. lia.
    + rewrite ?length_tail, ?length_app. cbn [length]. lia.
    + destruct (App.prices s) as [| p ps]; [cbn [length] in *; lia |].
      cbn [tail app]. apply last_snoc.
    + destruct (App.timestamps s) as [| t ts]; [cbn [length] in *; lia |].
      cbn [tail app]. apply last_snoc.
  - split; [| split; [| split; [| split]]].
    + rewrite ?length_app. cbn [length]. lia.
    + rewrite ?length_app. cbn [length]. lia.
    + rewrite ?length_app. cbn [length]. lia.
    + apply last_snoc.
    + apply last_snoc.
Qed.

(** C10.  In app.js the arrays [prices], [volumes] and [timestamps] of
    every entry of [chartData] have one length, at most 20: this holds of
    the instance as constructed, every call of [updateChartData] (the one
    that creates the entry included) preserves it, and so it holds after
    every sequence of calls.  A call that reaches the push adds one element
    to each of the three arrays of its symbol, the new price and label
    last, and once they hold 20 the oldest element leaves each of them. *)
Theorem chart_arrays_have_equal_length :
  map_Forall (fun _ s => aligned s) (App.chartData App.initial) /\
  (forall st symbol stockData now,
      map_Forall (fun _ s => aligned s) (App.chartData st) ->
      map_Forall (fun _ s => aligned s)
                 (App.chartData (App.updateChartData st symbol stockData now).1)) /\
  (forall st symbol stockData now key price,
      map_Forall (fun _ s => aligned s) (App.chartData st) ->
      to_string symbol = Some key ->
      get stockData "price" = Some price ->
      finds_inherited (App.chartData st) key = false ->
      let s := Runs.app_buffer st key in
      let s' := Runs.app_buffer (App.updateChartData st symbol stockData now).1 key in
      length (App.prices s') = Nat.min 20 (S (length (App.prices s))) /\
      length (App.volumes s') = length (App.prices s') /\
      length (App.timestamps s') = length (App.prices s') /\
      last (App.prices s') = Some (or_else price (JNum 0)) /\
      last (App.timestamps s') = Some now) /\
  (forall calls : list Runs.chart_call,
      map_Forall (fun _ s =>
                    length (App.prices s) = length (App.volumes s) /\
                    length (App.volumes s) = length (App.timestamps s) /\
                    (length (App.prices s) <= 20)%nat)
                 (App.chartData (Runs.app_charts App.initial calls))).
Proof.
  split; [| split; [| split]].
  - apply map_Forall_empty.
  - apply aligned_preserved.
  - intros st symbol stockData now key price Hall Hkey Hprice Hfound.
    apply app_chart_grows; try assumption. apply aligned_buffer, Hall.
  - intros calls.
    assert (Hall : map_Forall (fun _ s => aligned s)
                     (App.chartData (Runs.app_charts App.initial calls))).
    { induction calls as [| c calls IH] using rev_ind.
      - apply map_Forall_empty.
      - rewrite app_charts_snoc. apply aligned_preserved, IH. }
    intros key s Hs. destruct (Hall key s Hs) as (Hv & Ht & Hp).
    repeat split; [congruence | congruence | exact Hp].
Qed.

Lemma chart_arrays_have_equal_length_witness :
  let full := Runs.app_charts App.initial (quote_call <$> seq 0 20) in
  let st := (App.updateChartData full (JStr "AAPL")
               (JObj {[ "price" := JNum 189.5 ]}) "10:00:21").1 in
  map_Forall (fun _ s => aligned s) (App.chartData st) /\
  length (App.prices (Runs.app_buffer full "AAPL")) = 20%nat /\
  length (App.prices (Runs.app_buffer st "AAPL")) = 20%nat /\
  length (App.volumes (Runs.app_buffer st "AAPL")) = 20%nat /\
  length (App.timestamps (Runs.app_buffer st "AAPL")) = 20%nat /\
  last (App.prices (Runs.app_buffer st "AAPL")) = Some (JNum 189.5) /\
  last (App.timestamps (Runs.app_buffer st "AAPL")) = Some "10:00:21".
Proof.
  cbv zeta.
  destruct chart_arrays_have_equal_length as (_ & Hkept & Hgrows & Hruns).
  assert (Hfull : map_Forall (fun _ s => aligned s)
                    (App.chartData (Runs.app_charts App.initial (quote_call <$> seq 0 20)))).
  { intros key s Hs. destruct (Hruns (quote_call <$> seq 0 20) key s Hs) as (Hpv & Hvt & Hp).
    repeat split; [congruence | congruence | exact Hp]. }
  split; [apply Hkept, Hfull |].
  split; [vm_compute; reflexivity |].
  destruct (Hgrows (Runs.app_charts App.initial (quote_call <$> seq 0 20)) (JStr "AAPL")
              (JObj {[ "price" := JNum 189.5 ]}) "10:00:21" "AAPL" (JNum 189.5) Hfull)
    as (Hp & Hv & Ht & Hlast & Hlabel);
    [reflexivity | reflexivity | vm_compute; reflexivity |].
  cbv zeta in Hp, Hv, Ht, Hlast, Hlabel.
  assert (Hlen : length (App.prices
                   (Runs.app_buffer
                      (Runs.app_charts App.initial (quote_call <$> seq 0 20)) "AAPL"))
                 = 20%nat) by (vm_compute; reflexivity).
  rewrite Hlen in Hp. change (Nat.min 20 21) with 20%nat in Hp.
  rewrite Hv, Ht, Hp. repeat split; assumption.
Defined.

(** ** Recent alerts *)

Lemma unshift_pop {A} (a : A) (l : list A) :
  (length l <= 20)%nat ->
  (if (20 <? length (a :: l))%nat then removelast (a :: l) else a :: l)
  = take 20 (a :: l).
Proof.
  intros Hl. destruct (Nat.ltb_spec 20 (length (a :: l))) as [Hlt | Hge].
  - rewrite removelast_firstn_len. simpl length in *.
    replace (Nat.pred (S (length l))) with 20%nat by lia. reflexivity.
  - rewrite take_ge by lia. reflexivity.
Qed.

Section Alerts.
Context `{Host}.

Lemma app_alerts_of_display st : App.alerts (App.updateAlertsDisplay st).1 = App.alerts st.
Proof.
  unfold App.updateAlertsDisplay.
  destruct (App.alerts st) as [| a l] eqn:E; [simpl; exact E |].
  destruct (mapM App.alert_item (a :: l)); simpl; exact E.
Qed.

Lemma app_handleAlert_alerts st a :
  (length (App.alerts st) <= 20)%nat ->
  App.alerts (App.handleAlert st a).1 = take 20 (a :: App.alerts st).
Proof.
  intros Hl. unfold App.handleAlert.
  rewrite app_alerts_of_display. simpl. apply unshift_pop, Hl.
Qed.

Lemma app_alerts_snoc st events a :
  Runs.app_alerts st (events ++ [a]) = (App.handleAlert (Runs.app_alerts st events) a).1.
Proof. unfold Runs.app_alerts. rewrite foldl_app. reflexivity. Qed.

Lemma app_alerts_run events :
  App.alerts (Runs.app_alerts App.initial events) = take 20 (rev events).
Proof.
  induction events as [| a events IH] using rev_ind.
  - reflexivity.
  - rewrite app_alerts_snoc, app_handleAlert_alerts
      by (rewrite IH, length_take; lia).
    rewrite IH, rev_unit. simpl. rewrite take_take. reflexivity.
Qed.

Lemma fixed_alerts_of_display st :
  AppFixed.alerts (AppFixed.updateAlertsDisplay st).1 = AppFixed.alerts st.
Proof.
  unfold AppFixed.updateAlertsDisplay.
  destruct (mapM AppFixed.alert_item _); reflexivity.
Qed.

Lemma fixed_alerts_snoc st events a :
  Runs.fixed_alerts st (events ++ [a])
  = (AppFixed.handleAlert (Runs.fixed_alerts st events) a).1.
Proof. unfold Runs.fixed_alerts. rewrite foldl_app. reflexivity. Qed.

Lemma fixed_alerts_run st events :
  AppFixed.alerts (Runs.fixed_alerts st events) = AppFixed.alerts st ++ events.
Proof.
  induction events as [| a events IH] using rev_ind.
  - rewrite app_nil_r. reflexivity.
  - rewrite fixed_alerts_snoc. unfold AppFixed.handleAlert.
    rewrite fixed_alerts_of_display. simpl. rewrite IH, app_assoc. reflexivity.
Qed.

(** C2, as amended.  In app.js the list [this.alerts] holds, newest first,
    the 20 most recent alerts: every [handleAlert] puts the new alert in
    front of the first 20 of what was there, so a full list loses its oldest
    alert.  In app_fixed.js [handleAlert] appends and evicts nothing: the
    list holds all the alerts received, in arrival order, until
    [clearAlerts] empties it. *)
Theorem recent_alerts_lists :
  (forall events : list jsval,
      App.alerts (Runs.app_alerts App.initial events) = take 20 (rev events) /\
      (length (App.alerts (Runs.app_alerts App.initial events)) <= 20)%nat) /\
  (forall (events : list jsval) (a : jsval),
      App.alerts (Runs.app_alerts App.initial (events ++ [a]))
      = take 20 (a :: App.alerts (Runs.app_alerts App.initial events))) /\
  (forall (st : AppFixed.state) (events : list jsval),
      AppFixed.alerts (Runs.fixed_alerts st events) = AppFixed.alerts st ++ events) /\
  (forall st : AppFixed.state, AppFixed.alerts (AppFixed.clearAlerts st).1 = []).
Proof.
  split; [| split; [| split]].
  - intros events. rewrite app_alerts_run, length_take. split; [reflexivity | lia].
  - intros events a. rewrite app_alerts_snoc.
    apply app_handleAlert_alerts. rewrite app_alerts_run, length_take. lia.
  - apply fixed_alerts_run.
  - intros st. unfold AppFixed.clearAlerts. rewrite fixed_alerts_of_display. reflexivity.
Qed.

End Alerts.

(** C2 as stated fails for app_fixed.js: 21 alerts leave 21 entries, and no
    capacity bounds the list. *)
Lemma fixed_alerts_not_bounded :
  length (AppFixed.alerts
            (@Runs.fixed_alerts AsciiHost.host AppFixed.initial
               (replicate 21 (JObj {[ "symbol" := JStr "AAPL" ]})))) = 21%nat /\
  ~ (exists cap : nat, forall events : list jsval,
        (length (AppFixed.alerts
                   (@Runs.fixed_alerts AsciiHost.host AppFixed.initial events))
         <= cap)%nat).
Proof.
  split.
  - vm_compute. reflexivity.
  - intros [cap Hcap].
    specialize (Hcap (replicate (S cap) JNull)).
    rewrite fixed_alerts_run in Hcap. simpl in Hcap.
    rewrite length_replicate in Hcap. lia.
Qed.

(** ** Stale samples *)

(** C3.  When the series of [(sym, t)] has a last sample and the appended
    sample is no newer than it, [append] returns [Stale], leaves the store
    (the series and the snapshot attached to it) as it was, and publishes
    nothing. *)
Theorem stale_append_changes_nothing
    (snapshot : Type) (no_indicators : snapshot)
    (recompute : list SeriesStore.sample -> snapshot -> snapshot)
    (capacity : SeriesStore.tier -> nat)
    (store : gmap (string * SeriesStore.tier) (SeriesStore.entry snapshot))
    (sym : string) (t : SeriesStore.tier) (s newest : SeriesStore.sample)
    (e : SeriesStore.entry snapshot) :
  store !! (sym, t) = Some e ->
  last (SeriesStore.series snapshot e) = Some newest ->
  SeriesStore.timestamp s <= SeriesStore.timestamp newest ->
  SeriesStore.append snapshot no_indicators recompute capacity store sym t s
  = (SeriesStore.Stale, store, []).
Proof.
  intros Hentry Hlast Hts.
  unfold SeriesStore.append, SeriesStore.is_stale.
  rewrite Hentry. simpl. rewrite Hlast.
  destruct (Z.leb_spec (SeriesStore.timestamp s) (SeriesStore.timestamp newest));
    [reflexivity | lia].
Qed.

Lemma stale_append_changes_nothing_witness :
  SeriesStore.append float 0%float SeriesStore.volume_sum (fun _ => 20%nat)
    one_tick_store "AAPL" SeriesStore.Realtime repeated_tick
  = (SeriesStore.Stale, one_tick_store, []).
Proof.
  apply (stale_append_changes_nothing float 0%float SeriesStore.volume_sum
           (fun _ => 20%nat) one_tick_store "AAPL" SeriesStore.Realtime
           repeated_tick first_tick
           {| SeriesStore.series := [first_tick];
              SeriesStore.indicators := SeriesStore.volume_sum [first_tick] 0%float |}).
  - reflexivity.
  - reflexivity.
  - simpl. lia.
Defined.

(** ** Field names of the feeds *)

Lemma agree_cons k names a b :
  Feed.agree (k :: names) a b <-> get a k = get b k /\ Feed.agree names a b.
Proof.
  unfold Feed.agree. split.
  - inversion 1; subst. split; assumption.
  - intros [Hk Hrest]. constructor; assumption.
Qed.

Ltac use_agree H :=
  repeat (apply agree_cons in H; let E := fresh "E" in destruct H as [E H]).

Lemma carries_get names o k :
  dom o = list_to_set names ->
  get (JObj o) k = Some JUndefined \/ (k ∈ names /\ exists v, o !! k = Some v).
Proof.
  intros Hdom. simpl. destruct (o !! k) as [v |] eqn:E; [right | left; reflexivity].
  split; [| eauto].
  assert (Hin : k ∈ dom o) by (apply elem_of_dom; eauto).
  rewrite Hdom in Hin. apply elem_of_list_to_set in Hin. exact Hin.
Qed.

Lemma carries_absent names v k :
  Feed.carries names v -> k ∉ names -> get v k = Some JUndefined.
Proof.
  intros (o & -> & Hdom) Hk.
  destruct (carries_get names o k Hdom) as [Hget | [Hin _]]; [exact Hget | contradiction].
Qed.

(** *** stock_update *)

Lemma app_chart_keeps_stocks st symbol stockData now :
  App.stocks (App.updateChartData st symbol stockData now).1 = App.stocks st.
Proof.
  unfold App.updateChartData.
  destruct (to_string symbol) as [key |]; [| reflexivity].
  destruct (finds_inherited _ key); [reflexivity |].
  destruct (get stockData "price"); reflexivity.
Qed.

Lemma app_chart_keeps_proto st symbol stockData now :
  App.stocksProto (App.updateChartData st symbol stockData now).1 = App.stocksProto st.
Proof.
  unfold App.updateChartData.
  destruct (to_string symbol) as [key |]; [| reflexivity].
  destruct (finds_inherited _ key); [reflexivity |].
  destruct (get stockData "price"); reflexivity.
Qed.

Lemma fixed_chart_keeps_stocks st symbol stockData env :
  AppFixed.stocks (AppFixed.updateChartData st symbol stockData env).1 = AppFixed.stocks st.
Proof.
  unfold AppFixed.updateChartData.
  destruct (get stockData "price") as [price |]; [| reflexivity].
  destruct (truthy price); [| reflexivity].
  destruct (to_string symbol) as [key |]; [| reflexivity].
  destruct (finds_inherited _ key); reflexivity.
Qed.

Lemma fixed_chart_keeps_proto st symbol stockData env :
  AppFixed.stocksProto (AppFixed.updateChartData st symbol stockData env).1
  = AppFixed.stocksProto st.
Proof.
  unfold AppFixed.updateChartData.
  destruct (get stockData "price") as [price |]; [| reflexivity].
  destruct (truthy price); [| reflexivity].
  destruct (to_string symbol) as [key |]; [| reflexivity].
  destruct (finds_inherited _ key); reflexivity.
Qed.

(** What [this.stocks[key] = entry] leaves to be read back. *)
Lemma app_store_reads_back st key entry :
  (key <> "__proto__" -> App.stocks (App.store_stock st key entry) !! key = Some entry) /\
  (key = "__proto__" ->
   App.stocks (App.store_stock st key entry) !! key = Some entry \/
   App.stocksProto (App.store_stock st key entry) = Some entry).
Proof.
  unfold App.store_stock. split.
  - intros Hne. destruct (String.eqb_spec key "__proto__"); [contradiction |].
    simpl. apply lookup_insert_eq.
  - intros ->. simpl. destruct (negb (App.shadows_proto st)); simpl.
    + right. reflexivity.
    + left. apply lookup_insert_eq.
Qed.

Lemma fixed_store_reads_back st key entry :
  (key <> "__proto__" ->
   AppFixed.stocks (AppFixed.store_stock st key entry) !! key = Some entry) /\
  (key = "__proto__" ->
   AppFixed.stocks (AppFixed.store_stock st key entry) !! key = Some entry \/
   AppFixed.stocksProto (AppFixed.store_stock st key entry) = Some entry).
Proof.
  unfold AppFixed.store_stock. split.
  - intros Hne. destruct (String.eqb_spec key "__proto__"); [contradiction |].
    simpl. apply lookup_insert_eq.
  - intros ->. simpl. destruct (negb (AppFixed.shadows_proto st)); simpl.
    + right. reflexivity.
    + left. apply lookup_insert_eq.
Qed.

Section StockUpdate.
Context `{Host}.

(** A readable message leaves [this.stocks] as the assignment of its
    entry does, whether or not the handler runs to its end. *)
Lemma app_update_stocks st msg now symbol stockData timestamp key :
  get msg "symbol" = Some symbol -> get msg "data" = Some stockData ->
  get msg "timestamp" = Some timestamp -> to_string symbol = Some key ->
  let stored :=
    App.store_stock st key (<["lastUpdate" := timestamp]> (spread stockData)) in
  App.stocks (App.handleStockUpdate st msg now).1 = App.stocks stored /\
  App.stocksProto (App.handleStockUpdate st msg now).1 = App.stocksProto stored.
Proof.
  intros Hs Hd Ht Hkey. cbv zeta. unfold App.handleStockUpdate.
  rewrite Hs, Hd, Ht, Hkey. cbv zeta.
  match goal with
  | |- context [App.updateStockDisplay ?s] => destruct (App.updateStockDisplay s)
  end; [| split; reflexivity].
  rewrite app_chart_keeps_stocks, app_chart_keeps_proto. split; reflexivity.
Qed.

Lemma fixed_update_stocks st msg env symbol stockData timestamp key :
  get msg "symbol" = Some symbol -> get msg "data" = Some stockData ->
  get msg "timestamp" = Some timestamp -> to_string symbol = Some key ->
  let stored :=
    AppFixed.store_stock st key
      (<["lastUpdate" := timestamp]> (<["symbol" := symbol]> (spread stockData))) in
  AppFixed.stocks (AppFixed.handleStockUpdate st msg env).1 = AppFixed.stocks stored /\
  AppFixed.stocksProto (AppFixed.handleStockUpdate st msg env).1
  = AppFixed.stocksProto stored.
Proof.
  intros Hs Hd Ht Hkey. cbv zeta. unfold AppFixed.handleStockUpdate.
  rewrite Hs, Hd, Ht, Hkey. cbv zeta.
  match goal with
  | |- context [AppFixed.updateStockDisplay ?s ?t] =>
      destruct (AppFixed.updateStockDisplay s t)
  end; [| split; reflexivity].
  rewrite fixed_chart_keeps_stocks, fixed_chart_keeps_proto. split; reflexivity.
Qed.

Lemma app_update_without_data st msg now :
  get msg "data" = Some JUndefined -> (App.handleStockUpdate st msg now).2 = Threw.
Proof.
  intros Hdata. unfold App.handleStockUpdate. rewrite Hdata.
  destruct (get msg "symbol") as [symbol |]; [| reflexivity].
  destruct (get msg "timestamp") as [timestamp |]; [| reflexivity].
  destruct (to_string symbol) as [key |] eqn:Hkey; [| reflexivity].
  cbv zeta.
  match goal with
  | |- context [App.updateStockDisplay ?s] => destruct (App.updateStockDisplay s)
  end; [| reflexivity].
  unfold App.updateChartData. rewrite Hkey.
  destruct (finds_inherited _ key); reflexivity.
Qed.

Lemma fixed_update_without_data st msg env :
  get msg "data" = Some JUndefined -> (AppFixed.handleStockUpdate st msg env).2 = Threw.
Proof.
  intros Hdata. unfold AppFixed.handleStockUpdate. rewrite Hdata.
  destruct (get msg "symbol") as [symbol |]; [| reflexivity].
  destruct (get msg "timestamp") as [timestamp |]; [| reflexivity].
  destruct (to_string symbol) as [key |] eqn:Hkey; [| reflexivity].
  cbv zeta.
  match goal with
  | |- context [AppFixed.updateStockDisplay ?s ?t] =>
      destruct (AppFixed.updateStockDisplay s t)
  end; reflexivity.
Qed.

(** C4, as amended.  [handleStockUpdate] reads the members [symbol], [data]
    and [timestamp] of a stock_update message and no other: two messages
    that agree on these three are handled alike.  The quote is the member
    [data]: what [this.stocks[symbol]] reads back is the copy of [data] with
    [lastUpdate] set to [timestamp] (and [symbol] set, in app_fixed.js),
    held as an entry of [this.stocks], or, for the symbol [__proto__] that
    reaches the inherited setter, as its prototype.  A message that
    carries exactly [symbol], [tier], [sample], [indicatorSnapshot] and
    [timestamp] has no [data], and the handler stops on a [TypeError]. *)
Theorem stock_update_read_through_data :
  (forall m1 m2 : jsval,
      Feed.agree ["symbol"; "data"; "timestamp"] m1 m2 ->
      (forall st now, App.handleStockUpdate st m1 now = App.handleStockUpdate st m2 now) /\
      (forall st env,
          AppFixed.handleStockUpdate st m1 env = AppFixed.handleStockUpdate st m2 env)) /\
  (forall (msg symbol stockData timestamp : jsval) (key : string),
      get msg "symbol" = Some symbol ->
      get msg "data" = Some stockData ->
      get msg "timestamp" = Some timestamp ->
      to_string symbol = Some key ->
      (forall st now,
          let st' := (App.handleStockUpdate st msg now).1 in
          let entry := <["lastUpdate" := timestamp]> (spread stockData) in
          (key <> "__proto__" -> App.stocks st' !! key = Some entry) /\
          (key = "__proto__" ->
           App.stocks st' !! key = Some entry \/ App.stocksProto st' = Some entry)) /\
      (forall st env,
          let st' := (AppFixed.handleStockUpdate st msg env).1 in
          let entry :=
            <["lastUpdate" := timestamp]> (<["symbol" := symbol]> (spread stockData)) in
          (key <> "__proto__" -> AppFixed.stocks st' !! key = Some entry) /\
          (key = "__proto__" ->
           AppFixed.stocks st' !! key = Some entry \/
           AppFixed.stocksProto st' = Some entry))) /\
  (forall msg : jsval,
      Feed.carries Feed.instrument_update_fields msg ->
      (forall st now, (App.handleStockUpdate st msg now).2 = Threw) /\
      (forall st env, (AppFixed.handleStockUpdate st msg env).2 = Threw)).
Proof.
  split; [| split].
  - intros m1 m2 Hagree. use_agree Hagree.
    split; intros st ?.
    + unfold App.handleStockUpdate. rewrite E, E0, E1. reflexivity.
    + unfold AppFixed.handleStockUpdate. rewrite E, E0, E1. reflexivity.
  - intros msg symbol stockData timestamp key Hs Hd Ht Hkey.
    split; intros st ?; cbv zeta.
    + destruct (app_update_stocks st msg now symbol stockData timestamp key Hs Hd Ht Hkey)
        as [-> ->].
      apply app_store_reads_back.
    + destruct (fixed_update_stocks st msg env symbol stockData timestamp key Hs Hd Ht Hkey)
        as [-> ->].
      apply fixed_store_reads_back.
  - intros msg Hmsg.
    assert (Hdata : get msg "data" = Some JUndefined).
    { apply (carries_absent _ _ _ Hmsg). by_decide. }
    split; intros st ?.
    + apply app_update_without_data, Hdata.
    + apply fixed_update_without_data, Hdata.
Qed.

End StockUpdate.

Lemma stock_update_read_through_data_witness :
  App.handleStockUpdate (H := AsciiHost.host) App.initial (quote_update (JStr "realtime"))
    "10:00:01"
  = App.handleStockUpdate (H := AsciiHost.host) App.initial (quote_update (JStr "day"))
      "10:00:01"
  /\ App.stocks
       (App.handleStockUpdate (H := AsciiHost.host) App.initial
          (quote_update JNull) "10:00:01").1 !! "AAPL"
     = Some (<["lastUpdate" := JStr "2026-01-05T10:00:00Z"]>
               (spread (JObj (list_to_map
                  [("price", JNum 189.5); ("volume", JNum 1234567)]))))
  /\ (AppFixed.handleStockUpdate (H := AsciiHost.host) AppFixed.initial
        (engine_update "realtime" 100) ten_o_clock).2 = Threw.
Proof.
  destruct (stock_update_read_through_data (H := AsciiHost.host))
    as (Hsame & Hentry & Hengine).
  split; [| split].
  - apply (Hsame (quote_update (JStr "realtime")) (quote_update (JStr "day"))).
    repeat constructor.
  - apply (Hentry (quote_update JNull) (JStr "AAPL") _ (JStr "2026-01-05T10:00:00Z") "AAPL");
      try reflexivity. discriminate.
  - apply (Hengine (engine_update "realtime" 100)).
    eexists. split; [reflexivity |]. by_decide.
Defined.

(** C4 as stated fails: an instrument update with exactly the members
    [symbol], [tier], [sample], [indicatorSnapshot] and [timestamp] is not
    read by the handlers.  They stop on a [TypeError], the entry stored for
    the symbol holds no quote, no point reaches the chart, and another
    tier, sample and snapshot give the very same result. *)
Lemma stock_update_does_not_read_sample :
  Feed.carries Feed.instrument_update_fields (engine_update "realtime" 100) /\
  Feed.carries Feed.instrument_update_fields (engine_update "minute" 200) /\
  (let r := App.handleStockUpdate (H := AsciiHost.host) App.initial
              (engine_update "realtime" 100) "10:00:01" in
   r.2 = Threw /\
   App.stocks r.1 !! "AAPL" = Some {[ "lastUpdate" := JStr "2026-01-05T10:00:00Z" ]} /\
   App.chartData r.1 !! "AAPL" = Some App.empty_series /\
   r = App.handleStockUpdate (H := AsciiHost.host) App.initial
         (engine_update "minute" 200) "10:00:01") /\
  (let r := AppFixed.handleStockUpdate (H := AsciiHost.host) AppFixed.initial
              (engine_update "realtime" 100) ten_o_clock in
   r.2 = Threw /\
   AppFixed.stocks r.1 !! "AAPL"
   = Some (<["lastUpdate" := JStr "2026-01-05T10:00:00Z"]> {[ "symbol" := JStr "AAPL" ]}) /\
   AppFixed.chartData r.1 !! "AAPL" = None /\
   r = AppFixed.handleStockUpdate (H := AsciiHost.host) AppFixed.initial
         (engine_update "minute" 200) ten_o_clock).
Proof.
  split; [| split; [| split]].
  - eexists. split; [reflexivity |]. by_decide.
  - eexists. split; [reflexivity |]. by_decide.
  - repeat split; vm_compute; reflexivity.
  - repeat split; vm_compute; reflexivity.
Qed.

(** A stock_update for the symbol [__proto__]: the assignment reaches the
    inherited setter, so the copy of [data] becomes the prototype of
    [this.stocks] and no entry, hence no card, is added; the chart lookup
    then ends on the inherited member and the handler stops. *)
Example stock_update_for_proto :
  let r := App.handleStockUpdate (H := AsciiHost.host) App.initial
             (quote_for "__proto__" [("price", JNum 189.5)]) "10:00:01" in
  r.2 = Threw /\ App.stocks r.1 = ∅ /\ App.chartData r.1 = ∅ /\
  App.stocksProto r.1
  = Some (<["lastUpdate" := JStr "2026-01-05T10:00:00Z"]> {[ "price" := JNum 189.5 ]}).
Proof.
  cbv zeta.
  split; [vm_compute; reflexivity |]. split; [vm_compute; reflexivity |].
  split; vm_compute; reflexivity.
Qed.

(** A stock_update for the symbol [constructor]: the quote is stored and
    rendered, and the chart lookup ends on the inherited function: nothing
    is charted. *)
Example stock_update_for_constructor :
  let r := App.handleStockUpdate (H := AsciiHost.host) App.initial
             (quote_for "constructor" [("price", JNum 189.5)]) "10:00:01" in
  let f := AppFixed.handleStockUpdate (H := AsciiHost.host) AppFixed.initial
             (quote_for "constructor" [("price", JNum 189.5)]) ten_o_clock in
  r.2 = Threw /\ App.chartData r.1 = ∅ /\
  App.stocks r.1 !! "constructor"
  = Some (<["lastUpdate" := JStr "2026-01-05T10:00:00Z"]> {[ "price" := JNum 189.5 ]}) /\
  f.2 = Threw /\ AppFixed.chartData f.1 = ∅ /\
  AppFixed.stocks f.1 !! "constructor"
  = Some (<["lastUpdate" := JStr "2026-01-05T10:00:00Z"]>
            (<["symbol" := JStr "constructor"]> {[ "price" := JNum 189.5 ]})).
Proof.
  cbv zeta.
  split; [vm_compute; reflexivity |]. split; [vm_compute; reflexivity |].
  split; [vm_compute; reflexivity |]. split; [vm_compute; reflexivity |].
  split; vm_compute; reflexivity.
Qed.

(** *** alert *)

Section AlertDisplay.
Context `{Host}.

(** C5.  The alert rendering of app.js reads the members [type], [symbol],
    [timestamp] and [message] of an alert, that of app_fixed.js the members
    [symbol], [message] and [timestamp]: alerts that agree on them are
    rendered alike.  Each of these names is a field of the AlertEvent
    structure, so an event that carries that structure has all of them.
    The rendered item shows the string of [symbol], the time of
    [timestamp] and the string of [message], and app.js takes the class of
    the item from [type]. *)
Theorem alert_display_reads_alert_event_fields :
  Forall (fun k => k ∈ Feed.alert_event_fields) ["type"; "symbol"; "timestamp"; "message"] /\
  (forall a b : jsval,
      Feed.agree ["type"; "symbol"; "timestamp"; "message"] a b ->
      App.alert_item a = App.alert_item b) /\
  (forall a b : jsval,
      Feed.agree ["symbol"; "message"; "timestamp"] a b ->
      AppFixed.alert_item a = AppFixed.alert_item b) /\
  (forall a : jsval,
      Feed.carries Feed.alert_event_fields a ->
      exists o : gmap string jsval,
        a = JObj o /\
        Forall (fun k => is_Some (o !! k)) ["type"; "symbol"; "timestamp"; "message"]) /\
  (forall (o : gmap string jsval) (type symbol time message : string),
      to_string (or_else (field o "type") (JStr "warning")) = Some type ->
      to_string (field o "symbol") = Some symbol ->
      date_time (field o "timestamp") = Some time ->
      to_string (field o "message") = Some message ->
      App.alert_item (JObj o)
      = Some (Tag "div" ("alert-item " +:+ type)
                [ Tag "div" "alert-header"
                    [ Tag "span" "alert-symbol" [Raw symbol];
                      Tag "span" "alert-time" [Raw time] ];
                  Tag "div" "alert-message" [Raw message] ]) /\
      AppFixed.alert_item (JObj o)
      = Some (Tag "div" "alert"
                [ Tag "div" "alert-symbol" [Raw symbol];
                  Tag "div" "alert-message" [Raw message];
                  Tag "div" "alert-time" [Raw time] ])).
Proof.
  split; [| split; [| split; [| split]]].
  - repeat constructor; by_decide.
  - intros a b Hagree. use_agree Hagree.
    unfold App.alert_item. rewrite E, E0, E1, E2. reflexivity.
  - intros a b Hagree. use_agree Hagree.
    unfold AppFixed.alert_item. rewrite E, E0, E1. reflexivity.
  - intros a (o & -> & Hdom). exists o. split; [reflexivity |].
    assert (Hin : forall k, k ∈ Feed.alert_event_fields -> is_Some (o !! k)).
    { intros k Hk. apply elem_of_dom. rewrite Hdom.
      apply elem_of_list_to_set, Hk. }
    repeat constructor; apply Hin; by_decide.
  - intros o type symbol time message Htype Hsymbol Htime Hmessage.
    unfold App.alert_item, AppFixed.alert_item, field in *. simpl.
    rewrite Htype, Hsymbol, Htime, Hmessage. split; reflexivity.
Qed.

End AlertDisplay.

Lemma alert_display_reads_alert_event_fields_witness :
  App.alert_item (H := AsciiHost.host) (price_alert "medium" 0.0625)
  = App.alert_item (H := AsciiHost.host) (price_alert "high" 0.125)
  /\ AppFixed.alert_item (H := AsciiHost.host) (price_alert "medium" 0.0625)
     = AppFixed.alert_item (H := AsciiHost.host) (price_alert "high" 0.125)
  /\ exists o : gmap string jsval,
       price_alert "medium" 0.0625 = JObj o /\
       Forall (fun k => is_Some (o !! k)) ["type"; "symbol"; "timestamp"; "message"].
Proof.
  destruct (alert_display_reads_alert_event_fields (H := AsciiHost.host))
    as (_ & Happ & Hfixed & Hpresent & _).
  split; [| split].
  - apply Happ. repeat constructor.
  - apply Hfixed. repeat constructor.
  - apply Hpresent. eexists. split; [reflexivity |]. by_decide.
Defined.

Example alert_rendered_in_app :
  App.alert_item (H := AsciiHost.host) (price_alert "medium" 0.0625)
  = Some (Tag "div" "alert-item price_abnormal"
            [ Tag "div" "alert-header"
                [ Tag "span" "alert-symbol" [Raw "AAPL"];
                  Tag "span" "alert-time" [Raw "10:00:00"] ];
              Tag "div" "alert-message" [Raw "AAPL moved 6%"] ]).
Proof. vm_compute. reflexivity. Qed.

(** *** status *)

Section Status.
Context `{Host}.

Lemma app_system_info_agree d1 d2 :
  Feed.agree
    ["status"; "monitored_symbols"; "active_alerts"; "last_update"; "uptime"; "server_time"]
    d1 d2 ->
  App.updateSystemInfo d1 = App.updateSystemInfo d2 /\ get d1 "status" = get d2 "status".
Proof.
  intros Hagree. use_agree Hagree.
  unfold App.updateSystemInfo. rewrite E, E0, E1, E2, E3, E4. split; reflexivity.
Qed.

Lemma app_system_info_of_status data :
  Feed.is_status data -> is_Some (App.updateSystemInfo data).
Proof.
  intros [Hcarries _].
  unfold App.updateSystemInfo.
  rewrite !(carries_absent _ _ _ Hcarries) by by_decide.
  simpl. eauto.
Qed.

(** C6, as amended.  [loadSystemStatus] decides whether the engine is
    running from the string member [status]: when the system panel renders,
    app.js sets [isMonitoring] to [status === 'running'], and app_fixed.js
    shows the running state exactly when [status === 'running'].  app.js
    reads [status], [monitored_symbols], [active_alerts], [last_update],
    [uptime] and [server_time], app_fixed.js reads [status] alone; the
    member [running] is not read, and an object with exactly the members
    [running], [symbolCount], [activeAlertCount] and [lastUpdate] is taken
    as not running whatever [running] holds. *)
Theorem running_decided_from_status_member :
  (forall (st : App.state) (data : jsval) (rows : list markup),
      App.updateSystemInfo data = Some rows ->
      App.isMonitoring (App.loadSystemStatus st (Some data))
      = is_string (default JUndefined (get data "status")) "running") /\
  (forall (st : AppFixed.state) (data status : jsval),
      get data "status" = Some status ->
      AppFixed.loadSystemStatus st (Some data)
      = if is_string status "running"
        then AppFixed.updateStatus st "系统运行中" "running"
        else st) /\
  (forall (d1 d2 : jsval),
      Feed.agree
        ["status"; "monitored_symbols"; "active_alerts"; "last_update"; "uptime";
         "server_time"] d1 d2 ->
      forall st, App.loadSystemStatus st (Some d1) = App.loadSystemStatus st (Some d2)) /\
  (forall (d1 d2 : jsval),
      Feed.agree ["status"] d1 d2 ->
      forall st,
        AppFixed.loadSystemStatus st (Some d1) = AppFixed.loadSystemStatus st (Some d2)) /\
  (forall data : jsval,
      Feed.is_status data ->
      (forall st, App.isMonitoring (App.loadSystemStatus st (Some data)) = false) /\
      (forall st, AppFixed.loadSystemStatus st (Some data) = st)).
Proof.
  split; [| split; [| split; [| split]]].
  - intros st data rows Hrows. unfold App.loadSystemStatus. rewrite Hrows.
    destruct (is_string _ "running"); [reflexivity |].
    destruct (App.isConnected _); reflexivity.
  - intros st data status Hstatus. unfold AppFixed.loadSystemStatus. simpl.
    rewrite Hstatus. reflexivity.
  - intros d1 d2 Hagree st.
    destruct (app_system_info_agree d1 d2 Hagree) as [Hinfo Hstatus].
    unfold App.loadSystemStatus. rewrite Hinfo, Hstatus. reflexivity.
  - intros d1 d2 Hagree st. use_agree Hagree.
    unfold AppFixed.loadSystemStatus. simpl. rewrite E. reflexivity.
  - intros data Hdata.
    assert (Hstatus : get data "status" = Some JUndefined)
      by (apply (carries_absent _ _ _ (proj1 Hdata)); by_decide).
    split; intros st.
    + destruct (app_system_info_of_status data Hdata) as [rows Hrows].
      unfold App.loadSystemStatus. rewrite Hrows, Hstatus. simpl.
      destruct (App.isConnected st); reflexivity.
    + unfold AppFixed.loadSystemStatus. simpl. rewrite Hstatus. reflexivity.
Qed.

End Status.

Lemma engine_status_is_status running : Feed.is_status (engine_status running).
Proof.
  split.
  - eexists. split; [reflexivity |]. by_decide.
  - exists running. reflexivity.
Qed.

Lemma running_decided_from_status_member_witness :
  App.isMonitoring
    (App.loadSystemStatus (H := AsciiHost.host) App.initial
       (Some (server_status "running" (JBool false)))) = true
  /\ AppFixed.statusText
       (AppFixed.loadSystemStatus AppFixed.initial
          (Some (server_status "running" (JBool false)))) = "系统运行中"
  /\ App.loadSystemStatus (H := AsciiHost.host) App.initial
       (Some (server_status "stopped" (JBool true)))
     = App.loadSystemStatus (H := AsciiHost.host) App.initial
         (Some (server_status "stopped" JUndefined))
  /\ AppFixed.loadSystemStatus AppFixed.initial (Some (server_status "stopped" (JBool true)))
     = AppFixed.loadSystemStatus AppFixed.initial (Some (server_status "stopped" JNull))
  /\ App.isMonitoring
       (App.loadSystemStatus (H := AsciiHost.host) App.initial
          (Some (engine_status true))) = false.
Proof.
  destruct (running_decided_from_status_member (H := AsciiHost.host))
    as (Happ & Hfixed & Happ_reads & Hfixed_reads & Hengine).
  split; [| split; [| split; [| split]]].
  - rewrite (Happ App.initial (server_status "running" (JBool false))
               (default [] (App.updateSystemInfo (H := AsciiHost.host)
                              (server_status "running" (JBool false)))));
      reflexivity.
  - rewrite (Hfixed AppFixed.initial (server_status "running" (JBool false))
               (JStr "running")); reflexivity.
  - apply Happ_reads. repeat constructor.
  - apply Hfixed_reads. repeat constructor.
  - apply (Hengine (engine_status true)). apply engine_status_is_status.
Defined.

(** C6 as stated fails: a status object with the members [running],
    [symbolCount], [activeAlertCount] and [lastUpdate] is read as not
    running when [running] is true, and the two values of [running] leave
    the same state. *)
Lemma running_member_is_not_read :
  Feed.is_status (engine_status true) /\
  Feed.is_status (engine_status false) /\
  App.isMonitoring
    (App.loadSystemStatus (H := AsciiHost.host) App.initial (Some (engine_status true)))
  = false /\
  App.loadSystemStatus (H := AsciiHost.host) App.initial (Some (engine_status true))
  = App.loadSystemStatus (H := AsciiHost.host) App.initial (Some (engine_status false)) /\
  AppFixed.loadSystemStatus AppFixed.initial (Some (engine_status true)) = AppFixed.initial /\
  AppFixed.loadSystemStatus AppFixed.initial (Some (engine_status false)) = AppFixed.initial.
Proof.
  split; [apply engine_status_is_status |].
  split; [apply engine_status_is_status |].
  repeat split; vm_compute; reflexivity.
Qed.

(** *** market_summary *)

Section MarketSummary.
Context `{Host}.

(** C7, as amended.  [updateMarketOverview] of app.js shows the members
    [stocks_count], [alerts_count] and [last_update] of the summary, that of
    app_fixed.js the members [total_stocks], [total_value],
    [average_change] and [active_clients]: summaries that agree on them are
    shown alike.  None of these names is among [totalSymbols],
    [totalAlertsToday], [averageChange] and [lastUpdate]; for a summary
    with exactly those four members app.js shows the conversions of
    [undefined] and app_fixed.js shows zeros. *)
Theorem market_overview_reads_server_names :
  (forall (s1 s2 : jsval),
      Feed.agree ["stocks_count"; "alerts_count"; "last_update"] s1 s2 ->
      forall st, App.updateMarketOverview st s1 = App.updateMarketOverview st s2) /\
  (forall (s1 s2 : jsval),
      Feed.agree ["total_stocks"; "total_value"; "average_change"; "active_clients"] s1 s2 ->
      forall st, AppFixed.updateMarketOverview st s1 = AppFixed.updateMarketOverview st s2) /\
  Forall (fun k => k ∉ Feed.market_summary_fields)
    ["stocks_count"; "alerts_count"; "last_update";
     "total_stocks"; "total_value"; "average_change"; "active_clients"] /\
  (forall summary : jsval,
      Feed.carries Feed.market_summary_fields summary ->
      (forall st,
          App.marketOverview (App.updateMarketOverview st summary).1
          = [ Tag "div" "system-info"
                [ App.info_item "监控股票数" "undefined";
                  App.info_item "今日告警" "undefined";
                  App.info_item "最后更新" (toLocaleTimeString JUndefined);
                  App.info_item "数据延迟" "< 1秒" ] ]) /\
      (forall st,
          AppFixed.marketOverview (AppFixed.updateMarketOverview st summary).1
          = [ Tag "div" "" [Raw "监控股票: 0"];
              Tag "div" "" [Raw "总市值: $0.00"];
              Tag "div" "" [Raw "平均涨跌: 0.00%"];
              Tag "div" "" [Raw "活跃连接: 0"] ])).
Proof.
  split; [| split; [| split]].
  - intros s1 s2 Hagree st. use_agree Hagree.
    unfold App.updateMarketOverview. rewrite E, E0, E1. reflexivity.
  - intros s1 s2 Hagree st. use_agree Hagree.
    unfold AppFixed.updateMarketOverview. rewrite E, E0, E1, E2. reflexivity.
  - repeat constructor; by_decide.
  - intros summary Hsummary. split; intros st.
    + unfold App.updateMarketOverview.
      rewrite !(carries_absent _ _ _ Hsummary) by by_decide. reflexivity.
    + unfold AppFixed.updateMarketOverview.
      rewrite !(carries_absent _ _ _ Hsummary) by by_decide.
      vm_compute. reflexivity.
Qed.

End MarketSummary.

Lemma market_overview_reads_server_names_witness :
  App.updateMarketOverview (H := AsciiHost.host) App.initial (server_summary (JNum 6))
  = App.updateMarketOverview (H := AsciiHost.host) App.initial (server_summary (JNum 7))
  /\ AppFixed.updateMarketOverview AppFixed.initial (server_summary (JNum 6))
     = AppFixed.updateMarketOverview AppFixed.initial (server_summary (JNum 7))
  /\ AppFixed.marketOverview
       (AppFixed.updateMarketOverview AppFixed.initial (engine_summary 6 2 0.75)).1
     = [ Tag "div" "" [Raw "监控股票: 0"];
         Tag "div" "" [Raw "总市值: $0.00"];
         Tag "div" "" [Raw "平均涨跌: 0.00%"];
         Tag "div" "" [Raw "活跃连接: 0"] ].
Proof.
  destruct (market_overview_reads_server_names (H := AsciiHost.host))
    as (Happ & Hfixed & _ & Hengine).
  split; [| split].
  - apply Happ. repeat constructor.
  - apply Hfixed. repeat constructor.
  - apply (Hengine (engine_summary 6 2 0.75)).
    eexists. split; [reflexivity |]. by_decide.
Defined.

(** C7 as stated fails: a summary with exactly the members [totalSymbols],
    [totalAlertsToday], [averageChange] and [lastUpdate] is shown without
    any of its values, and a summary with other values is shown the same. *)
Lemma market_overview_ignores_summary_fields :
  Feed.carries Feed.market_summary_fields (engine_summary 6 2 0.75) /\
  Feed.carries Feed.market_summary_fields (engine_summary 40 9 (-1.5)) /\
  App.marketOverview
    (App.updateMarketOverview (H := AsciiHost.host) App.initial (engine_summary 6 2 0.75)).1
  = [ Tag "div" "system-info"
        [ App.info_item "监控股票数" "undefined";
          App.info_item "今日告警" "undefined";
          App.info_item "最后更新" "Invalid Date";
          App.info_item "数据延迟" "< 1秒" ] ] /\
  App.updateMarketOverview (H := AsciiHost.host) App.initial (engine_summary 6 2 0.75)
  = App.updateMarketOverview (H := AsciiHost.host) App.initial (engine_summary 40 9 (-1.5)) /\
  AppFixed.marketOverview
    (AppFixed.updateMarketOverview AppFixed.initial (engine_summary 6 2 0.75)).1
  = [ Tag "div" "" [Raw "监控股票: 0"];
      Tag "div" "" [Raw "总市值: $0.00"];
      Tag "div" "" [Raw "平均涨跌: 0.00%"];
      Tag "div" "" [Raw "活跃连接: 0"] ] /\
  AppFixed.updateMarketOverview AppFixed.initial (engine_summary 6 2 0.75)
  = AppFixed.updateMarketOverview AppFixed.initial (engine_summary 40 9 (-1.5)).
Proof.
  split; [eexists; split; [reflexivity | by_decide] |].
  split; [eexists; split; [reflexivity | by_decide] |].
  repeat split; vm_compute; reflexivity.
Qed.

(** ** formatVolume of app.js *)

(** [toFixed] rounds to the nearest multiple of [10^-f]: with [n] the
    integer it prints, [|m * 2^e * 10^f - n| <= 1/2]. *)
Lemma fixed_round_nearest m e f :
  let den := 2 ^ Z.max (- e) 0 in
  let scaled := 2 * m * 10 ^ Z.of_nat f * 2 ^ Z.max e 0 in
  Z.abs (scaled - 2 * den * fixed_round m e f) <= den.
Proof.
  intros den scaled. unfold fixed_round. fold den. fold scaled.
  assert (Hden : 0 < den) by (apply Z.pow_pos_nonneg; lia).
  pose proof (Z.div_mod (scaled + den) (2 * den) ltac:(lia)) as Hdiv.
  pose proof (Z.mod_pos_bound (scaled + den) (2 * den) ltac:(lia)) as Hmod.
  lia.
Qed.

Section FormatVolume.
Context `{Host}.

(** C8.  [formatVolume] of app.js returns ['N/A'] for every falsy volume,
    among them [0], [null] and [undefined], so a volume of 0 is not shown
    as ['0'].  For any other volume [v] whose numeric value is [n]: from
    [10^9] on the result is [(n / 10^9).toFixed(2)] followed by ['B'];
    otherwise from [10^6] on it is [(n / 10^6).toFixed(2)] and ['M'];
    otherwise from [10^3] on it is [(n / 10^3).toFixed(2)] and ['K'];
    otherwise it is [v.toString()], the decimal string of a number. *)
Theorem formatVolume_cases :
  (forall v : jsval, truthy v = false -> App.formatVolume v = Some "N/A") /\
  App.formatVolume (JNum 0) = Some "N/A" /\
  App.formatVolume JNull = Some "N/A" /\
  App.formatVolume JUndefined = Some "N/A" /\
  App.formatVolume (JNum 0) <> Some "0" /\
  (forall (v : jsval) (n : float),
      truthy v = true ->
      to_number v = Some n ->
      ((1e9 <=? n)%float = true ->
       App.formatVolume v = Some (toFixed 2 (n / 1e9)%float +:+ "B")) /\
      ((1e9 <=? n)%float = false -> (1e6 <=? n)%float = true ->
       App.formatVolume v = Some (toFixed 2 (n / 1e6)%float +:+ "M")) /\
      ((1e9 <=? n)%float = false -> (1e6 <=? n)%float = false ->
       (1e3 <=? n)%float = true ->
       App.formatVolume v = Some (toFixed 2 (n / 1e3)%float +:+ "K")) /\
      ((1e9 <=? n)%float = false -> (1e6 <=? n)%float = false ->
       (1e3 <=? n)%float = false ->
       App.formatVolume v = call_toString v)) /\
  (forall x : float,
      to_number (JNum x) = Some x /\ call_toString (JNum x) = Some (number_to_string x)).
Proof.
  split; [| split; [| split; [| split; [| split; [| split]]]]].
  - intros v Hv. unfold App.formatVolume. rewrite Hv. reflexivity.
  - reflexivity.
  - reflexivity.
  - reflexivity.
  - discriminate.
  - intros v n Hv Hn. unfold App.formatVolume. rewrite Hv, Hn. simpl.
    repeat split.
    + intros ->. reflexivity.
    + intros -> ->. reflexivity.
    + intros -> -> ->. reflexivity.
    + intros -> -> ->. reflexivity.
  - intros x. split; reflexivity.
Qed.

End FormatVolume.

Lemma formatVolume_cases_witness :
  App.formatVolume (H := AsciiHost.host) (JNum 2500000000) = Some "2.50B" /\
  App.formatVolume (H := AsciiHost.host) (JNum 1234567) = Some "1.23M" /\
  App.formatVolume (H := AsciiHost.host) (JNum 1500) = Some "1.50K" /\
  App.formatVolume (H := AsciiHost.host) (JNum 999) = Some "999" /\
  App.formatVolume (H := AsciiHost.host) (JStr "") = Some "N/A".
Proof.
  destruct (formatVolume_cases (H := AsciiHost.host))
    as (Hfalsy & _ & _ & _ & _ & Hcases & _).
  split; [| split; [| split; [| split]]].
  - apply (proj1 (Hcases (JNum 2500000000) 2500000000%float eq_refl eq_refl)).
    reflexivity.
  - apply (proj1 (proj2 (Hcases (JNum 1234567) 1234567%float eq_refl eq_refl)));
      reflexivity.
  - apply (proj1 (proj2 (proj2 (Hcases (JNum 1500) 1500%float eq_refl eq_refl))));
      reflexivity.
  - apply (proj2 (proj2 (proj2 (Hcases (JNum 999) 999%float eq_refl eq_refl))));
      reflexivity.
  - apply Hfalsy. reflexivity.
Defined.

(** The quotient is rounded as a double before it is printed: 1005000000
    shows as 1.00B. *)
Example formatVolume_rounds_the_double :
  App.formatVolume (H := AsciiHost.host) (JNum 1005000000) = Some "1.00B".
Proof. vm_compute. reflexivity. Qed.

(** ** addStock of app_fixed.js *)

Section AddStock.
Context `{Host}.

Lemma addStock_emits st symbol :
  subscribes st symbol ->
  AppFixed.addStock st
  = AppFixed.emit_and_clear st "subscribe_stock" (JObj {[ "symbol" := JStr symbol ]}).
Proof.
  intros (Hentered & Hne & _ & Hfree). unfold AppFixed.addStock.
  rewrite Hentered, Hfree.
  destruct (String.eqb_spec symbol ""); [contradiction |].
  reflexivity.
Qed.

Lemma stored_own st symbol entry :
  AppFixed.stocks st !! symbol = Some entry -> AppFixed.stored st symbol = true.
Proof. unfold AppFixed.stored. intros ->. reflexivity. Qed.

Lemma not_stored_absent st symbol :
  AppFixed.stored st symbol = false -> AppFixed.stocks st !! symbol = None.
Proof.
  unfold AppFixed.stored. destruct (AppFixed.stocks st !! symbol); [discriminate | reflexivity].
Qed.

Lemma addStock_silent st :
  (forall symbol, ~ subscribes st symbol) ->
  AppFixed.emitted (AppFixed.addStock st) = AppFixed.emitted st.
Proof.
  intros Hnone. unfold AppFixed.addStock.
  destruct (AppFixed.entered_symbol st) as [symbol |] eqn:Hentered; [| reflexivity].
  destruct (String.eqb_spec symbol ""); [reflexivity |].
  destruct (AppFixed.stored st symbol) eqn:Hstored; [reflexivity |].
  exfalso. apply (Hnone symbol).
  repeat split; try assumption. apply not_stored_absent, Hstored.
Qed.

Lemma addStock_keeps_stocks st : AppFixed.stocks (AppFixed.addStock st) = AppFixed.stocks st.
Proof.
  unfold AppFixed.addStock.
  destruct (AppFixed.entered_symbol st) as [symbol |]; [| reflexivity].
  destruct (String.eqb symbol ""); [reflexivity |].
  destruct (AppFixed.stored st symbol); reflexivity.
Qed.

Lemma addStock_keeps_proto st :
  AppFixed.stocksProto (AppFixed.addStock st) = AppFixed.stocksProto st.
Proof.
  unfold AppFixed.addStock.
  destruct (AppFixed.entered_symbol st) as [symbol |]; [| reflexivity].
  destruct (String.eqb symbol ""); [reflexivity |].
  destruct (AppFixed.stored st symbol); reflexivity.
Qed.

(** C9, as amended.  [addStock] emits one [subscribe_stock] request for the
    entered symbol, trimmed and upper-cased, exactly when that symbol is not
    empty and [this.stocks[symbol]] is falsy: the symbol is not a key of
    [this.stocks] and names no truthy member along its prototype chain;
    otherwise it emits nothing.  [this.stocks] is left as it was in every
    case, the emitting one included: a symbol entered again before a
    stock_update has stored it is subscribed again, and once it is a key of
    [this.stocks] it is not. *)
Theorem addStock_subscribes_unless_stored :
  (forall st symbol,
      subscribes st symbol ->
      AppFixed.emitted (AppFixed.addStock st) = AppFixed.emitted st ++ [subscription symbol]) /\
  (forall st,
      (forall symbol, ~ subscribes st symbol) ->
      AppFixed.emitted (AppFixed.addStock st) = AppFixed.emitted st) /\
  (forall st, AppFixed.stocks (AppFixed.addStock st) = AppFixed.stocks st) /\
  (forall st text symbol,
      subscribes (Runs.type_symbol st text) symbol ->
      AppFixed.emitted
        (AppFixed.addStock
           (Runs.type_symbol (AppFixed.addStock (Runs.type_symbol st text)) text))
      = AppFixed.emitted st ++ [subscription symbol; subscription symbol]) /\
  (forall st symbol entry,
      AppFixed.entered_symbol st = Some symbol ->
      AppFixed.stocks st !! symbol = Some entry ->
      AppFixed.emitted (AppFixed.addStock st) = AppFixed.emitted st).
Proof.
  split; [| split; [| split; [| split]]].
  - intros st symbol Hsub. rewrite (addStock_emits st symbol Hsub). reflexivity.
  - apply addStock_silent.
  - apply addStock_keeps_stocks.
  - intros st text symbol Hsub.
    assert (Hagain : subscribes
              (Runs.type_symbol (AppFixed.addStock (Runs.type_symbol st text)) text) symbol).
    { destruct Hsub as (Hentered & Hne & Hfree & Hfalsy). repeat split; try assumption.
      - simpl. rewrite addStock_keeps_stocks. exact Hfree.
      - unfold AppFixed.stored in *. simpl in *.
        rewrite addStock_keeps_stocks, addStock_keeps_proto. exact Hfalsy. }
    rewrite (addStock_emits _ symbol Hagain). simpl.
    rewrite (addStock_emits _ symbol Hsub). simpl.
    rewrite <- app_assoc. reflexivity.
  - intros st symbol entry Hentered Hstored. apply addStock_silent.
    intros other (Hother & _ & Hfree & _). congruence.
Qed.

End AddStock.

Lemma addStock_subscribes_unless_stored_witness :
  AppFixed.emitted
    (AppFixed.addStock (H := AsciiHost.host) (Runs.type_symbol AppFixed.initial " nvda "))
  = [subscription "NVDA"]
  /\ AppFixed.emitted
       (AppFixed.addStock (H := AsciiHost.host) (Runs.type_symbol AppFixed.initial "   "))
     = []
  /\ AppFixed.emitted
       (AppFixed.addStock (H := AsciiHost.host)
          (Runs.type_symbol
             (AppFixed.handleStockUpdate (H := AsciiHost.host) AppFixed.initial
                (quote_update JNull) ten_o_clock).1
             "aapl"))
     = [].
Proof.
  destruct (addStock_subscribes_unless_stored (H := AsciiHost.host))
    as (Hemit & Hsilent & _ & _ & Hstored).
  split; [| split].
  - apply (Hemit (Runs.type_symbol AppFixed.initial " nvda ") "NVDA").
    repeat split; discriminate.
  - apply (Hsilent (Runs.type_symbol AppFixed.initial "   ")).
    intros symbol (Hentered & Hne & _). apply Hne.
    injection Hentered as <-. reflexivity.
  - rewrite (Hstored _ "AAPL"
               (<["lastUpdate" := JStr "2026-01-05T10:00:00Z"]>
                  (<["symbol" := JStr "AAPL"]>
                     (spread (JObj (list_to_map
                        [("price", JNum 189.5); ("volume", JNum 1234567)])))))).
    + reflexivity.
    + reflexivity.
    + vm_compute. reflexivity.
Defined.

(** C9 as stated fails: the symbol AAPL entered twice before any
    stock_update is subscribed twice. *)
Lemma addStock_subscribes_twice :
  let st1 := AppFixed.addStock (H := AsciiHost.host)
               (Runs.type_symbol AppFixed.initial "aapl") in
  let st2 := AppFixed.addStock (H := AsciiHost.host) (Runs.type_symbol st1 " AAPL ") in
  AppFixed.emitted st2 = [subscription "AAPL"; subscription "AAPL"] /\
  AppFixed.stocks st2 = ∅ /\
  ~ NoDup (AppFixed.emitted st2).
Proof.
  assert (Hemitted :
    AppFixed.emitted
      (AppFixed.addStock (H := AsciiHost.host)
         (Runs.type_symbol
            (AppFixed.addStock (H := AsciiHost.host)
               (Runs.type_symbol AppFixed.initial "aapl")) " AAPL "))
    = [subscription "AAPL"; subscription "AAPL"]) by reflexivity.
  cbv zeta. split; [exact Hemitted | split; [reflexivity |]].
  rewrite Hemitted. intros Hnodup.
  apply NoDup_cons in Hnodup as [Hnotin _].
  apply Hnotin. left.
Qed.

(** A symbol that is no key of [this.stocks] but names a truthy member of
    its prototype is taken as monitored: after a stock_update for
    [__proto__] whose quote has a member [AAPL], entering AAPL subscribes
    nothing. *)
Example addStock_finds_prototype_member :
  let st := (AppFixed.handleStockUpdate (H := AsciiHost.host) AppFixed.initial
               (quote_for "__proto__" [("price", JNum 189.5); ("AAPL", JNum 1)])
               ten_o_clock).1 in
  AppFixed.stocks st !! "AAPL" = None /\
  AppFixed.stored st "AAPL" = true /\
  AppFixed.emitted (AppFixed.addStock (H := AsciiHost.host) (Runs.type_symbol st "aapl"))
  = [].
Proof.
  cbv zeta.
  split; [vm_compute; reflexivity |]. split; vm_compute; reflexivity.
Qed.

(** * Further properties of the scripts *)

Import Invariants.

(** ** Order of doubles *)

Lemma SFleb_trans_finite m1 e1 m2 e2 s :
  SFleb (S754_finite false m1 e1) (S754_finite false m2 e2) = true ->
  SFleb (S754_finite false m2 e2) s = true ->
  SFleb (S754_finite false m1 e1) s = true.
Proof.
  unfold SFleb, SFcompare.
  destruct s as [sg | sg | | sg m e]; try (destruct sg; simpl; congruence);
    try congruence.
  destruct sg; [congruence |].
  rewrite !Pos.compare_cont_spec. simpl.
  destruct (Z.compare_spec e1 e2), (Z.compare_spec e2 e), (Z.compare_spec e1 e);
    try lia; try congruence; subst;
  destruct (Pos.compare_spec m1 m2), (Pos.compare_spec m2 m), (Pos.compare_spec m1 m);
    simpl; try lia; congruence.
Qed.

(** [a <= b] and [b <= n] give [a <= n] for positive finite [a] and [b]. *)
Lemma leb_trans_finite (a b n : float) m1 e1 m2 e2 :
  Prim2SF a = S754_finite false m1 e1 ->
  Prim2SF b = S754_finite false m2 e2 ->
  (a <=? b)%float = true -> (b <=? n)%float = true -> (a <=? n)%float = true.
Proof. rewrite !leb_spec. intros -> ->. apply SFleb_trans_finite. Qed.

Lemma above_1e9_above_1e6 n : (1e9 <=? n)%float = true -> (1e6 <=? n)%float = true.
Proof. apply (leb_trans_finite 1e6 1e9 n _ _ _ _ eq_refl eq_refl eq_refl). Qed.

Lemma above_1e6_above_1e3 n : (1e6 <=? n)%float = true -> (1e3 <=? n)%float = true.
Proof. apply (leb_trans_finite 1e3 1e6 n _ _ _ _ eq_refl eq_refl eq_refl). Qed.

Lemma above_1e12_above_1e9 n : (1e12 <=? n)%float = true -> (1e9 <=? n)%float = true.
Proof. apply (leb_trans_finite 1e9 1e12 n _ _ _ _ eq_refl eq_refl eq_refl). Qed.

Lemma below_1e3_below_1e6 n : (1e3 <=? n)%float = false -> (1e6 <=? n)%float = false.
Proof.
  intros Hlow. destruct (1e6 <=? n)%float eqn:E; [| reflexivity].
  apply above_1e6_above_1e3 in E. congruence.
Qed.

Lemma below_1e6_below_1e9 n : (1e6 <=? n)%float = false -> (1e9 <=? n)%float = false.
Proof.
  intros Hlow. destruct (1e9 <=? n)%float eqn:E; [| reflexivity].
  apply above_1e9_above_1e6 in E. congruence.
Qed.

Lemma below_1e9_below_1e12 n : (1e9 <=? n)%float = false -> (1e12 <=? n)%float = false.
Proof.
  intros Hlow. destruct (1e12 <=? n)%float eqn:E; [| reflexivity].
  apply above_1e12_above_1e9 in E. congruence.
Qed.

(** ** The number labels *)

Section Labels.
Context `{Host}.

(** X1.  [formatMarketCap] of app.js shows ['N/A'] for a falsy value; for
    any other value with numeric value [n] it shows trillions from [10^12]
    on, billions in the range from [10^9] to [10^12], millions from [10^6]
    to [10^9], each with two decimals behind a dollar sign, and below
    [10^6] the dollar sign and the value's own string. *)
Theorem formatMarketCap_ranges :
  (forall v : jsval, truthy v = false -> App.formatMarketCap v = Some "N/A") /\
  (forall (v : jsval) (n : float),
      truthy v = true ->
      to_number v = Some n ->
      ((1e12 <=? n)%float = true ->
       App.formatMarketCap v = Some ("$" +:+ toFixed 2 (n / 1e12)%float +:+ "T")) /\
      ((1e9 <=? n)%float = true -> (1e12 <=? n)%float = false ->
       App.formatMarketCap v = Some ("$" +:+ toFixed 2 (n / 1e9)%float +:+ "B")) /\
      ((1e6 <=? n)%float = true -> (1e9 <=? n)%float = false ->
       App.formatMarketCap v = Some ("$" +:+ toFixed 2 (n / 1e6)%float +:+ "M")) /\
      ((1e6 <=? n)%float = false ->
       App.formatMarketCap v = (s ← call_toString v; Some ("$" +:+ s)))).
Proof.
  split.
  - intros v Hv. unfold App.formatMarketCap. rewrite Hv. reflexivity.
  - intros v n Hv Hn. unfold App.formatMarketCap. rewrite Hv, Hn. simpl.
    repeat split.
    + intros ->. reflexivity.
    + intros -> ->. reflexivity.
    + intros Hm Hb. rewrite (below_1e9_below_1e12 n Hb), Hb, Hm. reflexivity.
    + intros Hm.
      pose proof (below_1e6_below_1e9 n Hm) as Hb.
      rewrite (below_1e9_below_1e12 n Hb), Hb, Hm. reflexivity.
Qed.

(** X2.  The labels of app_fixed.js have fewer units than those of app.js:
    [formatVolume] shows every volume from [10^6] on in millions with one
    decimal, a billion included, thousands between [10^3] and [10^6], and
    returns a smaller volume as it is, so that 0 is shown as 0;
    [formatMarketCap] shows every value from [10^9] on in billions, a
    trillion included, millions between [10^6] and [10^9], and below that
    the dollar sign and the value's string. *)
Theorem fixed_labels_ranges :
  (forall (v : jsval) (n : float),
      to_number v = Some n ->
      ((1e6 <=? n)%float = true ->
       AppFixed.formatVolume v = Some (JStr (toFixed 1 (n / 1e6)%float +:+ "M"))) /\
      ((1e9 <=? n)%float = true ->
       AppFixed.formatVolume v = Some (JStr (toFixed 1 (n / 1e6)%float +:+ "M"))) /\
      ((1e3 <=? n)%float = true -> (1e6 <=? n)%float = false ->
       AppFixed.formatVolume v = Some (JStr (toFixed 1 (n / 1e3)%float +:+ "K"))) /\
      ((1e3 <=? n)%float = false -> AppFixed.formatVolume v = Some v)) /\
  (forall v : jsval,
      truthy v = false ->
      AppFixed.formatVolume (or_else v (JNum 0)) ≫= to_string = Some "0") /\
  (forall (v : jsval) (n : float),
      to_number v = Some n ->
      ((1e9 <=? n)%float = true ->
       AppFixed.formatMarketCap v = Some ("$" +:+ toFixed 1 (n / 1e9)%float +:+ "B")) /\
      ((1e12 <=? n)%float = true ->
       AppFixed.formatMarketCap v = Some ("$" +:+ toFixed 1 (n / 1e9)%float +:+ "B")) /\
      ((1e6 <=? n)%float = true -> (1e9 <=? n)%float = false ->
       AppFixed.formatMarketCap v = Some ("$" +:+ toFixed 1 (n / 1e6)%float +:+ "M")) /\
      ((1e6 <=? n)%float = false ->
       AppFixed.formatMarketCap v = (s ← to_string v; Some ("$" +:+ s)))).
Proof.
  split; [| split].
  - intros v n Hn. unfold AppFixed.formatVolume. rewrite Hn. simpl.
    change 1000000%float with 1e6%float. change 1000%float with 1e3%float.
    repeat split.
    + intros ->. reflexivity.
    + intros Hb. rewrite (above_1e9_above_1e6 n Hb). reflexivity.
    + intros -> ->. reflexivity.
    + intros Hk. rewrite (below_1e3_below_1e6 n Hk), Hk. reflexivity.
  - intros v Hv. unfold or_else. rewrite Hv. reflexivity.
  - intros v n Hn. unfold AppFixed.formatMarketCap. rewrite Hn. simpl.
    change 1000000000%float with 1e9%float. change 1000000%float with 1e6%float.
    repeat split.
    + intros ->. reflexivity.
    + intros Ht. rewrite (above_1e12_above_1e9 n Ht). reflexivity.
    + intros -> ->. reflexivity.
    + intros Hm. rewrite (below_1e6_below_1e9 n Hm), Hm. reflexivity.
Qed.

End Labels.

Lemma formatMarketCap_ranges_witness :
  App.formatMarketCap (H := AsciiHost.host) (JNum 3200000000000) = Some "$3.20T" /\
  App.formatMarketCap (H := AsciiHost.host) (JNum 45600000000) = Some "$45.60B" /\
  App.formatMarketCap (H := AsciiHost.host) (JNum 7250000) = Some "$7.25M" /\
  App.formatMarketCap (H := AsciiHost.host) (JNum 950000) = Some "$950000" /\
  App.formatMarketCap (H := AsciiHost.host) JUndefined = Some "N/A".
Proof.
  destruct (formatMarketCap_ranges (H := AsciiHost.host)) as (Hfalsy & Hcases).
  split; [| split; [| split; [| split]]].
  - apply (proj1 (Hcases (JNum 3200000000000) 3200000000000%float eq_refl eq_refl)).
    reflexivity.
  - apply (proj1 (proj2 (Hcases (JNum 45600000000) 45600000000%float eq_refl eq_refl)));
      reflexivity.
  - apply (proj1 (proj2 (proj2 (Hcases (JNum 7250000) 7250000%float eq_refl eq_refl))));
      reflexivity.
  - rewrite (proj2 (proj2 (proj2 (Hcases (JNum 950000) 950000%float eq_refl eq_refl))));
      reflexivity.
  - apply Hfalsy. reflexivity.
Defined.

Lemma fixed_labels_ranges_witness :
  AppFixed.formatVolume (H := AsciiHost.host) (JNum 2500000000) = Some (JStr "2500.0M") /\
  AppFixed.formatVolume (H := AsciiHost.host) (JNum 1500) = Some (JStr "1.5K") /\
  AppFixed.formatVolume (H := AsciiHost.host) (JNum 999) = Some (JNum 999) /\
  AppFixed.formatVolume (H := AsciiHost.host) (or_else JNull (JNum 0)) ≫= to_string
  = Some "0" /\
  AppFixed.formatMarketCap (H := AsciiHost.host) (JNum 3200000000000) = Some "$3200.0B".
Proof.
  destruct (fixed_labels_ranges (H := AsciiHost.host)) as (Hvolume & Hzero & Hcap).
  split; [| split; [| split; [| split]]].
  - apply (proj1 (proj2 (Hvolume (JNum 2500000000) 2500000000%float eq_refl)));
      reflexivity.
  - apply (proj1 (proj2 (proj2 (Hvolume (JNum 1500) 1500%float eq_refl))));
      reflexivity.
  - apply (proj2 (proj2 (proj2 (Hvolume (JNum 999) 999%float eq_refl)))).
    reflexivity.
  - apply Hzero. reflexivity.
  - apply (proj1 (proj2 (Hcap (JNum 3200000000000) 3200000000000%float eq_refl)));
      reflexivity.
Defined.

(** ** What a handler leaves alone *)

(** Splits the state along the branches of a handler. *)
Ltac split_branches :=
  repeat match goal with
         | |- context [match ?x with _ => _ end] => destruct x
         end.

Section Frames.
Context `{Host}.

Lemma app_chart_frame st symbol stockData now :
  let st' := (App.updateChartData st symbol stockData now).1 in
  App.stocks st' = App.stocks st /\ app_alerts_part st' = app_alerts_part st /\
  app_status st' = app_status st /\ App.marketOverview st' = App.marketOverview st.
Proof. unfold App.updateChartData. split_branches; repeat split. Qed.

Lemma app_store_frame st key entry :
  let st' := App.store_stock st key entry in
  app_alerts_part st' = app_alerts_part st /\
  app_status st' = app_status st /\ App.marketOverview st' = App.marketOverview st /\
  App.chartData st' = App.chartData st /\ App.chartSymbol st' = App.chartSymbol st.
Proof. unfold App.store_stock. destruct (_ && _); repeat split. Qed.

Lemma app_stock_update_frame st msg now :
  let st' := (App.handleStockUpdate st msg now).1 in
  app_alerts_part st' = app_alerts_part st /\
  app_status st' = app_status st /\ App.marketOverview st' = App.marketOverview st.
Proof.
  unfold App.handleStockUpdate.
  destruct (get msg "symbol") as [symbol |]; [| repeat split].
  destruct (get msg "data") as [stockData |]; [| repeat split].
  destruct (get msg "timestamp") as [timestamp |]; [| repeat split].
  destruct (to_string symbol) as [key |]; [| repeat split].
  cbv zeta.
  destruct (app_store_frame st key (<["lastUpdate" := timestamp]> (spread stockData)))
    as (Ha0 & Hs0 & Hm0 & _).
  cbv zeta in Ha0, Hs0, Hm0.
  match goal with
  | |- context [App.updateStockDisplay ?s] =>
      destruct (App.updateStockDisplay s);
      [destruct (app_chart_frame s symbol stockData now) as (_ & Ha & Hs & Hm);
       cbv zeta in Ha, Hs, Hm; rewrite Ha, Hs, Hm |]
  end; simpl; rewrite Ha0, Hs0, Hm0; repeat split.
Qed.

Lemma app_alert_frame st alert :
  let st' := (App.handleAlert st alert).1 in
  app_quotes st' = app_quotes st /\
  app_status st' = app_status st /\ App.marketOverview st' = App.marketOverview st.
Proof.
  unfold App.handleAlert, App.updateAlertsDisplay. cbn [App.alerts App.set_alerts].
  destruct (if (20 <? length (alert :: App.alerts st))%nat
            then removelast (alert :: App.alerts st)
            else alert :: App.alerts st) as [| a l]; [repeat split |].
  destruct (mapM App.alert_item (a :: l)); repeat split.
Qed.

Lemma app_overview_frame st summary :
  let st' := (App.updateMarketOverview st summary).1 in
  app_quotes st' = app_quotes st /\ app_alerts_part st' = app_alerts_part st /\
  app_status st' = app_status st.
Proof.
  unfold App.updateMarketOverview.
  destruct (get summary "stocks_count" ≫= to_string) as [a |]; [| repeat split].
  destruct (get summary "alerts_count" ≫= to_string) as [b |]; [| repeat split].
  destruct (get summary "last_update" ≫= date_time) as [c |]; repeat split.
Qed.

Lemma app_status_poll_frame st response :
  let st' := App.loadSystemStatus st response in
  app_quotes st' = app_quotes st /\ app_alerts_part st' = app_alerts_part st /\
  App.marketOverview st' = App.marketOverview st /\
  App.isConnected st' = App.isConnected st.
Proof.
  unfold App.loadSystemStatus.
  destruct response as [data |]; [| repeat split].
  destruct (App.updateSystemInfo data) as [rows |]; [| repeat split].
  destruct (is_string _ "running"); [repeat split |].
  cbn [App.isConnected App.set_isMonitoring App.set_systemInfo].
  destruct (App.isConnected st) eqn:E; repeat split; exact E.
Qed.

(** X3.  In app.js each handler writes its own part of the instance and
    nothing else: [handleAlert] leaves the quotes, the chart, the status
    and the market overview as they were; [handleStockUpdate] leaves the
    alerts, their display, the status and the market overview;
    [updateMarketOverview] leaves everything but the market overview; and
    [loadSystemStatus] leaves the quotes, the chart, the alerts, the market
    overview and the connection flag. *)
Theorem app_handlers_write_their_own_part :
  (forall st alert,
      let st' := (App.handleAlert st alert).1 in
      app_quotes st' = app_quotes st /\
      app_status st' = app_status st /\ App.marketOverview st' = App.marketOverview st) /\
  (forall st msg now,
      let st' := (App.handleStockUpdate st msg now).1 in
      app_alerts_part st' = app_alerts_part st /\
      app_status st' = app_status st /\ App.marketOverview st' = App.marketOverview st) /\
  (forall st summary,
      let st' := (App.updateMarketOverview st summary).1 in
      app_quotes st' = app_quotes st /\ app_alerts_part st' = app_alerts_part st /\
      app_status st' = app_status st) /\
  (forall st response,
      let st' := App.loadSystemStatus st response in
      app_quotes st' = app_quotes st /\ app_alerts_part st' = app_alerts_part st /\
      App.marketOverview st' = App.marketOverview st /\
      App.isConnected st' = App.isConnected st).
Proof.
  split; [| split; [| split]].
  - apply app_alert_frame.
  - apply app_stock_update_frame.
  - apply app_overview_frame.
  - apply app_status_poll_frame.
Qed.

End Frames.

(** ** Every reachable instance of app.js *)

Lemma app_chart_symbol_kept st symbol stockData now :
  (forall key, App.chartSymbol st = Some key -> is_Some (App.chartData st !! key)) ->
  forall key,
    App.chartSymbol (App.updateChartData st symbol stockData now).1 = Some key ->
    is_Some (App.chartData (App.updateChartData st symbol stockData now).1 !! key).
Proof.
  intros Hshown key. unfold App.updateChartData.
  destruct (to_string symbol) as [k |]; [| apply Hshown].
  destruct (finds_inherited (App.chartData st) k); [apply Hshown |].
  assert (Hentries : forall key',
             is_Some (App.chartData st !! key') ->
             is_Some (match App.chartData st !! k with
                      | Some _ => App.chartData st
                      | None => <[k := App.empty_series]> (App.chartData st)
                      end !! key')).
  { intros key' Hsome. destruct (App.chartData st !! k); [exact Hsome |].
    destruct (decide (k = key')) as [-> | Hne].
    - rewrite lookup_insert_eq. eauto.
    - rewrite lookup_insert_ne by done. exact Hsome. }
  destruct (get stockData "price") as [price |]; simpl.
  - intros [= <-]. rewrite lookup_insert_eq. eauto.
  - intros Hkey. apply Hentries, Hshown, Hkey.
Qed.

(** [updateChartData] of app.js adds no entry but the one of its symbol,
    and none under the name of an inherited member. *)
Lemma app_chart_keys st symbol stockData now key :
  is_Some (App.chartData (App.updateChartData st symbol stockData now).1 !! key) ->
  is_Some (App.chartData st !! key) \/
  (to_string symbol = Some key /\ inherited key = false).
Proof.
  unfold App.updateChartData.
  destruct (to_string symbol) as [k |]; [| left; assumption].
  destruct (finds_inherited (App.chartData st) k) eqn:Hfound; [left; assumption |].
  destruct (decide (k = key)) as [-> | Hne].
  - intros _. apply finds_inherited_false in Hfound as [Hsome | Hplain];
      [left; exact Hsome | right; split; [reflexivity | exact Hplain]].
  - intros Hsome. left. revert Hsome.
    destruct (get stockData "price") as [price |]; simpl;
      rewrite ?lookup_insert_ne by done;
      destruct (App.chartData st !! k); rewrite ?lookup_insert_ne by done; trivial.
Qed.

Lemma Forall_tail {A : Type} (P : A -> Prop) (l : list A) :
  Forall P l -> Forall P (tail l).
Proof. intros Hall. destruct l; [constructor | eapply Forall_inv_tail, Hall]. Qed.

Lemma or_else_charted v : charted (or_else v (JNum 0)).
Proof. unfold charted, or_else. destruct (truthy v) eqn:E; [left; exact E | right; reflexivity]. Qed.

(** [updateChartData] of app.js pushes truthy values and zeros only. *)
Lemma app_chart_values st symbol stockData now :
  map_Forall (fun _ s => series_charted s) (App.chartData st) ->
  map_Forall (fun _ s => series_charted s)
             (App.chartData (App.updateChartData st symbol stockData now).1).
Proof.
  intros Hall. unfold App.updateChartData.
  destruct (to_string symbol) as [key |]; [| exact Hall].
  destruct (finds_inherited (App.chartData st) key); [exact Hall |].
  set (entries := match App.chartData st !! key with
                  | Some _ => App.chartData st
                  | None => <[key := App.empty_series]> (App.chartData st)
                  end).
  assert (Hentries : map_Forall (fun _ s => series_charted s) entries).
  { subst entries. destruct (App.chartData st !! key); [exact Hall |].
    apply map_Forall_insert_2; [| exact Hall]. split; constructor. }
  assert (Hdata : series_charted (default App.empty_series (entries !! key))).
  { destruct (entries !! key) as [s |] eqn:Hs; simpl.
    - apply (Hentries key s Hs).
    - split; constructor. }
  destruct (get stockData "price") as [price |]; simpl; [| exact Hentries].
  apply map_Forall_insert_2; [| exact Hentries].
  destruct Hdata as (Hp & Hv).
  assert (Hp' : Forall charted
                  (App.prices (default App.empty_series (entries !! key))
                   ++ [or_else price (JNum 0)]))
    by (apply Forall_app; split; [exact Hp | constructor; [apply or_else_charted | constructor]]).
  assert (Hv' : Forall charted
                  (App.volumes (default App.empty_series (entries !! key))
                   ++ [or_else (default JUndefined (get stockData "volume")) (JNum 0)]))
    by (apply Forall_app; split; [exact Hv | constructor; [apply or_else_charted | constructor]]).
  match goal with
  | |- series_charted (if ?b then _ else _) => destruct b
  end; split; simpl; auto using Forall_tail.
Qed.

Lemma map_Forall_both {A : Type} (P Q : A -> Prop) (m : gmap string A) :
  map_Forall (fun _ x => P x /\ Q x) m
  <-> map_Forall (fun _ x => P x) m /\ map_Forall (fun _ x => Q x) m.
Proof.
  split.
  - intros Hall. split; intros k x Hk; apply (Hall k x Hk).
  - intros [HP HQ] k x Hk. split; [apply (HP k x Hk) | apply (HQ k x Hk)].
Qed.

(** What [this.stocks[key] = entry] does to the own properties: one is
    written or none, and none is removed. *)
Lemma app_store_stocks st key entry :
  let st' := App.store_stock st key entry in
  (forall P : gmap string jsval -> Prop,
      P entry -> map_Forall (fun _ e => P e) (App.stocks st) ->
      map_Forall (fun _ e => P e) (App.stocks st')) /\
  (forall k, is_Some (App.stocks st !! k) -> is_Some (App.stocks st' !! k)) /\
  (inherited key = false -> App.stocks st' !! key = Some entry).
Proof.
  unfold App.store_stock.
  destruct (String.eqb_spec key "__proto__") as [-> | Hne]; simpl.
  - destruct (negb (App.shadows_proto st)); simpl.
    + split; [intros P _ Hall; exact Hall |]. split; [trivial | discriminate].
    + split; [intros P Hentry Hall; apply map_Forall_insert_2; assumption |].
      split; [| discriminate].
      intros k Hsome. destruct (decide ("__proto__" = k)) as [<- | Hk].
      * rewrite lookup_insert_eq. eauto.
      * rewrite lookup_insert_ne by done. exact Hsome.
  - split; [intros P Hentry Hall; apply map_Forall_insert_2; assumption |].
    split; [| intros _; apply lookup_insert_eq].
    intros k Hsome. destruct (decide (key = k)) as [<- | Hk].
    + rewrite lookup_insert_eq. eauto.
    + rewrite lookup_insert_ne by done. exact Hsome.
Qed.

Section AppReachable.
Context `{Host}.

(** The two ways [handleStockUpdate] of app.js ends: before anything is
    stored, or with the entry of the symbol stored, and then with the chart
    as it was or as [updateChartData] leaves it. *)
Lemma app_stock_update_cases st msg now :
  let st' := (App.handleStockUpdate st msg now).1 in
  st' = st \/
  exists symbol stockData timestamp key,
    get msg "symbol" = Some symbol /\ get msg "data" = Some stockData /\
    get msg "timestamp" = Some timestamp /\ to_string symbol = Some key /\
    let st0 :=
      App.store_stock st key (<["lastUpdate" := timestamp]> (spread stockData)) in
    (st' = st0 /\ App.updateStockDisplay st0 = Threw) \/
    (st' = (App.updateChartData st0 symbol stockData now).1 /\
     App.updateStockDisplay st0 = Done).
Proof.
  unfold App.handleStockUpdate.
  destruct (get msg "symbol") as [symbol |]; [| left; reflexivity].
  destruct (get msg "data") as [stockData |]; [| left; reflexivity].
  destruct (get msg "timestamp") as [timestamp |]; [| left; reflexivity].
  destruct (to_string symbol) as [key |] eqn:Hkey; [| left; reflexivity].
  right. exists symbol, stockData, timestamp, key.
  split; [reflexivity |]. split; [reflexivity |]. split; [reflexivity |].
  split; [exact Hkey |]. cbv zeta.
  match goal with
  | |- context [App.updateStockDisplay ?s] => destruct (App.updateStockDisplay s)
  end; [right | left]; split; reflexivity.
Qed.

Lemma entered_symbols_not_empty text :
  Forall (fun symbol => symbol <> "") (AppSession.entered_symbols text).
Proof.
  apply Forall_forall. intros symbol Hin.
  apply list_elem_of_filter in Hin as [Hlen _].
  intros ->. simpl in Hlen. lia.
Qed.

(** What [startMonitoring] of app.js leaves alone. *)
Lemma app_start_frame ses text reply :
  let ses' := AppSession.startMonitoring ses text reply in
  app_quotes (AppSession.app ses') = app_quotes (AppSession.app ses) /\
  app_alerts_part (AppSession.app ses') = app_alerts_part (AppSession.app ses) /\
  App.marketOverview (AppSession.app ses') = App.marketOverview (AppSession.app ses) /\
  App.isConnected (AppSession.app ses') = App.isConnected (AppSession.app ses).
Proof.
  unfold AppSession.startMonitoring. cbv zeta.
  destruct (AppSession.entered_symbols text); [repeat split |].
  destruct (reply ≫= (fun data => get data "status")) as [status |]; [| repeat split].
  destruct (is_string status "started");
    destruct (to_string _); repeat split.
Qed.

(** What [startMonitoring] of app.js sends over the socket. *)
Lemma app_start_emitted ses text reply :
  AppSession.emitted (AppSession.startMonitoring ses text reply)
  = AppSession.emitted ses
    ++ (if answers reply "started"
        then subscription <$> AppSession.entered_symbols text else []).
Proof.
  unfold AppSession.startMonitoring, answers. cbv zeta.
  destruct (AppSession.entered_symbols text) as [| symbol symbols].
  - simpl. destruct (match reply ≫= _ with Some _ => _ | None => _ end);
      rewrite app_nil_r; reflexivity.
  - destruct (reply ≫= (fun data => get data "status")) as [status |];
      [| simpl; rewrite app_nil_r; reflexivity].
    destruct (is_string status "started");
      destruct (to_string _); simpl; rewrite ?app_nil_r; reflexivity.
Qed.

(** What [startMonitoring] of app.js posts. *)
Lemma app_start_requests ses text reply :
  AppSession.requests (AppSession.startMonitoring ses text reply)
  = AppSession.requests ses
    ++ match AppSession.entered_symbols text with
       | [] => []
       | symbols =>
           [("/api/start-monitoring", JObj {[ "symbols" := JArr (JStr <$> symbols) ]})]
       end.
Proof.
  unfold AppSession.startMonitoring. cbv zeta.
  destruct (AppSession.entered_symbols text) as [| symbol symbols].
  - simpl. rewrite app_nil_r. reflexivity.
  - destruct (reply ≫= (fun data => get data "status")) as [status |];
      [| reflexivity].
    destruct (is_string status "started"); destruct (to_string _); reflexivity.
Qed.

(** What [startMonitoring] of app.js does to the monitoring flag. *)
Lemma app_start_flag ses text reply :
  App.isMonitoring (AppSession.app (AppSession.startMonitoring ses text reply))
  = match AppSession.entered_symbols text with
    | [] => App.isMonitoring (AppSession.app ses)
    | _ => answers reply "started" || App.isMonitoring (AppSession.app ses)
    end.
Proof.
  unfold AppSession.startMonitoring, answers. cbv zeta.
  destruct (AppSession.entered_symbols text) as [| symbol symbols]; [reflexivity |].
  destruct (reply ≫= (fun data => get data "status")) as [status |];
    [| reflexivity].
  destruct (is_string status "started"); destruct (to_string _); reflexivity.
Qed.

Lemma app_start_invariant ses text reply :
  app_invariant ses -> app_invariant (AppSession.startMonitoring ses text reply).
Proof.
  intros (Ha & Hc & Hs & Hk & Hd & He).
  destruct (app_start_frame ses text reply) as (Hquotes & Halerts & _ & _).
  unfold app_quotes in Hquotes. injection Hquotes as Hstocks Hchart Hshown Hproto.
  unfold app_alerts_part in Halerts. injection Halerts as Halerts _.
  unfold app_invariant. cbv zeta.
  rewrite Hstocks, Hchart, Hshown, Halerts, app_start_emitted.
  refine (conj Ha (conj Hc (conj Hs (conj Hk (conj Hd _))))).
  apply Forall_app. split; [exact He |].
  destruct (answers reply "started"); [| constructor].
  apply Forall_fmap. eapply Forall_impl; [apply entered_symbols_not_empty |].
  intros symbol Hne. exists symbol. split; [exact Hne | reflexivity].
Qed.

(** What [stopMonitoring] of app.js leaves alone: everything but the
    monitoring flag, the status line, the requests and the dialogs. *)
Lemma app_stop_frame ses confirmed reply :
  let ses' := AppSession.stopMonitoring ses confirmed reply in
  app_quotes (AppSession.app ses') = app_quotes (AppSession.app ses) /\
  app_alerts_part (AppSession.app ses') = app_alerts_part (AppSession.app ses) /\
  App.marketOverview (AppSession.app ses') = App.marketOverview (AppSession.app ses) /\
  App.isConnected (AppSession.app ses') = App.isConnected (AppSession.app ses) /\
  AppSession.emitted ses' = AppSession.emitted ses.
Proof.
  unfold AppSession.stopMonitoring. cbv zeta.
  destruct confirmed; simpl; [| repeat split].
  destruct (reply ≫= (fun data => get data "status")) as [status |]; [| repeat split].
  destruct (is_string status "stopped"); repeat split.
Qed.

Lemma app_stop_invariant ses confirmed reply :
  app_invariant ses -> app_invariant (AppSession.stopMonitoring ses confirmed reply).
Proof.
  intros (Ha & Hc & Hs & Hk & Hd & He).
  destruct (app_stop_frame ses confirmed reply) as (Hquotes & Halerts & _ & _ & Hemit).
  unfold app_quotes in Hquotes. injection Hquotes as Hstocks Hchart Hshown Hproto.
  unfold app_alerts_part in Halerts. injection Halerts as Halerts _.
  unfold app_invariant. cbv zeta.
  rewrite Hstocks, Hchart, Hshown, Halerts, Hemit.
  exact (conj Ha (conj Hc (conj Hs (conj Hk (conj Hd He))))).
Qed.

Lemma app_stock_update_invariant ses msg now :
  app_invariant ses ->
  app_invariant (AppSession.with_app ses (App.handleStockUpdate (AppSession.app ses) msg now).1).
Proof.
  intros Hinv.
  destruct (app_stock_update_cases (AppSession.app ses) msg now)
    as [Hsame | (symbol & stockData & timestamp & key & _ & _ & _ & Hkey & Hcases)].
  { unfold app_invariant. cbn [AppSession.app AppSession.emitted AppSession.with_app].
    rewrite Hsame. exact Hinv. }
  destruct Hinv as (Ha & Hc & Hs & Hk & Hd & He).
  set (entry := <["lastUpdate" := timestamp]> (spread stockData)) in *.
  destruct (app_store_frame (AppSession.app ses) key entry)
    as (Halerts0 & _ & _ & Hchart0 & Hshown0).
  destruct (app_store_stocks (AppSession.app ses) key entry) as (Hall0 & Hkeys0 & Hnew0).
  cbv zeta in Halerts0, Hchart0, Hshown0, Hall0, Hkeys0, Hnew0, Hcases.
  unfold app_alerts_part in Halerts0. injection Halerts0 as Halerts0 _.
  set (st0 := App.store_stock (AppSession.app ses) key entry) in *.
  assert (Hk' : map_Forall (fun _ e => is_Some (e !! "lastUpdate")) (App.stocks st0)).
  { apply (Hall0 (fun e => is_Some (e !! "lastUpdate"))); [| exact Hk].
    subst entry. rewrite lookup_insert_eq. eauto. }
  unfold app_invariant. cbn [AppSession.app AppSession.emitted AppSession.with_app].
  destruct Hcases as [[-> _] | [-> _]].
  - rewrite Halerts0, Hchart0, Hshown0.
    refine (conj Ha (conj Hc (conj Hs (conj Hk' (conj _ He))))).
    intros k Hsome. destruct (Hd k Hsome) as [Hstored Hplain].
    split; [apply Hkeys0, Hstored | exact Hplain].
  - destruct (app_chart_frame st0 symbol stockData now) as (Hstocks & Halerts & _ & _).
    cbv zeta in Hstocks, Halerts. unfold app_alerts_part in Halerts.
    injection Halerts as Halerts _.
    rewrite Hstocks, Halerts, Halerts0.
    refine (conj Ha (conj _ (conj _ (conj Hk' (conj _ He))))).
    + apply map_Forall_both. rewrite <- Hchart0 in Hc.
      apply map_Forall_both in Hc as [Hc Hv]. split.
      * apply aligned_preserved. exact Hc.
      * apply app_chart_values. exact Hv.
    + apply app_chart_symbol_kept. rewrite Hchart0, Hshown0. exact Hs.
    + intros k Hsome.
      apply app_chart_keys in Hsome as [Hsome | [Hsym Hplain]].
      * rewrite Hchart0 in Hsome. destruct (Hd k Hsome) as [Hstored Hplain].
        split; [apply Hkeys0, Hstored | exact Hplain].
      * rewrite Hkey in Hsym. injection Hsym as <-.
        split; [rewrite (Hnew0 Hplain); eauto | exact Hplain].
Qed.

Lemma app_step_invariant ses e :
  app_invariant ses -> app_invariant (AppSession.step ses e).
Proof.
  intros Hinv. destruct e as [| | msg now | alert | summary | response | text reply
                              | confirmed reply]; simpl.
  - exact Hinv.
  - exact Hinv.
  - apply app_stock_update_invariant, Hinv.
  - destruct Hinv as (Ha & Hc & Hs & Hk & Hd & He).
    destruct (app_alert_frame (AppSession.app ses) alert) as (Hquotes & _ & _).
    unfold app_quotes in Hquotes. injection Hquotes as Hstocks Hchart Hshown Hproto.
    unfold app_invariant. cbn [AppSession.app AppSession.emitted AppSession.with_app].
    rewrite Hstocks, Hchart, Hshown.
    refine (conj _ (conj Hc (conj Hs (conj Hk (conj Hd He))))).
    rewrite app_handleAlert_alerts by exact Ha. rewrite length_take. lia.
  - destruct Hinv as (Ha & Hc & Hs & Hk & Hd & He).
    destruct (app_overview_frame (AppSession.app ses) summary) as (Hquotes & Halerts & _).
    unfold app_quotes in Hquotes. injection Hquotes as Hstocks Hchart Hshown Hproto.
    unfold app_alerts_part in Halerts. injection Halerts as Halerts _.
    unfold app_invariant. cbn [AppSession.app AppSession.emitted AppSession.with_app].
    rewrite Hstocks, Hchart, Hshown, Halerts.
    exact (conj Ha (conj Hc (conj Hs (conj Hk (conj Hd He))))).
  - destruct Hinv as (Ha & Hc & Hs & Hk & Hd & He).
    destruct (app_status_poll_frame (AppSession.app ses) response)
      as (Hquotes & Halerts & _).
    unfold app_quotes in Hquotes. injection Hquotes as Hstocks Hchart Hshown Hproto.
    unfold app_alerts_part in Halerts. injection Halerts as Halerts _.
    unfold app_invariant. cbn [AppSession.app AppSession.emitted AppSession.with_app].
    rewrite Hstocks, Hchart, Hshown, Halerts.
    exact (conj Ha (conj Hc (conj Hs (conj Hk (conj Hd He))))).
  - apply app_start_invariant, Hinv.
  - apply app_stop_invariant, Hinv.
Qed.

(** X4.  Whatever the page delivers to app.js, in any order (socket
    connects and disconnects, stock updates, alerts, market summaries,
    status polls, start and stop of the monitoring, each request taken
    with its answer as one turn), the instance keeps at
    most 20 alerts, the three arrays of every chart entry have one length
    of at most 20 and hold truthy values and zeros only, the chart shows
    an entry that exists, every stored
    quote carries [lastUpdate], every charted symbol has a stored quote
    and names no member inherited from [Object.prototype], and every
    message sent over the socket is a subscription for a symbol that is
    not empty. *)
Theorem app_reachable_invariant :
  forall events : list AppSession.event,
    app_invariant (AppSession.run AppSession.opened events).
Proof.
  intros events. unfold AppSession.run.
  induction events as [| e events IH] using rev_ind.
  - refine (conj _ (conj _ (conj _ (conj _ (conj _ _))))); simpl.
    + lia.
    + apply map_Forall_empty.
    + intros key [=].
    + apply map_Forall_empty.
    + intros key Hsome. rewrite lookup_empty in Hsome. destruct Hsome; discriminate.
    + constructor.
  - rewrite foldl_app. simpl. apply app_step_invariant, IH.
Qed.

End AppReachable.

(** ** The monitoring controls of app.js *)

Section AppControls.
Context `{Host}.

Lemma app_start_one_dialog ses text reply :
  length (AppSession.dialogs (AppSession.startMonitoring ses text reply))
  = S (length (AppSession.dialogs ses)).
Proof.
  unfold AppSession.startMonitoring. cbv zeta.
  destruct (AppSession.entered_symbols text);
    [simpl; rewrite length_app; simpl; lia |].
  destruct (reply ≫= (fun data => get data "status")) as [status |];
    [| simpl; rewrite length_app; simpl; lia].
  destruct (is_string status "started"); destruct (to_string _);
    simpl; rewrite length_app; simpl; lia.
Qed.

(** X5.  [startMonitoring] of app.js, for the text of the symbol input and
    the answer of the server: the symbols are the trimmed, non-empty
    pieces of the text between commas.  With no symbol nothing is posted;
    otherwise one request carries them all.  The socket subscriptions are
    sent exactly when the answer has status 'started', one for each
    symbol in the order entered, and only then is the monitoring flag
    set; a flag already set is never cleared.  Every call shows exactly one
    dialog, and the quotes, the chart and the alerts are left as they
    were. *)
Theorem app_startMonitoring_effects :
  forall ses text reply,
    let ses' := AppSession.startMonitoring ses text reply in
    let symbols := AppSession.entered_symbols text in
    Forall (fun symbol => symbol <> "") symbols /\
    AppSession.requests ses'
    = AppSession.requests ses
      ++ match symbols with
         | [] => []
         | _ => [("/api/start-monitoring", JObj {[ "symbols" := JArr (JStr <$> symbols) ]})]
         end /\
    AppSession.emitted ses'
    = AppSession.emitted ses
      ++ (if answers reply "started" then subscription <$> symbols else []) /\
    App.isMonitoring (AppSession.app ses')
    = match symbols with
      | [] => App.isMonitoring (AppSession.app ses)
      | _ => answers reply "started" || App.isMonitoring (AppSession.app ses)
      end /\
    length (AppSession.dialogs ses') = S (length (AppSession.dialogs ses)) /\
    app_quotes (AppSession.app ses') = app_quotes (AppSession.app ses) /\
    app_alerts_part (AppSession.app ses') = app_alerts_part (AppSession.app ses).
Proof.
  intros ses text reply ses' symbols. subst ses' symbols.
  split; [apply entered_symbols_not_empty |].
  split; [rewrite app_start_requests;
          destruct (AppSession.entered_symbols text); reflexivity |].
  split; [apply app_start_emitted |].
  split; [apply app_start_flag |].
  split; [apply app_start_one_dialog |].
  destruct (app_start_frame ses text reply) as (Hq & Ha & _ & _).
  split; assumption.
Qed.

(** X6.  [stopMonitoring] of app.js: a declined confirmation leaves
    everything as it was and posts nothing; a confirmed one posts one
    request, and clears the monitoring flag exactly when the answer has
    status 'stopped'.  In no case is anything sent over the socket, and the
    stored quotes, the chart buffers and the alerts are kept: stopping
    unsubscribes no symbol and forgets no data. *)
Theorem app_stopMonitoring_effects :
  forall ses confirmed reply,
    let ses' := AppSession.stopMonitoring ses confirmed reply in
    (confirmed = false -> ses' = ses) /\
    AppSession.requests ses'
    = AppSession.requests ses
      ++ (if confirmed then [("/api/stop-monitoring", JUndefined)] else []) /\
    App.isMonitoring (AppSession.app ses')
    = App.isMonitoring (AppSession.app ses)
      && negb (confirmed && answers reply "stopped") /\
    AppSession.emitted ses' = AppSession.emitted ses /\
    app_quotes (AppSession.app ses') = app_quotes (AppSession.app ses) /\
    app_alerts_part (AppSession.app ses') = app_alerts_part (AppSession.app ses).
Proof.
  intros ses confirmed reply ses'. subst ses'.
  destruct (app_stop_frame ses confirmed reply) as (Hq & Ha & _ & _ & He).
  split; [intros ->; reflexivity |].
  split; [| split; [| split; [exact He | split; assumption]]].
  - unfold AppSession.stopMonitoring. cbv zeta.
    destruct confirmed; simpl; [| rewrite app_nil_r; reflexivity].
    destruct (reply ≫= (fun data => get data "status")) as [status |]; [| reflexivity].
    destruct (is_string status "stopped"); reflexivity.
  - unfold AppSession.stopMonitoring, answers. cbv zeta.
    destruct confirmed; simpl; [| rewrite andb_true_r; reflexivity].
    destruct (reply ≫= (fun data => get data "status")) as [status |];
      [| simpl; rewrite andb_true_r; reflexivity].
    destruct (is_string status "stopped"); simpl;
      [rewrite andb_false_r | rewrite andb_true_r]; reflexivity.
Qed.

End AppControls.

(** ** The handlers of app_fixed.js *)

Lemma getRandomColor_palette r : AppFixed.getRandomColor r ∈ AppFixed.colors.
Proof.
  unfold AppFixed.getRandomColor.
  assert (Hlt : (r mod length AppFixed.colors < length AppFixed.colors)%nat)
    by (apply Nat.mod_upper_bound; discriminate).
  destruct (AppFixed.colors !! (r mod length AppFixed.colors)%nat) as [c |] eqn:Hc.
  - simpl. eapply list_elem_of_lookup_2, Hc.
  - apply lookup_ge_None in Hc. lia.
Qed.

(** A push on a buffer of at most 20 elements keeps the bound and what
    holds of every element. *)
Lemma push_kept {A : Type} (P : A -> Prop) (l : list A) (a : A) :
  (length l <= 20)%nat -> Forall P l -> P a ->
  let pushed := l ++ [a] in
  let kept := if (20 <? length pushed)%nat then tail pushed else pushed in
  (length kept <= 20)%nat /\ Forall P kept.
Proof.
  intros Hl Hall Ha pushed kept.
  assert (Hpushed : Forall P pushed) by (apply Forall_app; split; [exact Hall | repeat constructor; exact Ha]).
  assert (Hlen : length pushed = S (length l)) by (unfold pushed; rewrite length_app; simpl; lia).
  subst kept. destruct (Nat.ltb_spec 20 (length pushed)).
  - destruct pushed as [| b rest]; simpl in *; [lia |].
    split; [lia | eapply Forall_inv_tail, Hpushed].
  - split; [lia | exact Hpushed].
Qed.

Lemma fixed_chart_frame st symbol stockData env :
  let st' := (AppFixed.updateChartData st symbol stockData env).1 in
  AppFixed.stocks st' = AppFixed.stocks st /\
  fixed_alerts_part st' = fixed_alerts_part st /\
  fixed_status st' = fixed_status st /\ fixed_outputs st' = fixed_outputs st /\
  AppFixed.marketOverview st' = AppFixed.marketOverview st.
Proof. unfold AppFixed.updateChartData. split_branches; repeat split. Qed.

Lemma fixed_chart_datasets st symbol stockData env :
  map_Forall dataset_ok (AppFixed.chartData st) ->
  map_Forall dataset_ok
    (AppFixed.chartData (AppFixed.updateChartData st symbol stockData env).1).
Proof.
  intros Hall. unfold AppFixed.updateChartData.
  destruct (get stockData "price") as [price |]; [| exact Hall].
  destruct (truthy price) eqn:Hprice; simpl; [| exact Hall].
  destruct (to_string symbol) as [key |] eqn:Hkey; [| exact Hall].
  destruct (finds_inherited (AppFixed.chartData st) key); [exact Hall |].
  cbn [fst AppFixed.chartData AppFixed.set_chartData].
  apply map_Forall_insert_2; [| exact Hall].
  destruct (AppFixed.chartData st !! key) as [e |] eqn:He; simpl.
  - destruct (Hall key e He) as (Hl & Hy & Hlabel & Hcolor & Hfill).
    destruct (push_kept (fun pt => truthy (AppFixed.y pt) = true) (AppFixed.data e)
                {| AppFixed.x := AppFixed.locale_time env; AppFixed.y := price |}
                Hl Hy Hprice) as (Hl' & Hy').
    exact (conj Hl' (conj Hy' (conj Hlabel (conj Hcolor Hfill)))).
  - refine (conj _ (conj _ (conj Hkey (conj (getRandomColor_palette _) eq_refl)))).
    + simpl. lia.
    + repeat constructor. exact Hprice.
Qed.

(** [updateChartData] of app_fixed.js adds no dataset but the one of its
    symbol, and none under the name of an inherited member. *)
Lemma fixed_chart_keys st symbol stockData env key :
  is_Some (AppFixed.chartData (AppFixed.updateChartData st symbol stockData env).1 !! key) ->
  is_Some (AppFixed.chartData st !! key) \/
  (to_string symbol = Some key /\ inherited key = false).
Proof.
  unfold AppFixed.updateChartData.
  destruct (get stockData "price") as [price |]; [| left; assumption].
  destruct (truthy price); simpl; [| left; assumption].
  destruct (to_string symbol) as [k |]; [| left; assumption].
  destruct (finds_inherited (AppFixed.chartData st) k) eqn:Hfound; [left; assumption |].
  destruct (decide (k = key)) as [-> | Hne].
  - intros _. apply finds_inherited_false in Hfound as [Hsome | Hplain];
      [left; exact Hsome | right; split; [reflexivity | exact Hplain]].
  - simpl. rewrite lookup_insert_ne by done. left. assumption.
Qed.

(** What [this.stocks[key] = entry] does in app_fixed.js. *)
Lemma fixed_store_frame st key entry :
  let st' := AppFixed.store_stock st key entry in
  fixed_alerts_part st' = fixed_alerts_part st /\
  fixed_status st' = fixed_status st /\ fixed_outputs st' = fixed_outputs st /\
  AppFixed.marketOverview st' = AppFixed.marketOverview st /\
  AppFixed.chartData st' = AppFixed.chartData st.
Proof. unfold AppFixed.store_stock. destruct (_ && _); repeat split. Qed.

Lemma fixed_store_stocks st key entry :
  let st' := AppFixed.store_stock st key entry in
  (forall P : string -> gmap string jsval -> Prop,
      P key entry -> map_Forall P (AppFixed.stocks st) ->
      map_Forall P (AppFixed.stocks st')) /\
  (forall k, is_Some (AppFixed.stocks st !! k) -> is_Some (AppFixed.stocks st' !! k)) /\
  (inherited key = false -> AppFixed.stocks st' !! key = Some entry).
Proof.
  unfold AppFixed.store_stock.
  destruct (String.eqb_spec key "__proto__") as [-> | Hne]; simpl.
  - destruct (negb (AppFixed.shadows_proto st)); simpl.
    + split; [intros P _ Hall; exact Hall |]. split; [trivial | discriminate].
    + split; [intros P Hentry Hall; apply map_Forall_insert_2; assumption |].
      split; [| discriminate].
      intros k Hsome. destruct (decide ("__proto__" = k)) as [<- | Hk].
      * rewrite lookup_insert_eq. eauto.
      * rewrite lookup_insert_ne by done. exact Hsome.
  - split; [intros P Hentry Hall; apply map_Forall_insert_2; assumption |].
    split; [| intros _; apply lookup_insert_eq].
    intros k Hsome. destruct (decide (key = k)) as [<- | Hk].
    + rewrite lookup_insert_eq. eauto.
    + rewrite lookup_insert_ne by done. exact Hsome.
Qed.

Section FixedHandlers.
Context `{Host}.

(** The ways [handleStockUpdate] of app_fixed.js ends: before anything is
    stored, or with the entry of the symbol stored, and then with the chart
    as it was or as [updateChartData] leaves it. *)
Lemma fixed_stock_update_cases st msg env :
  let st' := (AppFixed.handleStockUpdate st msg env).1 in
  st' = st \/
  exists symbol stockData timestamp key,
    get msg "symbol" = Some symbol /\ get msg "data" = Some stockData /\
    get msg "timestamp" = Some timestamp /\ to_string symbol = Some key /\
    let st0 :=
      AppFixed.store_stock st key
        (<["lastUpdate" := timestamp]> (<["symbol" := symbol]> (spread stockData))) in
    (st' = st0 /\ AppFixed.updateStockDisplay st0 (AppFixed.iso_time env) = Threw) \/
    (st' = (AppFixed.updateChartData st0 symbol stockData env).1 /\
     AppFixed.updateStockDisplay st0 (AppFixed.iso_time env) = Done).
Proof.
  unfold AppFixed.handleStockUpdate.
  destruct (get msg "symbol") as [symbol |]; [| left; reflexivity].
  destruct (get msg "data") as [stockData |]; [| left; reflexivity].
  destruct (get msg "timestamp") as [timestamp |]; [| left; reflexivity].
  destruct (to_string symbol) as [key |] eqn:Hkey; [| left; reflexivity].
  right. exists symbol, stockData, timestamp, key.
  split; [reflexivity |]. split; [reflexivity |]. split; [reflexivity |].
  split; [exact Hkey |]. cbv zeta.
  match goal with
  | |- context [AppFixed.updateStockDisplay ?s ?t] =>
      destruct (AppFixed.updateStockDisplay s t)
  end; [right | left]; split; reflexivity.
Qed.

Lemma fixed_stock_update_frame st msg env :
  let st' := (AppFixed.handleStockUpdate st msg env).1 in
  fixed_alerts_part st' = fixed_alerts_part st /\
  fixed_status st' = fixed_status st /\ fixed_outputs st' = fixed_outputs st /\
  AppFixed.marketOverview st' = AppFixed.marketOverview st.
Proof.
  cbv zeta.
  destruct (fixed_stock_update_cases st msg env)
    as [-> | (symbol & stockData & timestamp & key & _ & _ & _ & _ & Hcases)];
    [repeat split |].
  destruct (fixed_store_frame st key
              (<["lastUpdate" := timestamp]> (<["symbol" := symbol]> (spread stockData))))
    as (Ha0 & Hs0 & Ho0 & Hm0 & _).
  cbv zeta in Hcases, Ha0, Hs0, Ho0, Hm0.
  destruct Hcases as [[-> _] | [-> _]]; [repeat split; assumption |].
  match goal with
  | |- context [AppFixed.updateChartData ?s symbol stockData env] =>
      destruct (fixed_chart_frame s symbol stockData env) as (_ & Ha & Hs & Ho & Hm)
  end.
  cbv zeta in Ha, Hs, Ho, Hm. rewrite Ha, Hs, Ho, Hm. repeat split; assumption.
Qed.

Lemma fixed_alerts_display_frame st :
  let st' := (AppFixed.updateAlertsDisplay st).1 in
  AppFixed.alerts st' = AppFixed.alerts st /\
  fixed_quotes st' = fixed_quotes st /\ fixed_status st' = fixed_status st /\
  fixed_outputs st' = fixed_outputs st /\
  AppFixed.marketOverview st' = AppFixed.marketOverview st.
Proof.
  unfold AppFixed.updateAlertsDisplay.
  destruct (mapM AppFixed.alert_item (AppFixed.alerts st)); repeat split.
Qed.

Lemma fixed_alert_frame st alert :
  let st' := (AppFixed.handleAlert st alert).1 in
  fixed_quotes st' = fixed_quotes st /\ fixed_status st' = fixed_status st /\
  fixed_outputs st' = fixed_outputs st /\
  AppFixed.marketOverview st' = AppFixed.marketOverview st.
Proof.
  unfold AppFixed.handleAlert.
  destruct (fixed_alerts_display_frame
              (AppFixed.set_alerts st (AppFixed.alerts st ++ [alert])))
    as (_ & Hq & Hs & Ho & Hm).
  cbv zeta in *. rewrite Hq, Hs, Ho, Hm. repeat split.
Qed.

Lemma fixed_clear_frame st :
  let st' := (AppFixed.clearAlerts st).1 in
  fixed_quotes st' = fixed_quotes st /\ fixed_status st' = fixed_status st /\
  fixed_outputs st' = fixed_outputs st /\
  AppFixed.marketOverview st' = AppFixed.marketOverview st.
Proof.
  unfold AppFixed.clearAlerts.
  destruct (fixed_alerts_display_frame (AppFixed.set_alerts st []))
    as (_ & Hq & Hs & Ho & Hm).
  cbv zeta in *. rewrite Hq, Hs, Ho, Hm. repeat split.
Qed.

Lemma fixed_overview_frame st summary :
  let st' := (AppFixed.updateMarketOverview st summary).1 in
  fixed_quotes st' = fixed_quotes st /\ fixed_alerts_part st' = fixed_alerts_part st /\
  fixed_status st' = fixed_status st /\ fixed_outputs st' = fixed_outputs st.
Proof.
  unfold AppFixed.updateMarketOverview. cbv zeta.
  match goal with
  | |- context [match ?r with Some _ => _ | None => _ end] => destruct r
  end; repeat split.
Qed.

Lemma fixed_status_poll_frame st response :
  let st' := AppFixed.loadSystemStatus st response in
  fixed_quotes st' = fixed_quotes st /\ fixed_alerts_part st' = fixed_alerts_part st /\
  fixed_outputs st' = fixed_outputs st /\
  AppFixed.marketOverview st' = AppFixed.marketOverview st /\
  AppFixed.isConnected st' = AppFixed.isConnected st /\
  AppFixed.isMonitoring st' = AppFixed.isMonitoring st.
Proof.
  unfold AppFixed.loadSystemStatus.
  destruct (response ≫= (fun data => get data "status")) as [status |]; [| repeat split].
  destruct (is_string status "running"); repeat split.
Qed.

Lemma fixed_addStock_frame st :
  let st' := AppFixed.addStock st in
  fixed_quotes st' = fixed_quotes st /\ fixed_alerts_part st' = fixed_alerts_part st /\
  fixed_status st' = fixed_status st /\
  AppFixed.marketOverview st' = AppFixed.marketOverview st.
Proof.
  unfold AppFixed.addStock.
  destruct (AppFixed.entered_symbol st) as [symbol |]; [| repeat split].
  destruct (String.eqb symbol ""); [repeat split |].
  destruct (AppFixed.stored st symbol); repeat split.
Qed.

(** X7.  In app_fixed.js each handler writes its own part of the instance
    and nothing else: [handleStockUpdate] leaves the alerts, the status,
    the market overview, the symbol input and what was sent and shown;
    [handleAlert] and [clearAlerts] leave the quotes, the chart, the
    status, the market overview and what was sent; [updateMarketOverview]
    leaves all but the overview; [loadSystemStatus] changes the status line
    only, never the connection or monitoring flag; and [addStock] leaves
    the quotes, the chart, the alerts and the status. *)
Theorem fixed_handlers_write_their_own_part :
  (forall st msg env,
      let st' := (AppFixed.handleStockUpdate st msg env).1 in
      fixed_alerts_part st' = fixed_alerts_part st /\
      fixed_status st' = fixed_status st /\ fixed_outputs st' = fixed_outputs st /\
      AppFixed.marketOverview st' = AppFixed.marketOverview st) /\
  (forall st alert,
      let st' := (AppFixed.handleAlert st alert).1 in
      fixed_quotes st' = fixed_quotes st /\ fixed_status st' = fixed_status st /\
      fixed_outputs st' = fixed_outputs st /\
      AppFixed.marketOverview st' = AppFixed.marketOverview st) /\
  (forall st,
      let st' := (AppFixed.clearAlerts st).1 in
      fixed_quotes st' = fixed_quotes st /\ fixed_status st' = fixed_status st /\
      fixed_outputs st' = fixed_outputs st /\
      AppFixed.marketOverview st' = AppFixed.marketOverview st) /\
  (forall st summary,
      let st' := (AppFixed.updateMarketOverview st summary).1 in
      fixed_quotes st' = fixed_quotes st /\ fixed_alerts_part st' = fixed_alerts_part st /\
      fixed_status st' = fixed_status st /\ fixed_outputs st' = fixed_outputs st) /\
  (forall st response,
      let st' := AppFixed.loadSystemStatus st response in
      fixed_quotes st' = fixed_quotes st /\ fixed_alerts_part st' = fixed_alerts_part st /\
      fixed_outputs st' = fixed_outputs st /\
      AppFixed.marketOverview st' = AppFixed.marketOverview st /\
      AppFixed.isConnected st' = AppFixed.isConnected st /\
      AppFixed.isMonitoring st' = AppFixed.isMonitoring st) /\
  (forall st,
      let st' := AppFixed.addStock st in
      fixed_quotes st' = fixed_quotes st /\ fixed_alerts_part st' = fixed_alerts_part st /\
      fixed_status st' = fixed_status st /\
      AppFixed.marketOverview st' = AppFixed.marketOverview st).
Proof.
  split; [| split; [| split; [| split; [| split]]]].
  - apply fixed_stock_update_frame.
  - apply fixed_alert_frame.
  - apply fixed_clear_frame.
  - apply fixed_overview_frame.
  - apply fixed_status_poll_frame.
  - apply fixed_addStock_frame.
Qed.

End FixedHandlers.

(** ** Every reachable instance of app_fixed.js *)

Lemma fixed_invariant_frame st st' :
  fixed_quotes st' = fixed_quotes st ->
  AppFixed.emitted st' = AppFixed.emitted st ->
  fixed_invariant st -> fixed_invariant st'.
Proof.
  unfold fixed_quotes, fixed_invariant. intros [= -> -> _] ->. trivial.
Qed.

Lemma fixed_outputs_emitted st st' :
  fixed_outputs st' = fixed_outputs st -> AppFixed.emitted st' = AppFixed.emitted st.
Proof. unfold fixed_outputs. intros [= -> _ _]. reflexivity. Qed.

Section FixedReachable.
Context `{Host}.

Lemma fixed_stock_update_invariant st msg env :
  fixed_invariant st -> fixed_invariant (AppFixed.handleStockUpdate st msg env).1.
Proof.
  intros Hinv.
  destruct (fixed_stock_update_cases st msg env)
    as [-> | (symbol & stockData & timestamp & key & _ & _ & _ & Hkey & Hcases)];
    [exact Hinv |].
  destruct Hinv as (Hd & Hk & Hs & He).
  set (entry := <["lastUpdate" := timestamp]> (<["symbol" := symbol]> (spread stockData)))
    in *.
  destruct (fixed_store_frame st key entry) as (_ & _ & Ho0 & _ & Hchart0).
  destruct (fixed_store_stocks st key entry) as (Hall0 & Hkeys0 & Hnew0).
  cbv zeta in Ho0, Hchart0, Hall0, Hkeys0, Hnew0, Hcases.
  apply fixed_outputs_emitted in Ho0.
  set (st0 := AppFixed.store_stock st key entry) in *.
  assert (Hk' : map_Forall entry_ok (AppFixed.stocks st0)).
  { apply (Hall0 entry_ok); [| exact Hk]. subst entry. split.
    - exists symbol. split; [| exact Hkey].
      rewrite lookup_insert_ne by done. apply lookup_insert_eq.
    - rewrite lookup_insert_eq. eauto. }
  assert (Hs0 : forall k, is_Some (AppFixed.chartData st !! k) ->
                  is_Some (AppFixed.stocks st0 !! k) /\ inherited k = false).
  { intros k Hsome. destruct (Hs k Hsome) as [Hstored Hplain].
    split; [apply Hkeys0, Hstored | exact Hplain]. }
  destruct Hcases as [[-> _] | [-> _]].
  - unfold fixed_invariant. rewrite Hchart0, Ho0.
    exact (conj Hd (conj Hk' (conj Hs0 He))).
  - destruct (fixed_chart_frame st0 symbol stockData env) as (Hstocks & _ & _ & Ho & _).
    cbv zeta in Hstocks, Ho. apply fixed_outputs_emitted in Ho.
    unfold fixed_invariant. rewrite Hstocks, Ho, Ho0.
    refine (conj _ (conj Hk' (conj _ He))).
    + apply fixed_chart_datasets. rewrite Hchart0. exact Hd.
    + intros k Hsome. apply fixed_chart_keys in Hsome as [Hsome | [Hsym Hplain]].
      * apply Hs0. rewrite <- Hchart0. exact Hsome.
      * rewrite Hkey in Hsym. injection Hsym as <-.
        split; [rewrite (Hnew0 Hplain); eauto | exact Hplain].
Qed.

(** What [addStock] sends. *)
Lemma addStock_emitted st :
  AppFixed.emitted (AppFixed.addStock st) = AppFixed.emitted st \/
  exists symbol, symbol <> "" /\
    AppFixed.emitted (AppFixed.addStock st) = AppFixed.emitted st ++ [subscription symbol].
Proof.
  unfold AppFixed.addStock.
  destruct (AppFixed.entered_symbol st) as [symbol |]; [| left; reflexivity].
  destruct (String.eqb_spec symbol ""); [left; reflexivity |].
  destruct (AppFixed.stored st symbol); [left; reflexivity |].
  right. exists symbol. split; [assumption | reflexivity].
Qed.

Lemma fixed_start_frame ses r type_error :
  let ses' := FixedSession.startMonitoring ses r type_error in
  fixed_quotes (FixedSession.app ses') = fixed_quotes (FixedSession.app ses) /\
  fixed_alerts_part (FixedSession.app ses') = fixed_alerts_part (FixedSession.app ses) /\
  AppFixed.emitted (FixedSession.app ses') = AppFixed.emitted (FixedSession.app ses) /\
  AppFixed.symbolInput (FixedSession.app ses') = AppFixed.symbolInput (FixedSession.app ses) /\
  AppFixed.marketOverview (FixedSession.app ses')
  = AppFixed.marketOverview (FixedSession.app ses) /\
  AppFixed.isConnected (FixedSession.app ses') = AppFixed.isConnected (FixedSession.app ses).
Proof.
  unfold FixedSession.startMonitoring. cbv zeta.
  destruct (negb _); [repeat split |].
  destruct (FixedSession.answered_status type_error r) as [status | message];
    [| repeat split].
  destruct (is_string status "success"); repeat split.
Qed.

Lemma fixed_stop_frame ses r type_error :
  let ses' := FixedSession.stopMonitoring ses r type_error in
  fixed_quotes (FixedSession.app ses') = fixed_quotes (FixedSession.app ses) /\
  fixed_alerts_part (FixedSession.app ses') = fixed_alerts_part (FixedSession.app ses) /\
  AppFixed.emitted (FixedSession.app ses') = AppFixed.emitted (FixedSession.app ses) /\
  AppFixed.symbolInput (FixedSession.app ses') = AppFixed.symbolInput (FixedSession.app ses) /\
  AppFixed.marketOverview (FixedSession.app ses')
  = AppFixed.marketOverview (FixedSession.app ses) /\
  AppFixed.isConnected (FixedSession.app ses') = AppFixed.isConnected (FixedSession.app ses).
Proof.
  unfold FixedSession.stopMonitoring. cbv zeta.
  destruct (FixedSession.answered_status type_error r) as [status | message];
    [| repeat split].
  destruct (is_string status "success"); repeat split.
Qed.

Lemma fixed_step_invariant ses e :
  fixed_invariant (FixedSession.app ses) ->
  fixed_invariant (FixedSession.app (FixedSession.step ses e)).
Proof.
  intros Hinv.
  destruct e as [| | msg env | alert | | summary | response | r type_error
                 | r type_error | text |]; simpl.
  - exact Hinv.
  - exact Hinv.
  - apply fixed_stock_update_invariant, Hinv.
  - destruct (fixed_alert_frame (FixedSession.app ses) alert) as (Hq & _ & Ho & _).
    apply fixed_outputs_emitted in Ho.
    eapply fixed_invariant_frame; eassumption.
  - destruct (fixed_clear_frame (FixedSession.app ses)) as (Hq & _ & Ho & _).
    apply fixed_outputs_emitted in Ho.
    eapply fixed_invariant_frame; eassumption.
  - destruct (fixed_overview_frame (FixedSession.app ses) summary) as (Hq & _ & _ & Ho).
    apply fixed_outputs_emitted in Ho.
    eapply fixed_invariant_frame; eassumption.
  - destruct (fixed_status_poll_frame (FixedSession.app ses) response)
      as (Hq & _ & Ho & _).
    apply fixed_outputs_emitted in Ho.
    eapply fixed_invariant_frame; eassumption.
  - destruct (fixed_start_frame ses r type_error) as (Hq & _ & He & _).
    eapply fixed_invariant_frame; eassumption.
  - destruct (fixed_stop_frame ses r type_error) as (Hq & _ & He & _).
    eapply fixed_invariant_frame; eassumption.
  - exact Hinv.
  - destruct (fixed_addStock_frame (FixedSession.app ses)) as (Hq & _ & _ & _).
    unfold fixed_quotes in Hq. injection Hq as Hstocks Hchart Hproto.
    destruct Hinv as (Hd & Hk & Hs & He).
    unfold fixed_invariant. rewrite Hstocks, Hchart.
    refine (conj Hd (conj Hk (conj Hs _))).
    destruct (addStock_emitted (FixedSession.app ses)) as [-> | (symbol & Hne & ->)];
      [exact He |].
    apply Forall_app. split; [exact He |].
    repeat constructor. exists symbol. split; [exact Hne | reflexivity].
Qed.

(** X8.  Whatever the page delivers to app_fixed.js, in any order (socket
    connects and disconnects, stock updates, alerts, the clear button,
    market summaries, status answers, start and stop of the monitoring
    with their answers, typing into the symbol input and the add button),
    every dataset of the chart holds at most 20 points, each with a truthy
    price, is labelled
    with the symbol it is stored under, unfilled and in a colour of the
    palette; every stored quote names the symbol it is stored under and
    carries [lastUpdate]; every charted symbol has a stored quote and
    names no member inherited from [Object.prototype]; and every message
    sent over the socket is a subscription for a symbol that is not
    empty. *)
Theorem fixed_reachable_invariant :
  forall events : list FixedSession.event,
    fixed_invariant (FixedSession.app (FixedSession.run FixedSession.opened events)).
Proof.
  intros events. unfold FixedSession.run.
  induction events as [| e events IH] using rev_ind.
  - refine (conj _ (conj _ (conj _ _))); simpl.
    + apply map_Forall_empty.
    + apply map_Forall_empty.
    + intros key Hsome. rewrite lookup_empty in Hsome. destruct Hsome; discriminate.
    + constructor.
  - rewrite foldl_app. simpl. apply fixed_step_invariant, IH.
Qed.

End FixedReachable.

(** ** The alert list and its display *)

Section AlertsShown.
Context `{Host}.

Lemma app_alert_display st alert :
  (length (App.alerts st) <= 20)%nat ->
  let r := App.handleAlert st alert in
  let kept := take 20 (alert :: App.alerts st) in
  (r.2 = Done <-> Forall (fun a => is_Some (App.alert_item a)) kept) /\
  (r.2 = Done -> mapM App.alert_item kept = Some (App.alertsContainer r.1)) /\
  (r.2 = Threw -> App.alertsContainer r.1 = App.alertsContainer st).
Proof.
  intros Hl. unfold App.handleAlert. cbv zeta.
  rewrite (unshift_pop alert (App.alerts st) Hl).
  change (take 20 (alert :: App.alerts st)) with (alert :: take 19 (App.alerts st)).
  unfold App.updateAlertsDisplay. cbn [App.alerts App.set_alerts].
  destruct (mapM App.alert_item (alert :: take 19 (App.alerts st))) as [items |] eqn:E.
  - split; [| split].
    + split; [intros _ | reflexivity].
      apply (mapM_is_Some_1 App.alert_item). rewrite E. eauto.
    + reflexivity.
    + discriminate.
  - split; [| split].
    + split; [discriminate |]. intros Hall.
      apply (mapM_is_Some_2 App.alert_item) in Hall. rewrite E in Hall.
      destruct Hall; discriminate.
    + discriminate.
    + reflexivity.
Qed.

Lemma fixed_alert_display st alert :
  let r := AppFixed.handleAlert st alert in
  let kept := AppFixed.alerts st ++ [alert] in
  (r.2 = Done <-> Forall (fun a => is_Some (AppFixed.alert_item a)) kept) /\
  (r.2 = Done -> mapM AppFixed.alert_item kept = Some (AppFixed.alertsContainer r.1)) /\
  (r.2 = Threw -> AppFixed.alertsContainer r.1 = AppFixed.alertsContainer st).
Proof.
  unfold AppFixed.handleAlert, AppFixed.updateAlertsDisplay. cbv zeta.
  cbn [AppFixed.alerts AppFixed.set_alerts].
  destruct (mapM AppFixed.alert_item (AppFixed.alerts st ++ [alert])) as [items |] eqn:E.
  - split; [| split].
    + split; [intros _ | reflexivity].
      apply (mapM_is_Some_1 AppFixed.alert_item). rewrite E. eauto.
    + reflexivity.
    + discriminate.
  - split; [| split].
    + split; [discriminate |]. intros Hall.
      apply (mapM_is_Some_2 AppFixed.alert_item) in Hall. rewrite E in Hall.
      destruct Hall; discriminate.
    + discriminate.
    + reflexivity.
Qed.

(** X9.  [handleAlert] completes exactly when every alert it retains can
    be rendered (the new one and, in app.js, the 19 newest before it; in
    app_fixed.js all the alerts before it); the display is then the
    rendering of the retained alerts, in the order of the list.  When one
    of them cannot be rendered the handler stops on the exception with
    the alert already in the list and the display left as it was. *)
Theorem alert_display_follows_the_list :
  (forall st alert,
      (length (App.alerts st) <= 20)%nat ->
      let r := App.handleAlert st alert in
      let kept := take 20 (alert :: App.alerts st) in
      App.alerts r.1 = kept /\
      (r.2 = Done <-> Forall (fun a => is_Some (App.alert_item a)) kept) /\
      (r.2 = Done -> mapM App.alert_item kept = Some (App.alertsContainer r.1)) /\
      (r.2 = Threw -> App.alertsContainer r.1 = App.alertsContainer st)) /\
  (forall st alert,
      let r := AppFixed.handleAlert st alert in
      let kept := AppFixed.alerts st ++ [alert] in
      AppFixed.alerts r.1 = kept /\
      (r.2 = Done <-> Forall (fun a => is_Some (AppFixed.alert_item a)) kept) /\
      (r.2 = Done -> mapM AppFixed.alert_item kept = Some (AppFixed.alertsContainer r.1)) /\
      (r.2 = Threw -> AppFixed.alertsContainer r.1 = AppFixed.alertsContainer st)).
Proof.
  split.
  - intros st alert Hl. cbv zeta.
    split; [apply app_handleAlert_alerts, Hl | apply app_alert_display, Hl].
  - intros st alert. cbv zeta.
    split; [| apply fixed_alert_display].
    unfold AppFixed.handleAlert. rewrite fixed_alerts_of_display. reflexivity.
Qed.

(** The alerts of app.js after a run of [handleAlert] calls. *)
Lemma app_alerts_from st events :
  (length (App.alerts st) <= 20)%nat ->
  App.alerts (Runs.app_alerts st events) = take 20 (rev events ++ App.alerts st).
Proof.
  intros Hl. induction events as [| a events IH] using rev_ind.
  - simpl. rewrite take_ge by lia. reflexivity.
  - rewrite app_alerts_snoc, app_handleAlert_alerts
      by (rewrite IH, length_take; lia).
    rewrite IH, rev_unit. simpl. rewrite take_take. reflexivity.
Qed.

(** In app_fixed.js an alert that cannot be rendered stays in the list,
    and the display with it. *)
Lemma fixed_alerts_frozen st bad events :
  bad ∈ AppFixed.alerts st -> AppFixed.alert_item bad = None ->
  AppFixed.alertsContainer (Runs.fixed_alerts st events) = AppFixed.alertsContainer st /\
  bad ∈ AppFixed.alerts (Runs.fixed_alerts st events).
Proof.
  intros Hin Hbad. induction events as [| a events [IHc IHin]] using rev_ind.
  - split; [reflexivity | exact Hin].
  - rewrite fixed_alerts_snoc.
    destruct (fixed_alert_display (Runs.fixed_alerts st events) a) as (Hdone & _ & Hthrew).
    cbv zeta in Hdone, Hthrew.
    assert (Hout : (AppFixed.handleAlert (Runs.fixed_alerts st events) a).2 = Threw).
    { destruct (AppFixed.handleAlert (Runs.fixed_alerts st events) a).2 eqn:E;
        [| reflexivity].
      exfalso.
      assert (Hall : Forall (fun a => is_Some (AppFixed.alert_item a))
                       (AppFixed.alerts (Runs.fixed_alerts st events) ++ [a]))
        by (apply Hdone; reflexivity).
      rewrite Forall_forall in Hall.
      specialize (Hall bad). rewrite Hbad in Hall.
      destruct Hall as [? Hall]; [| discriminate].
      apply elem_of_app. left. exact IHin. }
    split.
    + rewrite (Hthrew Hout). exact IHc.
    + unfold AppFixed.handleAlert. rewrite fixed_alerts_of_display. simpl.
      apply elem_of_app. left. exact IHin.
Qed.

(** X10.  An alert that cannot be rendered (one without the members the
    display reads from, such as [null]) is outlived differently by the
    two scripts.  In app.js the list is bounded, so once 20 alerts that
    render have arrived the list holds exactly these, newest first, and
    the display shows them again.  In app_fixed.js nothing is evicted:
    whatever arrives afterwards, the alert stays in the list and the
    display stays as it was; only [clearAlerts] empties both, and it
    always completes. *)
Theorem alert_display_recovery :
  (forall st events,
      (length (App.alerts st) <= 20)%nat ->
      length events = 20%nat ->
      Forall (fun a => is_Some (App.alert_item a)) events ->
      let st' := Runs.app_alerts st events in
      App.alerts st' = rev events /\
      mapM App.alert_item (rev events) = Some (App.alertsContainer st')) /\
  (forall st bad events,
      bad ∈ AppFixed.alerts st -> AppFixed.alert_item bad = None ->
      let st' := Runs.fixed_alerts st events in
      AppFixed.alertsContainer st' = AppFixed.alertsContainer st /\
      bad ∈ AppFixed.alerts st' /\
      (AppFixed.clearAlerts st').2 = Done /\
      AppFixed.alerts (AppFixed.clearAlerts st').1 = [] /\
      AppFixed.alertsContainer (AppFixed.clearAlerts st').1 = []).
Proof.
  split.
  - intros st events Hl Hlen Hall. cbv zeta.
    destruct events as [| a events] using rev_ind; [discriminate |]. clear IHevents.
    rewrite length_app in Hlen. simpl in Hlen.
    assert (Hst : (length (App.alerts (Runs.app_alerts st events)) <= 20)%nat)
      by (rewrite app_alerts_from, length_take by exact Hl; lia).
    assert (Hkept : take 20 (a :: App.alerts (Runs.app_alerts st events))
                    = rev (events ++ [a])).
    { rewrite app_alerts_from by exact Hl. rewrite rev_unit.
      change (take 20 (a :: ?l)) with (a :: take 19 l).
      rewrite take_take, take_app_le by (rewrite length_rev; lia).
      rewrite take_ge by (rewrite length_rev; lia). reflexivity. }
    rewrite app_alerts_snoc.
    destruct (app_alert_display (Runs.app_alerts st events) a Hst) as (Hdone & Hshown & _).
    cbv zeta in Hdone, Hshown. rewrite Hkept in Hdone, Hshown.
    split.
    + rewrite app_handleAlert_alerts by exact Hst. exact Hkept.
    + apply Hshown, Hdone. apply Forall_rev, Hall.
  - intros st bad events Hin Hbad. cbv zeta.
    destruct (fixed_alerts_frozen st bad events Hin Hbad) as [Hc Hstill].
    split; [exact Hc |]. split; [exact Hstill |].
    repeat split.
Qed.

End AlertsShown.

(** ** A quote that cannot be rendered *)

Section Unrenderable.
Context `{Host}.

Lemma app_display_throws st k entry :
  App.stocks st !! k = Some entry -> App.createStockCard entry = None ->
  App.updateStockDisplay st = Threw.
Proof.
  intros Hk Hcard. unfold App.updateStockDisplay.
  destruct (decide _) as [Hall |]; [| reflexivity].
  specialize (Hall k entry Hk). cbv beta in Hall. rewrite Hcard in Hall.
  destruct Hall; discriminate.
Qed.

Lemma fixed_display_throws st iso k entry :
  AppFixed.stocks st !! k = Some entry -> AppFixed.createStockCard iso entry = None ->
  AppFixed.updateStockDisplay st iso = Threw.
Proof.
  intros Hk Hcard. unfold AppFixed.updateStockDisplay.
  destruct (decide _) as [Hall |]; [| reflexivity].
  specialize (Hall k entry Hk). cbv beta in Hall. rewrite Hcard in Hall.
  destruct Hall; discriminate.
Qed.

(** A change delivered as text, not as a number, has no [toFixed]. *)
Lemma app_card_text_change entry s :
  entry !! "change" = Some (JStr s) -> s <> "" -> App.createStockCard entry = None.
Proof.
  intros Hchange Hs. unfold App.createStockCard, field. rewrite Hchange.
  assert (Htruthy : or_else (default JUndefined (Some (JStr s))) (JNum 0) = JStr s).
  { unfold or_else. simpl. destruct s; [contradiction | reflexivity]. }
  rewrite Htruthy. cbn [to_number to_primitive mbind option_bind].
  destruct (to_string _); reflexivity.
Qed.

(** X11.  One stored quote that cannot be rendered stops every later
    stock update short of the chart: [updateStockDisplay] renders all the
    stored quotes before [updateChartData] is reached, so an update for
    any other symbol ends on the exception with its own quote stored, the
    chart buffers untouched and the unrenderable quote still in place.
    Only an update for that very symbol can replace it.  In app.js a
    [change] delivered as a non-empty text is such a quote. *)
Theorem unrenderable_quote_blocks_the_chart :
  (forall st k entry msg now,
      App.stocks st !! k = Some entry -> App.createStockCard entry = None ->
      (forall symbol, get msg "symbol" = Some symbol -> to_string symbol <> Some k) ->
      let r := App.handleStockUpdate st msg now in
      r.2 = Threw /\ App.chartData r.1 = App.chartData st /\
      App.chartSymbol r.1 = App.chartSymbol st /\ App.stocks r.1 !! k = Some entry) /\
  (forall st k entry msg env,
      AppFixed.stocks st !! k = Some entry ->
      AppFixed.createStockCard (AppFixed.iso_time env) entry = None ->
      (forall symbol, get msg "symbol" = Some symbol -> to_string symbol <> Some k) ->
      let r := AppFixed.handleStockUpdate st msg env in
      r.2 = Threw /\ AppFixed.chartData r.1 = AppFixed.chartData st /\
      AppFixed.stocks r.1 !! k = Some entry) /\
  (forall entry s,
      entry !! "change" = Some (JStr s) -> s <> "" -> App.createStockCard entry = None).
Proof.
  split; [| split].
  - intros st k entry msg now Hk Hcard Hother. cbv zeta.
    unfold App.handleStockUpdate.
    destruct (get msg "symbol") as [symbol |]; [| repeat split; assumption].
    destruct (get msg "data") as [stockData |]; [| repeat split; assumption].
    destruct (get msg "timestamp") as [timestamp |]; [| repeat split; assumption].
    destruct (to_string symbol) as [key |] eqn:Hkey; [| repeat split; assumption].
    assert (Hne : key <> k) by (intros ->; apply (Hother symbol eq_refl Hkey)).
    assert (Hstill : App.stocks
                       (App.store_stock st key
                          (<["lastUpdate" := timestamp]> (spread stockData))) !! k
                     = Some entry).
    { unfold App.store_stock. destruct (_ && _); simpl; [exact Hk |].
      rewrite lookup_insert_ne by done. exact Hk. }
    destruct (app_store_frame st key (<["lastUpdate" := timestamp]> (spread stockData)))
      as (_ & _ & _ & Hchart & Hshown).
    cbv zeta in Hchart, Hshown |- *.
    rewrite (app_display_throws _ k entry Hstill Hcard).
    repeat split; assumption.
  - intros st k entry msg env Hk Hcard Hother. cbv zeta.
    unfold AppFixed.handleStockUpdate.
    destruct (get msg "symbol") as [symbol |]; [| repeat split; assumption].
    destruct (get msg "data") as [stockData |]; [| repeat split; assumption].
    destruct (get msg "timestamp") as [timestamp |]; [| repeat split; assumption].
    destruct (to_string symbol) as [key |] eqn:Hkey; [| repeat split; assumption].
    assert (Hne : key <> k) by (intros ->; apply (Hother symbol eq_refl Hkey)).
    assert (Hstill : AppFixed.stocks
                       (AppFixed.store_stock st key
                          (<["lastUpdate" := timestamp]>
                             (<["symbol" := symbol]> (spread stockData)))) !! k
                     = Some entry).
    { unfold AppFixed.store_stock. destruct (_ && _); simpl; [exact Hk |].
      rewrite lookup_insert_ne by done. exact Hk. }
    destruct (fixed_store_frame st key
                (<["lastUpdate" := timestamp]> (<["symbol" := symbol]> (spread stockData))))
      as (_ & _ & _ & _ & Hchart).
    cbv zeta in Hchart |- *.
    rewrite (fixed_display_throws _ _ k entry Hstill Hcard).
    repeat split; assumption.
  - apply app_card_text_change.
Qed.

End Unrenderable.

(** ** The monitoring controls of app_fixed.js *)

Lemma fixed_start_effects ses r type_error :
  let ses' := FixedSession.startMonitoring ses r type_error in
  let connected := AppFixed.isConnected (FixedSession.app ses) in
  FixedSession.requests ses'
  = FixedSession.requests ses ++ (if connected then ["/api/start-monitoring"] else []) /\
  AppFixed.isMonitoring (FixedSession.app ses')
  = connected && succeeded r || AppFixed.isMonitoring (FixedSession.app ses) /\
  length (AppFixed.dialogs (FixedSession.app ses'))
  = (length (AppFixed.dialogs (FixedSession.app ses))
     + (if connected && declined r then 0 else 1))%nat.
Proof.
  unfold FixedSession.startMonitoring, succeeded, declined, answers. cbv zeta.
  destruct (AppFixed.isConnected (FixedSession.app ses)); simpl.
  - destruct r as [data | message]; simpl.
    + destruct (get data "status") as [status |]; simpl.
      * destruct (is_string status "success"); simpl;
          rewrite ?length_app; simpl; repeat split; lia.
      * rewrite length_app. simpl. repeat split; lia.
    + rewrite length_app. simpl. repeat split; lia.
  - rewrite app_nil_r, length_app. simpl. repeat split; lia.
Qed.

Lemma fixed_stop_effects ses r type_error :
  let ses' := FixedSession.stopMonitoring ses r type_error in
  FixedSession.requests ses' = FixedSession.requests ses ++ ["/api/stop-monitoring"] /\
  AppFixed.isMonitoring (FixedSession.app ses')
  = AppFixed.isMonitoring (FixedSession.app ses) && negb (succeeded r) /\
  length (AppFixed.dialogs (FixedSession.app ses'))
  = (length (AppFixed.dialogs (FixedSession.app ses))
     + (if declined r then 0 else 1))%nat.
Proof.
  unfold FixedSession.stopMonitoring, succeeded, declined, answers. cbv zeta.
  destruct r as [data | message]; simpl.
  - destruct (get data "status") as [status |]; simpl.
    + destruct (is_string status "success"); simpl;
        rewrite ?length_app, ?andb_true_r, ?andb_false_r; simpl; repeat split; lia.
    + rewrite length_app, andb_true_r. simpl. repeat split; lia.
  - rewrite length_app, andb_true_r. simpl. repeat split; lia.
Qed.

(** X12.  The monitoring controls of app_fixed.js.  [startMonitoring]
    posts its request only when the socket is connected, and sets the
    monitoring flag exactly when it is connected and the answer has status
    'success'; [stopMonitoring] posts its request whether or not the
    socket is connected or the monitoring runs, and clears the flag exactly
    on status 'success'.  Each shows one dialog, except that an answer
    with any other status is dropped without a dialog.  Neither sends
    anything over the socket nor touches the quotes, the chart or the
    alerts: starting the monitoring subscribes no symbol. *)
Theorem fixed_monitoring_controls :
  (forall ses r type_error,
      let ses' := FixedSession.startMonitoring ses r type_error in
      let connected := AppFixed.isConnected (FixedSession.app ses) in
      FixedSession.requests ses'
      = FixedSession.requests ses ++ (if connected then ["/api/start-monitoring"] else []) /\
      AppFixed.isMonitoring (FixedSession.app ses')
      = connected && succeeded r || AppFixed.isMonitoring (FixedSession.app ses) /\
      length (AppFixed.dialogs (FixedSession.app ses'))
      = (length (AppFixed.dialogs (FixedSession.app ses))
         + (if connected && declined r then 0 else 1))%nat /\
      AppFixed.emitted (FixedSession.app ses') = AppFixed.emitted (FixedSession.app ses) /\
      fixed_quotes (FixedSession.app ses') = fixed_quotes (FixedSession.app ses) /\
      fixed_alerts_part (FixedSession.app ses') = fixed_alerts_part (FixedSession.app ses)) /\
  (forall ses r type_error,
      let ses' := FixedSession.stopMonitoring ses r type_error in
      FixedSession.requests ses' = FixedSession.requests ses ++ ["/api/stop-monitoring"] /\
      AppFixed.isMonitoring (FixedSession.app ses')
      = AppFixed.isMonitoring (FixedSession.app ses) && negb (succeeded r) /\
      length (AppFixed.dialogs (FixedSession.app ses'))
      = (length (AppFixed.dialogs (FixedSession.app ses))
         + (if declined r then 0 else 1))%nat /\
      AppFixed.emitted (FixedSession.app ses') = AppFixed.emitted (FixedSession.app ses) /\
      fixed_quotes (FixedSession.app ses') = fixed_quotes (FixedSession.app ses) /\
      fixed_alerts_part (FixedSession.app ses') = fixed_alerts_part (FixedSession.app ses)).
Proof.
  split; intros ses r type_error; cbv zeta.
  - destruct (fixed_start_effects ses r type_error) as (Hr & Hm & Hd).
    destruct (fixed_start_frame ses r type_error) as (Hq & Ha & He & _).
    repeat split; assumption.
  - destruct (fixed_stop_effects ses r type_error) as (Hr & Hm & Hd).
    destruct (fixed_stop_frame ses r type_error) as (Hq & Ha & He & _).
    repeat split; assumption.
Qed.

(** ** The symbols read from the input of app.js *)

Lemma split_comma_not_empty text : AppSession.split_comma text <> [].
Proof.
  destruct text as [| c rest]; simpl; [discriminate |].
  destruct (Ascii.eqb c ","%char); [discriminate |].
  destruct (AppSession.split_comma rest); discriminate.
Qed.

Lemma join_comma_cons piece pieces :
  pieces <> [] -> join_comma (piece :: pieces) = piece +:+ "," +:+ join_comma pieces.
Proof. destruct pieces; [contradiction | reflexivity]. Qed.

Lemma split_comma_join text : join_comma (AppSession.split_comma text) = text.
Proof.
  induction text as [| c rest IH]; [reflexivity |]. simpl.
  destruct (Ascii.eqb_spec c ","%char) as [-> | Hc].
  - rewrite join_comma_cons by apply split_comma_not_empty. rewrite IH. reflexivity.
  - pose proof (split_comma_not_empty rest) as Hne.
    destruct (AppSession.split_comma rest) as [| piece pieces]; [contradiction |].
    destruct pieces as [| piece' pieces].
    + simpl in *. rewrite IH. reflexivity.
    + rewrite join_comma_cons by discriminate.
      rewrite join_comma_cons in IH by discriminate.
      simpl. rewrite <- IH. reflexivity.
Qed.

Lemma split_comma_free text :
  Forall (fun piece => comma_free piece = true) (AppSession.split_comma text).
Proof.
  induction text as [| c rest IH]; simpl; [repeat constructor |].
  destruct (Ascii.eqb_spec c ","%char) as [-> | Hc].
  - constructor; [reflexivity | exact IH].
  - destruct (AppSession.split_comma rest) as [| piece pieces].
    + constructor; [| constructor]. simpl.
      destruct (Ascii.eqb_spec c ","%char); [contradiction | reflexivity].
    + inversion IH as [| ? ? Hpiece Hpieces]; subst.
      constructor; [| exact Hpieces]. simpl.
      destruct (Ascii.eqb_spec c ","%char); [contradiction | exact Hpiece].
Qed.

(** X13.  The symbols [startMonitoring] of app.js reads from the input:
    the text is cut at its commas, and nowhere else, into pieces that
    hold no comma and that give the text back when joined with commas;
    the symbols are these pieces trimmed, in their order, with the empty
    ones left out. *)
Theorem entered_symbols_are_the_comma_pieces `{Host} :
  forall text,
    let pieces := AppSession.split_comma text in
    join_comma pieces = text /\
    Forall (fun piece => comma_free piece = true) pieces /\
    AppSession.entered_symbols text
    = filter (fun symbol => symbol <> "") (trim <$> pieces).
Proof.
  intros text pieces. subst pieces.
  split; [apply split_comma_join |]. split; [apply split_comma_free |].
  unfold AppSession.entered_symbols.
  apply list_filter_iff. intros symbol. split.
  - intros Hlen ->. simpl in Hlen. lia.
  - intros Hne. destruct symbol; [contradiction | simpl; lia].
Qed.

(** ** When a stock update is handled to the end *)

Section Completion.
Context `{Host}.

Lemma app_chart_outcome st symbol stockData now key :
  to_string symbol = Some key ->
  (App.updateChartData st symbol stockData now).2
  = if finds_inherited (App.chartData st) key then Threw
    else match get stockData "price" with Some _ => Done | None => Threw end.
Proof.
  intros Hkey. unfold App.updateChartData. rewrite Hkey.
  destruct (finds_inherited (App.chartData st) key); [reflexivity |].
  destruct (get stockData "price"); reflexivity.
Qed.

Lemma fixed_chart_outcome st symbol stockData env key :
  to_string symbol = Some key ->
  (AppFixed.updateChartData st symbol stockData env).2
  = match get stockData "price" with
    | None => Threw
    | Some price =>
        if truthy price && finds_inherited (AppFixed.chartData st) key then Threw else Done
    end.
Proof.
  intros Hkey. unfold AppFixed.updateChartData. rewrite Hkey.
  destruct (get stockData "price") as [price |]; [| reflexivity].
  destruct (truthy price); [| reflexivity]. simpl.
  destruct (finds_inherited (AppFixed.chartData st) key); reflexivity.
Qed.

(** X14.  [handleStockUpdate] runs to its end exactly when the message
    has the members [symbol], [data] and [timestamp] to destructure (it
    is not [null] or [undefined]), the symbol converts to a property key,
    every quote that [this.stocks] holds after the assignment renders as a
    card, the quote [data] is not [null] or [undefined], and the chart
    lookup [this.chartData[symbol]] does not end on an inherited member:
    app.js makes that lookup in every call, app_fixed.js only when the
    price is truthy.  In every other case the handler stops on an
    exception. *)
Theorem stock_update_completes_iff :
  (forall st msg now,
      (App.handleStockUpdate st msg now).2 = Done <->
      exists symbol stockData timestamp key,
        get msg "symbol" = Some symbol /\ get msg "data" = Some stockData /\
        get msg "timestamp" = Some timestamp /\ to_string symbol = Some key /\
        is_Some (get stockData "price") /\
        finds_inherited (App.chartData st) key = false /\
        map_Forall (fun _ stock => is_Some (App.createStockCard stock))
          (App.stocks
             (App.store_stock st key (<["lastUpdate" := timestamp]> (spread stockData))))) /\
  (forall st msg env,
      (AppFixed.handleStockUpdate st msg env).2 = Done <->
      exists symbol stockData timestamp key price,
        get msg "symbol" = Some symbol /\ get msg "data" = Some stockData /\
        get msg "timestamp" = Some timestamp /\ to_string symbol = Some key /\
        get stockData "price" = Some price /\
        (truthy price = true -> finds_inherited (AppFixed.chartData st) key = false) /\
        map_Forall
          (fun _ stock => is_Some (AppFixed.createStockCard (AppFixed.iso_time env) stock))
          (AppFixed.stocks
             (AppFixed.store_stock st key
                (<["lastUpdate" := timestamp]>
                   (<["symbol" := symbol]> (spread stockData)))))).
Proof.
  split.
  - intros st msg now. unfold App.handleStockUpdate. split.
    + destruct (get msg "symbol") as [symbol |]; [| discriminate].
      destruct (get msg "data") as [stockData |]; [| discriminate].
      destruct (get msg "timestamp") as [timestamp |]; [| discriminate].
      destruct (to_string symbol) as [key |] eqn:Hkey; [| discriminate].
      cbv zeta. unfold App.updateStockDisplay at 1.
      destruct (decide _) as [Hall |]; [| discriminate].
      rewrite (app_chart_outcome _ _ _ _ key Hkey).
      destruct (app_store_frame st key (<["lastUpdate" := timestamp]> (spread stockData)))
        as (_ & _ & _ & -> & _).
      destruct (finds_inherited (App.chartData st) key) eqn:Hfound; [discriminate |].
      destruct (get stockData "price") as [price |] eqn:Hprice; [| discriminate].
      intros _. exists symbol, stockData, timestamp, key.
      repeat split; try reflexivity; try exact Hkey; eauto.
    + intros (symbol & stockData & timestamp & key & -> & -> & -> & Hkey & Hprice
              & Hfound & Hall).
      rewrite Hkey. cbv zeta. unfold App.updateStockDisplay at 1.
      rewrite decide_True by exact Hall.
      rewrite (app_chart_outcome _ _ _ _ key Hkey).
      destruct (app_store_frame st key (<["lastUpdate" := timestamp]> (spread stockData)))
        as (_ & _ & _ & -> & _).
      rewrite Hfound. destruct Hprice as [price ->]. reflexivity.
  - intros st msg env. unfold AppFixed.handleStockUpdate. split.
    + destruct (get msg "symbol") as [symbol |]; [| discriminate].
      destruct (get msg "data") as [stockData |]; [| discriminate].
      destruct (get msg "timestamp") as [timestamp |]; [| discriminate].
      destruct (to_string symbol) as [key |] eqn:Hkey; [| discriminate].
      cbv zeta. unfold AppFixed.updateStockDisplay at 1.
      destruct (decide _) as [Hall |]; [| discriminate].
      rewrite (fixed_chart_outcome _ _ _ _ key Hkey).
      destruct (fixed_store_frame st key
                  (<["lastUpdate" := timestamp]> (<["symbol" := symbol]> (spread stockData))))
        as (_ & _ & _ & _ & ->).
      destruct (get stockData "price") as [price |] eqn:Hprice; [| discriminate].
      intros Hdone. exists symbol, stockData, timestamp, key, price.
      refine (conj eq_refl (conj eq_refl (conj eq_refl (conj Hkey
                (conj Hprice (conj _ Hall)))))).
      intros Htruthy. rewrite Htruthy in Hdone. simpl in Hdone.
      destruct (finds_inherited (AppFixed.chartData st) key); [discriminate | reflexivity].
    + intros (symbol & stockData & timestamp & key & price & -> & -> & -> & Hkey & Hprice
              & Hfound & Hall).
      rewrite Hkey. cbv zeta. unfold AppFixed.updateStockDisplay at 1.
      rewrite decide_True by exact Hall.
      rewrite (fixed_chart_outcome _ _ _ _ key Hkey).
      destruct (fixed_store_frame st key
                  (<["lastUpdate" := timestamp]> (<["symbol" := symbol]> (spread stockData))))
        as (_ & _ & _ & _ & ->).
      rewrite Hprice. destruct (truthy price); [| reflexivity].
      rewrite (Hfound eq_refl). reflexivity.
Qed.

End Completion.

(** ** The header of a stock card *)

Section CardHeader.
Context `{Host}.

Lemma app_card_header stock card :
  App.createStockCard stock = Some card ->
  exists shown,
    to_string (field stock "symbol") = Some shown /\
    card_header card = Some (shown, default shown (name_text App.stockNames shown)).
Proof.
  unfold App.createStockCard. cbv zeta. intros Hcard.
  destruct (to_number _) as [c |]; [| discriminate].
  cbn [mbind option_bind] in Hcard.
  destruct (to_string (field stock "symbol")) as [shown |]; [| discriminate].
  exists shown. split; [reflexivity |].
  cbn [mbind option_bind] in Hcard.
  repeat match type of Hcard with
         | context [mbind _ ?m] =>
             destruct m; cbn [mbind option_bind] in Hcard; [| discriminate]
         end.
  injection Hcard as <-. reflexivity.
Qed.

Lemma fixed_card_header iso stock card :
  AppFixed.createStockCard iso stock = Some card ->
  exists shown name,
    to_string (field stock "symbol") = Some shown /\
    card_header card = Some (shown, name) /\
    (truthy (field stock "data") = false ->
     AppFixed.strict_eq_self (field stock "symbol") = true ->
     name = default shown (name_text AppFixed.stockNames shown)).
Proof.
  unfold AppFixed.createStockCard. cbv zeta. intros Hcard.
  destruct (to_string (field stock "symbol")) as [shown |] eqn:Hshown; [| discriminate].
  cbn [mbind option_bind] in Hcard.
  match type of Hcard with
  | context [mbind _ ?m] =>
      destruct m as [name |] eqn:Hname; cbn [mbind option_bind] in Hcard; [| discriminate]
  end.
  exists shown, name. split; [reflexivity |].
  repeat match type of Hcard with
         | context [mbind _ ?m] =>
             destruct m; cbn [mbind option_bind] in Hcard; [| discriminate]
         end.
  injection Hcard as <-. split; [reflexivity |].
  intros Hdata Hself. rewrite Hdata in Hname. cbn [truthy] in Hname.
  rewrite Hself in Hname.
  destruct (name_text AppFixed.stockNames shown) as [mapped |]; simpl.
  - injection Hname as <-. reflexivity.
  - rewrite Hshown in Hname. injection Hname as <-. reflexivity.
Qed.

(** An own entry read back under the key just assigned is the entry
    assigned. *)
Lemma app_store_own st key stored entry :
  App.stocks (App.store_stock st key stored) !! key = Some entry -> entry = stored.
Proof.
  unfold App.store_stock, App.shadows_proto.
  destruct (String.eqb_spec key "__proto__") as [-> | Hne]; simpl.
  - destruct (App.stocks st !! "__proto__") eqn:Hown; simpl.
    + rewrite lookup_insert_eq. congruence.
    + destruct (App.stocksProto st) as [parent |]; simpl;
        [destruct (bool_decide _); simpl |];
        rewrite ?lookup_insert_eq; congruence.
  - rewrite lookup_insert_eq. congruence.
Qed.

Lemma fixed_store_own st key stored entry :
  AppFixed.stocks (AppFixed.store_stock st key stored) !! key = Some entry ->
  entry = stored.
Proof.
  unfold AppFixed.store_stock, AppFixed.shadows_proto.
  destruct (String.eqb_spec key "__proto__") as [-> | Hne]; simpl.
  - destruct (AppFixed.stocks st !! "__proto__") eqn:Hown; simpl.
    + rewrite lookup_insert_eq. congruence.
    + destruct (AppFixed.stocksProto st) as [parent |]; simpl;
        [destruct (bool_decide _); simpl |];
        rewrite ?lookup_insert_eq; congruence.
  - rewrite lookup_insert_eq. congruence.
Qed.

(** X15.  What the card of a freshly stored quote is headed with.  In
    app_fixed.js the stored entry is given the symbol of the message, so
    the card shows the symbol it is stored under; when the quote has no
    truthy [data] member its name is the one the table gives for the
    symbol, else the symbol.  In app.js the entry is the copy of [data]
    with [lastUpdate] alone added: the card shows the [symbol] member of
    the quote itself, and a quote that has none is headed 'undefined',
    symbol and name, whatever symbol the message names.  The table is a
    plain object: for a symbol that names an inherited member, such as
    'constructor', it gives that member, and the name shown is the source
    text of the function [Object]. *)
Theorem card_header_of_stored_quote :
  (forall st msg env symbol stockData timestamp key entry card,
      get msg "symbol" = Some symbol -> get msg "data" = Some stockData ->
      get msg "timestamp" = Some timestamp -> to_string symbol = Some key ->
      AppFixed.stocks (AppFixed.handleStockUpdate st msg env).1 !! key = Some entry ->
      AppFixed.createStockCard (AppFixed.iso_time env) entry = Some card ->
      (exists name, card_header card = Some (key, name)) /\
      (truthy (default JUndefined (spread stockData !! "data")) = false ->
       AppFixed.strict_eq_self symbol = true ->
       card_header card
       = Some (key, default key (name_text AppFixed.stockNames key)))) /\
  (forall st msg now symbol stockData timestamp key entry card,
      get msg "symbol" = Some symbol -> get msg "data" = Some stockData ->
      get msg "timestamp" = Some timestamp -> to_string symbol = Some key ->
      App.stocks (App.handleStockUpdate st msg now).1 !! key = Some entry ->
      App.createStockCard entry = Some card ->
      (exists shown,
          to_string (default JUndefined (spread stockData !! "symbol")) = Some shown /\
          card_header card
          = Some (shown, default shown (name_text App.stockNames shown))) /\
      (spread stockData !! "symbol" = None ->
       card_header card = Some ("undefined", "undefined")) /\
      (spread stockData !! "symbol" = Some (JStr "constructor") ->
       card_header card = Some ("constructor", function_text "Object"))) /\
  name_text App.stockNames "constructor" = Some (function_text "Object") /\
  name_text AppFixed.stockNames "constructor" = Some (function_text "Object") /\
  name_text App.stockNames "__proto__" = Some "[object Object]".
Proof.
  split; [| split; [| repeat split]].
  - intros st msg env symbol stockData timestamp key entry card Hs Hd Ht Hkey Hentry Hcard.
    destruct (fixed_update_stocks st msg env symbol stockData timestamp key Hs Hd Ht Hkey)
      as [Hstocks _].
    cbv zeta in Hstocks. rewrite Hstocks in Hentry.
    apply fixed_store_own in Hentry. subst entry.
    apply fixed_card_header in Hcard as (shown & name & Hshown & Hheader & Hname).
    unfold field in Hshown, Hname.
    rewrite lookup_insert_ne, lookup_insert_eq in Hshown by done. simpl in Hshown.
    repeat (rewrite lookup_insert_ne in Hname by done).
    rewrite lookup_insert_eq in Hname. simpl in Hname.
    assert (shown = key) as -> by congruence.
    split; [exists name; exact Hheader |].
    intros Hdata Hself. rewrite Hheader, (Hname Hdata Hself). reflexivity.
  - intros st msg now symbol stockData timestamp key entry card Hs Hd Ht Hkey Hentry Hcard.
    destruct (app_update_stocks st msg now symbol stockData timestamp key Hs Hd Ht Hkey)
      as [Hstocks _].
    cbv zeta in Hstocks. rewrite Hstocks in Hentry.
    apply app_store_own in Hentry. subst entry.
    apply app_card_header in Hcard as (shown & Hshown & Hheader).
    unfold field in Hshown. rewrite lookup_insert_ne in Hshown by done.
    split; [exists shown; split; assumption |]. split.
    + intros Hnone. rewrite Hnone in Hshown. simpl in Hshown.
      injection Hshown as <-. exact Hheader.
    + intros Hsome. rewrite Hsome in Hshown. simpl in Hshown.
      injection Hshown as <-. exact Hheader.
Qed.

End CardHeader.

(** ** Instances *)

Lemma app_startMonitoring_effects_witness :
  AppSession.emitted
    (AppSession.startMonitoring (H := AsciiHost.host) AppSession.opened "AAPL, ,NVDA"
       (Some started_reply))
  = [subscription "AAPL"; subscription "NVDA"].
Proof.
  destruct (app_startMonitoring_effects (H := AsciiHost.host) AppSession.opened
              "AAPL, ,NVDA" (Some started_reply)) as (_ & _ & Hemit & _).
  rewrite Hemit. vm_compute. reflexivity.
Defined.

Lemma app_stopMonitoring_effects_witness :
  AppSession.stopMonitoring AppSession.opened false (Some started_reply)
  = AppSession.opened.
Proof.
  destruct (app_stopMonitoring_effects AppSession.opened false (Some started_reply))
    as (Hdeclined & _).
  apply Hdeclined. reflexivity.
Defined.

Lemma alert_display_follows_the_list_witness :
  (App.handleAlert (H := AsciiHost.host) App.initial (price_alert "high" 0.125)).2 = Done /\
  (App.handleAlert (H := AsciiHost.host) App.initial JNull).2 <> Done.
Proof.
  destruct (alert_display_follows_the_list (H := AsciiHost.host)) as (Happ & _).
  split.
  - destruct (Happ App.initial (price_alert "high" 0.125)) as (_ & Hdone & _);
      [simpl; lia |].
    apply Hdone. simpl. constructor; [vm_compute; eauto | constructor].
  - destruct (Happ App.initial JNull) as (_ & Hdone & _); [simpl; lia |].
    intros Hout. apply Hdone in Hout. simpl in Hout.
    inversion Hout as [| ? ? Hitem _]. destruct Hitem as [item Hitem]. discriminate.
Defined.

Lemma alert_display_recovery_witness :
  App.alerts
    (Runs.app_alerts (H := AsciiHost.host)
       (App.handleAlert (H := AsciiHost.host) App.initial JNull).1
       (replicate 20 (price_alert "high" 0.125)))
  = replicate 20 (price_alert "high" 0.125) /\
  AppFixed.alertsContainer
    (Runs.fixed_alerts (H := AsciiHost.host)
       (AppFixed.handleAlert (H := AsciiHost.host) AppFixed.initial JNull).1
       (replicate 20 (price_alert "high" 0.125)))
  = [].
Proof.
  destruct (alert_display_recovery (H := AsciiHost.host)) as (Happ & Hfixed).
  split.
  - destruct (Happ (App.handleAlert (H := AsciiHost.host) App.initial JNull).1
                (replicate 20 (price_alert "high" 0.125))) as (Halerts & _).
    + vm_compute. lia.
    + reflexivity.
    + apply Forall_replicate. vm_compute. eauto.
    + exact Halerts.
  - destruct (Hfixed (AppFixed.handleAlert (H := AsciiHost.host) AppFixed.initial JNull).1
                JNull (replicate 20 (price_alert "high" 0.125))) as (Hshown & _).
    + vm_compute. constructor.
    + reflexivity.
    + exact Hshown.
Defined.

Lemma unrenderable_quote_blocks_the_chart_witness :
  let st := (App.handleStockUpdate (H := AsciiHost.host) App.initial
               (quote_for "AAPL" [("price", JNum 189.5); ("change", JStr "1.5")])
               "10:00:01").1 in
  let r := App.handleStockUpdate (H := AsciiHost.host) st
             (quote_for "NVDA" [("price", JNum 120)]) "10:00:02" in
  r.2 = Threw /\ App.chartData r.1 = App.chartData st.
Proof.
  cbv zeta.
  destruct (unrenderable_quote_blocks_the_chart (H := AsciiHost.host))
    as (Happ & _ & Htext).
  destruct (Happ (App.handleStockUpdate (H := AsciiHost.host) App.initial
                    (quote_for "AAPL" [("price", JNum 189.5); ("change", JStr "1.5")])
                    "10:00:01").1
              "AAPL"
              (<["lastUpdate" := JStr "2026-01-05T10:00:00Z"]>
                 (list_to_map [("price", JNum 189.5); ("change", JStr "1.5")]))
              (quote_for "NVDA" [("price", JNum 120)]) "10:00:02")
    as (Hout & Hchart & _).
  - vm_compute. reflexivity.
  - apply (Htext _ "1.5"); [vm_compute; reflexivity | discriminate].
  - intros symbol Hsymbol. vm_compute in Hsymbol. injection Hsymbol as <-.
    vm_compute. discriminate.
  - split; [exact Hout | exact Hchart].
Defined.

Lemma entered_symbols_are_the_comma_pieces_witness :
  AppSession.entered_symbols (H := AsciiHost.host) "AAPL, ,NVDA" = ["AAPL"; "NVDA"].
Proof.
  destruct (entered_symbols_are_the_comma_pieces (H := AsciiHost.host) "AAPL, ,NVDA")
    as (_ & _ & Hsymbols).
  rewrite Hsymbols. vm_compute. reflexivity.
Defined.

Lemma stock_update_completes_iff_witness :
  (App.handleStockUpdate (H := AsciiHost.host) App.initial (quote_update JNull)
     "10:00:01").2 = Done /\
  (App.handleStockUpdate (H := AsciiHost.host) App.initial
     (quote_for "constructor" [("price", JNum 189.5)]) "10:00:01").2 <> Done.
Proof.
  destruct (stock_update_completes_iff (H := AsciiHost.host)) as (Happ & _).
  split;
    [| intros Hdone; apply Happ in Hdone
         as (symbol & stockData & timestamp & key & Hs & _ & _ & Hkey & _ & Hfound & _);
       vm_compute in Hs; injection Hs as <-;
       vm_compute in Hkey; injection Hkey as <-;
       vm_compute in Hfound; discriminate].
  apply Happ.
  exists (JStr "AAPL"),
         (JObj (list_to_map [("price", JNum 189.5); ("volume", JNum 1234567)])),
         (JStr "2026-01-05T10:00:00Z"), "AAPL".
  split; [reflexivity |]. split; [reflexivity |]. split; [reflexivity |].
  split; [reflexivity |]. split; [vm_compute; eauto |]. by_decide.
Defined.

Lemma card_header_of_stored_quote_witness :
  card_header
    (default (Raw "")
       (App.createStockCard (H := AsciiHost.host)
          (<["lastUpdate" := JStr "2026-01-05T10:00:00Z"]>
             (list_to_map [("price", JNum 189.5); ("volume", JNum 1234567)]))))
  = Some ("undefined", "undefined") /\
  card_header
    (default (Raw "")
       (App.createStockCard (H := AsciiHost.host)
          (<["lastUpdate" := JStr "2026-01-05T10:00:00Z"]>
             (list_to_map [("price", JNum 189.5); ("symbol", JStr "constructor")]))))
  = Some ("constructor", "function Object() { [native code] }").
Proof.
  destruct (card_header_of_stored_quote (H := AsciiHost.host)) as (_ & Happ & _).
  split.
  - destruct (Happ App.initial (quote_update JNull) "10:00:01" (JStr "AAPL")
                (JObj (list_to_map [("price", JNum 189.5); ("volume", JNum 1234567)]))
                (JStr "2026-01-05T10:00:00Z") "AAPL"
                (<["lastUpdate" := JStr "2026-01-05T10:00:00Z"]>
                   (list_to_map [("price", JNum 189.5); ("volume", JNum 1234567)]))
                (default (Raw "")
                   (App.createStockCard (H := AsciiHost.host)
                      (<["lastUpdate" := JStr "2026-01-05T10:00:00Z"]>
                         (list_to_map [("price", JNum 189.5); ("volume", JNum 1234567)])))))
      as (_ & Hnone & _);
      [reflexivity | reflexivity | reflexivity | reflexivity
       | vm_compute; reflexivity | vm_compute; reflexivity |].
    apply Hnone. vm_compute. reflexivity.
  - destruct (Happ App.initial
                (quote_for "AAPL" [("price", JNum 189.5); ("symbol", JStr "constructor")])
                "10:00:01" (JStr "AAPL")
                (JObj (list_to_map [("price", JNum 189.5); ("symbol", JStr "constructor")]))
                (JStr "2026-01-05T10:00:00Z") "AAPL"
                (<["lastUpdate" := JStr "2026-01-05T10:00:00Z"]>
                   (list_to_map [("price", JNum 189.5); ("symbol", JStr "constructor")]))
                (default (Raw "")
                   (App.createStockCard (H := AsciiHost.host)
                      (<["lastUpdate" := JStr "2026-01-05T10:00:00Z"]>
                         (list_to_map
                            [("price", JNum 189.5); ("symbol", JStr "constructor")])))))
      as (_ & _ & Hconstructor);
      [reflexivity | reflexivity | reflexivity | reflexivity
       | vm_compute; reflexivity | vm_compute; reflexivity |].
    apply Hconstructor. vm_compute. reflexivity.
Defined.
